(** * Event management API: visibility, authorization and aggregates

    A shallow embedding of the Django REST Framework application under
    [events/] (models.py, permissions.py, serializers.py, views.py).

    - Database tables are lists of rows; a row carries its primary key.
    - A view is a computation in a state-and-exception monad over the
      [Store]: it either raises an exception of the framework or returns a
      [Response].  Nothing is rolled back when an exception is raised.
    - Timestamps ([created_at], [updated_at]), the [User] and [UserProfile]
      tables, pagination and result ordering play no part in the properties
      below and are left out of the rows. *)

From Stdlib Require Import List ZArith Bool String Lia.
From Stdlib Require Floats Uint63.
Import ListNotations.
Open Scope Z_scope.

(** ** Identities *)

Definition pk := Z.
Definition User := pk.

(** [request.user]: an [AnonymousUser] or a row of the user table. *)
Inductive Caller : Type :=
| AnonymousUser
| AuthUser (u : User).

Definition is_authenticated (c : Caller) : bool :=
  match c with
  | AnonymousUser => false
  | AuthUser _ => true
  end.

(** [obj.user == request.user]: model instances are equal when their
    primary keys are; an [AnonymousUser] equals no row. *)
Definition user_eq (owner : User) (c : Caller) : bool :=
  match c with
  | AnonymousUser => false
  | AuthUser u => owner =? u
  end.

(** ** models.py *)

Module Event.
Record t : Type := mk {
  id : pk;
  title : string;
  description : string;
  organizer : User;
  location : string;
  start_time : Z;
  end_time : Z;
  is_public : bool
}.
End Event.

Module RSVP.
Record t : Type := mk {
  id : pk;
  event : pk;
  user : User;
  status : string
}.

Definition STATUS_CHOICES : list (string * string) :=
  [ ("Going", "Going"); ("Maybe", "Maybe"); ("Not Going", "Not Going") ]%string.
End RSVP.

Module Review.
Record t : Type := mk {
  id : pk;
  event : pk;
  user : User;
  rating : Z;
  comment : string
}.
End Review.

Record Store : Type := mkStore {
  events : list Event.t;
  rsvps : list RSVP.t;
  reviews : list Review.t
}.

(** Constraints the database enforces: primary keys, and
    [unique_together = ['event', 'user']] on RSVP and on Review. *)
Definition rsvp_key (r : RSVP.t) : pk * User := (RSVP.event r, RSVP.user r).
Definition review_key (r : Review.t) : pk * User := (Review.event r, Review.user r).

Record store_ok (st : Store) : Prop := {
  event_pk_unique : NoDup (map Event.id (events st));
  rsvp_pk_unique : NoDup (map RSVP.id (rsvps st));
  review_pk_unique : NoDup (map Review.id (reviews st));
  rsvp_unique_together : NoDup (map rsvp_key (rsvps st));
  review_unique_together : NoDup (map review_key (reviews st))
}.

(** An auto-incremented primary key.  The database hands out a key above
    every key it has used; here it is one more than the largest key of the
    table, a key no row has.  The two differ once the row with the largest
    key was deleted, so the statements below say of a new key that no row
    has it, not which number it is. *)
Definition next_pk (used : list pk) : pk :=
  1 + fold_right Z.max 0 used.

(** ** Requests, responses, exceptions *)

Inductive Method : Type := GET | HEAD | OPTIONS | POST | PUT | PATCH | DELETE.

Definition Method_eqb (a b : Method) : bool :=
  match a, b with
  | GET, GET | HEAD, HEAD | OPTIONS, OPTIONS | POST, POST
  | PUT, PUT | PATCH, PATCH | DELETE, DELETE => true
  | _, _ => false
  end.

Definition SAFE_METHODS : list Method := [GET; HEAD; OPTIONS].

Definition is_safe (m : Method) : bool := existsb (Method_eqb m) SAFE_METHODS.

(** A key of the request payload after the framework's field-level parsing:
    not sent, sent but rejected by the field (wrong type, blank, too
    long), or sent and parsed. *)
Inductive Field (A : Type) : Type :=
| Absent
| Malformed
| Given (a : A).
Arguments Absent {A}.
Arguments Malformed {A}.
Arguments Given {A} a.

Inductive Exn : Type :=
| NotAuthenticated
| PermissionDenied
| Http404
| ValidationError
| Unhandled (name : string).

Inductive Body : Type :=
| EventList (l : list Event.t)
| EventDetail (e : Event.t)
| RSVPBody (r : RSVP.t)
| ReviewList (l : list Review.t)
| ReviewBody (r : Review.t)
| Detail (msg : string)
| NoContent.

Record Response : Type := mkResponse {
  status_code : Z;
  body : Body
}.

Definition HTTP_200_OK := 200.
Definition HTTP_201_CREATED := 201.
Definition HTTP_204_NO_CONTENT := 204.
Definition HTTP_400_BAD_REQUEST := 400.
Definition HTTP_401_UNAUTHORIZED := 401.
Definition HTTP_403_FORBIDDEN := 403.
Definition HTTP_404_NOT_FOUND := 404.
Definition HTTP_409_CONFLICT := 409.
Definition HTTP_500_INTERNAL_SERVER_ERROR := 500.

Definition Result : Type := Exn + Response.

(** The framework's exception handler.  [auth_header] tells whether the
    first configured authentication class supplies a [WWW-Authenticate]
    header (the JWT authentication behind [api/token/] does); without one
    the framework turns 401 into 403. *)
Definition exn_status (auth_header : bool) (e : Exn) : Z :=
  match e with
  | NotAuthenticated =>
      if auth_header then HTTP_401_UNAUTHORIZED else HTTP_403_FORBIDDEN
  | PermissionDenied => HTTP_403_FORBIDDEN
  | Http404 => HTTP_404_NOT_FOUND
  | ValidationError => HTTP_400_BAD_REQUEST
  | Unhandled _ => HTTP_500_INTERNAL_SERVER_ERROR
  end.

Definition http_status (auth_header : bool) (r : Result) : Z :=
  match r with
  | inl e => exn_status auth_header e
  | inr resp => status_code resp
  end.

(** ** The monad of views *)

Definition M (A : Type) : Type := Store -> (Exn + A) * Store.

Definition ret {A} (a : A) : M A := fun st => (inr a, st).

Definition raise {A} (e : Exn) : M A := fun st => (inl e, st).

Definition bind {A B} (c : M A) (k : A -> M B) : M B :=
  fun st =>
    match c st with
    | (inl e, st') => (inl e, st')
    | (inr a, st') => k a st'
    end.

Definition gets {A} (f : Store -> A) : M A := fun st => (inr (f st), st).

Definition modify (f : Store -> Store) : M unit := fun st => (inr tt, f st).

Notation "x <- c ;; k" := (bind c (fun x => k))
  (at level 61, c at next level, right associativity).
Notation "c ;;; k" := (bind c (fun _ => k))
  (at level 61, right associativity).

Definition outcome {A} (r : (Exn + A) * Store) : Exn + A := fst r.
Definition store_after {A} (r : (Exn + A) * Store) : Store := snd r.

(** ** Permissions (rest_framework.permissions, events/permissions.py) *)

Record Permission : Type := mkPermission {
  has_permission : Method -> Caller -> bool;
  has_object_permission : Method -> Caller -> Event.t -> bool
}.

Definition IsAuthenticated : Permission :=
  {| has_permission := fun _ c => is_authenticated c;
     has_object_permission := fun _ _ _ => true |}.

Definition IsAuthenticatedOrReadOnly : Permission :=
  {| has_permission := fun m c => is_safe m || is_authenticated c;
     has_object_permission := fun _ _ _ => true |}.

Definition IsOrganizerOrReadOnly : Permission :=
  {| has_permission := fun _ _ => true;
     has_object_permission := fun m c obj =>
       if is_safe m then true else user_eq (Event.organizer obj) c |}.

(** [APIView.permission_denied]: an unauthenticated request is told to
    authenticate, an authenticated one is refused. *)
Definition permission_denied {A} (c : Caller) : M A :=
  if is_authenticated c then raise PermissionDenied else raise NotAuthenticated.

Definition check_permissions (perms : list Permission) (m : Method) (c : Caller)
  : M unit :=
  if forallb (fun p => has_permission p m c) perms then ret tt
  else permission_denied c.

Definition check_object_permissions (perms : list Permission) (m : Method)
    (c : Caller) (obj : Event.t) : M unit :=
  if forallb (fun p => has_object_permission p m c obj) perms then ret tt
  else permission_denied c.

(** ** Python floats

    A finite binary64 number is [fnum * 2 ^ fexp]; the operations below
    return it normalized ([2^52 <= |fnum| < 2^53], or zero as [0 * 2^0]).
    The exponent range is not bounded: a sum of 32-bit column values
    divided by a row count is far from overflow and underflow. *)

Record float : Type := mkFloat {
  fnum : Z;
  fexp : Z
}.

(** The integer nearest to [n / d] for [0 < d], ties to the even one. *)
Definition round_half_even (n d : Z) : Z :=
  let q := n / d in
  let r := n mod d in
  if 2 * r <? d then q
  else if d <? 2 * r then q + 1
  else if Z.even q then q else q + 1.

(** [n / (d * 2^e)] as a fraction of integers. *)
Definition scaled_num (n e : Z) : Z := if e <? 0 then n * 2 ^ (- e) else n.
Definition scaled_den (d e : Z) : Z := if e <? 0 then d else d * 2 ^ e.

(** [a / b] on Python integers: the binary64 number nearest to the
    quotient, ties to even. *)
Definition py_truediv (a b : Z) : Exn + float :=
  if b =? 0 then inl (Unhandled "ZeroDivisionError")
  else if a =? 0 then inr (mkFloat 0 0)
  else
    let s := Z.sgn a * Z.sgn b in
    let n := Z.abs a in
    let d := Z.abs b in
    let e0 := Z.log2 n - Z.log2 d - 53 in
    let e := if 2 ^ 53 <=? scaled_num n e0 / scaled_den d e0
             then e0 + 1 else e0 in
    let m := round_half_even (scaled_num n e) (scaled_den d e) in
    if m =? 2 ^ 53 then inr (mkFloat (s * 2 ^ 52) (e + 1))
    else inr (mkFloat (s * m) e).

(** A decimal literal with [ndigits] digits after the point, such as
    [4.5] ([digits = 45], [ndigits = 1]): the nearest binary64 number. *)
Definition py_float_literal (digits : Z) (ndigits : nat) : Exn + float :=
  py_truediv digits (10 ^ Z.of_nat ndigits).

(** [round(x, ndigits)] for [0 <= ndigits]: the exact value of [x] is
    rounded to [ndigits] decimals, ties to even, and the decimal
    obtained is read back as a float. *)
Definition py_round (x : float) (ndigits : nat) : Exn + float :=
  let scale := 10 ^ Z.of_nat ndigits in
  let k := round_half_even (scaled_num (fnum x * scale) (- fexp x))
                           (scaled_den 1 (- fexp x)) in
  py_float_literal k ndigits.

(** *** The same division on the binary64 numbers of the machine

    For integers below [2^53] in magnitude the conversion to a float is
    exact, and [a / b] in Python is the IEEE division of the two. *)

Definition binary64_of_Z (a : Z) : PrimFloat.float :=
  if a <? 0 then PrimFloat.opp (PrimFloat.of_uint63 (Uint63.of_Z (- a)))
  else PrimFloat.of_uint63 (Uint63.of_Z a).

Definition binary64_div (a b : Z) : SpecFloat.spec_float :=
  FloatOps.Prim2SF (PrimFloat.div (binary64_of_Z a) (binary64_of_Z b)).

Definition spec_of_float (x : float) : SpecFloat.spec_float :=
  if fnum x =? 0 then SpecFloat.S754_zero false
  else SpecFloat.S754_finite (fnum x <? 0) (Z.to_pos (Z.abs (fnum x))) (fexp x).

Definition spec_float_eqb (x y : SpecFloat.spec_float) : bool :=
  match x, y with
  | SpecFloat.S754_zero _, SpecFloat.S754_zero _ => true
  | SpecFloat.S754_finite s m e, SpecFloat.S754_finite s' m' e' =>
      Bool.eqb s s' && (m =? m')%positive && (e =? e')
  | _, _ => false
  end.

Definition agrees_with_binary64 (a b : Z) : bool :=
  match py_truediv a b with
  | inr x => spec_float_eqb (binary64_div a b) (spec_of_float x)
  | inl _ => false
  end.

Definition Zrange (lo : Z) (n : nat) : list Z :=
  map (fun i => lo + Z.of_nat i) (seq 0 n).

(** *** What the results are compared with

    [nearest_binary64 n d y] says what [y] is without reference to the
    division above: a binary64 number nearest to [n / d], for [0 < d].
    It is zero for [n = 0]; otherwise it is normalized and [n / d] is at
    most half a unit of its last place away.  The exponent is negative,
    as it is for every quotient below [2^52] in magnitude. *)
Definition nearest_binary64 (n d : Z) (y : float) : Prop :=
  if n =? 0 then y = mkFloat 0 0
  else 2 ^ 52 <= Z.abs (fnum y) < 2 ^ 53 /\ fexp y < 0 /\
       2 * Z.abs (n * 2 ^ (- fexp y) - fnum y * d) <= d.

(** [k / 10] is the decimal with one digit that [round(x, 1)] takes: a
    tenth nearest to the exact value of [x], an even one when two are
    equally near. *)
Definition nearest_tenth (x : float) (k : Z) : Prop :=
  2 * Z.abs (10 * fnum x - k * 2 ^ (- fexp x)) <= 2 ^ (- fexp x) /\
  (2 * Z.abs (10 * fnum x - k * 2 ^ (- fexp x)) = 2 ^ (- fexp x) ->
   Z.even k = true).

(** The literals [4.5] and [3.3] as the machine reads them. *)
Module Literal.
Import PrimFloat.
#[local] Set Warnings "-inexact-float".
Definition four_point_five : PrimFloat.float := 4.5%float.
Definition three_point_three : PrimFloat.float := 3.3%float.
End Literal.

(** ** models.py: the computed properties of Event *)

Definition bind_exn {A B} (c : Exn + A) (k : A -> M B) : M B :=
  match c with
  | inl e => raise e
  | inr a => k a
  end.

Definition sum_Z (l : list Z) : Z := fold_right Z.add 0 l.

Definition count {A} (l : list A) : Z := Z.of_nat (List.length l).

Definition exists_ {A} (l : list A) : bool :=
  match l with
  | [] => false
  | _ :: _ => true
  end.

(** [self.rsvps], [self.reviews]: the reverse relations of an event. *)
Definition Event_rsvps (self : Event.t) : M (list RSVP.t) :=
  gets (fun st => filter (fun r => RSVP.event r =? Event.id self) (rsvps st)).

Definition Event_reviews (self : Event.t) : M (list Review.t) :=
  gets (fun st => filter (fun r => Review.event r =? Event.id self) (reviews st)).

Definition Event_rsvp_count (self : Event.t) : M Z :=
  rs <- Event_rsvps self ;;
  ret (count (filter (fun r => String.eqb (RSVP.status r) "Going") rs)).

Definition Event_average_rating (self : Event.t) : M (option float) :=
  reviews <- Event_reviews self ;;
  if exists_ reviews then
    bind_exn (py_truediv (sum_Z (map Review.rating reviews)) (count reviews))
      (fun x => bind_exn (py_round x 1) (fun y => ret (Some y)))
  else ret None.

(** ** serializers.py *)

(** One declared field of a serializer: a required key must be sent
    unless the update is partial. *)
Definition run_field {A} (required partial : bool) (f : Field A)
  : Exn + option A :=
  match f with
  | Given a => inr (Some a)
  | Malformed => inl ValidationError
  | Absent => if required && negb partial then inl ValidationError
              else inr None
  end.

Definition or_else {A} (a b : option A) : option A :=
  match a with
  | Some _ => a
  | None => b
  end.

Definition from_option {A} (d : A) (o : option A) : A :=
  match o with
  | Some a => a
  | None => d
  end.

Module EventCreateUpdateSerializer.

(** The request payload, as the fields of the serializer read it (for a
    form-encoded body see [EventRequest.get_value] below).  [organizer] is
    a key a client may send; it is not among [Meta.fields]. *)
Record Data : Type := mkData {
  title : Field string;
  description : Field string;
  location : Field string;
  start_time : Field Z;
  end_time : Field Z;
  is_public : Field bool;
  organizer : Field User
}.

(** [validated_data]: the declared fields that were sent. *)
Record Attrs : Type := mkAttrs {
  a_title : option string;
  a_description : option string;
  a_location : option string;
  a_start_time : option Z;
  a_end_time : option Z;
  a_is_public : option bool
}.

Definition to_internal_value (partial : bool) (data : Data) : Exn + Attrs :=
  match run_field true partial (title data),
        run_field true partial (description data),
        run_field true partial (location data),
        run_field true partial (start_time data),
        run_field true partial (end_time data),
        run_field false partial (is_public data) with
  | inr t, inr d, inr l, inr s, inr e, inr p => inr (mkAttrs t d l s e p)
  | _, _, _, _, _, _ => inl ValidationError
  end.

(** [validate]: end_time must be after start_time, a value that was not
    sent being taken from the instance under update. *)
Definition validate (instance : option Event.t) (data : Attrs) : Exn + Attrs :=
  let start := or_else (a_start_time data) (option_map Event.start_time instance) in
  let end_ := or_else (a_end_time data) (option_map Event.end_time instance) in
  match start, end_ with
  | Some s, Some e =>
      if e <=? s then inl ValidationError else inr data
  | _, _ => inr data
  end.

Definition is_valid (instance : option Event.t) (partial : bool) (data : Data)
  : Exn + Attrs :=
  match to_internal_value partial data with
  | inl e => inl e
  | inr attrs => validate instance attrs
  end.

(** [save(organizer=...)] without an instance: [Event.objects.create]. *)
Definition create (attrs : Attrs) (organizer : User) : M Event.t :=
  used <- gets (fun st => map Event.id (events st)) ;;
  let obj := Event.mk (next_pk used)
               (from_option EmptyString (a_title attrs))
               (from_option EmptyString (a_description attrs))
               organizer
               (from_option EmptyString (a_location attrs))
               (from_option 0 (a_start_time attrs))
               (from_option 0 (a_end_time attrs))
               (from_option true (a_is_public attrs)) in
  modify (fun st => mkStore (events st ++ [obj]) (rsvps st) (reviews st)) ;;;
  ret obj.

(** [save()] with an instance: the sent attributes are set, the row is
    written back. *)
Definition update (instance : Event.t) (attrs : Attrs) : M Event.t :=
  let obj := Event.mk (Event.id instance)
               (from_option (Event.title instance) (a_title attrs))
               (from_option (Event.description instance) (a_description attrs))
               (Event.organizer instance)
               (from_option (Event.location instance) (a_location attrs))
               (from_option (Event.start_time instance) (a_start_time attrs))
               (from_option (Event.end_time instance) (a_end_time attrs))
               (from_option (Event.is_public instance) (a_is_public attrs)) in
  modify (fun st =>
    mkStore (map (fun e => if Event.id e =? Event.id obj then obj else e)
                 (events st))
            (rsvps st) (reviews st)) ;;;
  ret obj.

End EventCreateUpdateSerializer.

Module RSVPSerializer.

(** Only [status] is writable; it is kept as the client sent it. *)
Record Data : Type := mkData {
  status : option string
}.

Definition valid_statuses : list string := map fst RSVP.STATUS_CHOICES.

(** The choice field built from [choices=STATUS_CHOICES]. *)
Definition ChoiceField (value : string) : Exn + string :=
  if existsb (String.eqb value) valid_statuses then inr value
  else inl ValidationError.

Definition validate_status (value : string) : Exn + string :=
  if negb (existsb (String.eqb value) valid_statuses) then inl ValidationError
  else inr value.

(** [is_valid] of a partial update. *)
Definition is_valid (data : Data) : Exn + option string :=
  match status data with
  | None => inr None
  | Some raw =>
      match ChoiceField raw with
      | inl e => inl e
      | inr v =>
          match validate_status v with
          | inl e => inl e
          | inr v' => inr (Some v')
          end
      end
  end.

Definition update (instance : RSVP.t) (attrs : option string) : M RSVP.t :=
  let obj := RSVP.mk (RSVP.id instance) (RSVP.event instance)
               (RSVP.user instance)
               (from_option (RSVP.status instance) attrs) in
  modify (fun st =>
    mkStore (events st)
            (map (fun r => if RSVP.id r =? RSVP.id obj then obj else r)
                 (rsvps st))
            (reviews st)) ;;;
  ret obj.

End RSVPSerializer.

Module ReviewSerializer.

(** [event] is read-only for the serializer; ReviewViewSet reads it from
    the raw payload. *)
Record Data : Type := mkData {
  event : Field pk;
  user_id : Field Z;
  rating : Field Z;
  comment : Field string
}.

Record Attrs : Type := mkAttrs {
  a_user_id : option Z;
  a_rating : Z;
  a_comment : option string
}.

(** [self.context]. *)
Record Context : Type := mkContext {
  ctx_request_user : Caller;
  ctx_event : option Event.t
}.

Definition MinValueValidator (limit value : Z) : bool := limit <=? value.
Definition MaxValueValidator (limit value : Z) : bool := value <=? limit.

Definition validate_rating (value : Z) : Exn + Z :=
  if negb ((1 <=? value) && (value <=? 5)) then inl ValidationError
  else inr value.

Definition is_valid (data : Data) : Exn + Attrs :=
  match run_field false false (user_id data),
        run_field true false (rating data),
        run_field false false (comment data) with
  | inr u, inr (Some r), inr c =>
      if MinValueValidator 1 r && MaxValueValidator 5 r then
        match validate_rating r with
        | inl e => inl e
        | inr r' => inr (mkAttrs u r' c)
        end
      else inl ValidationError
  | _, _, _ => inl ValidationError
  end.

(** [Review.objects.create]; the unique constraint on (event, user)
    refuses a second row. *)
Definition insert (event : Event.t) (user : User) (attrs : Attrs) : M Review.t :=
  st <- gets (fun st => st) ;;
  if existsb (fun r => (Review.event r =? Event.id event) && (Review.user r =? user))
             (reviews st)
  then raise (Unhandled "IntegrityError")
  else
    let obj := Review.mk (next_pk (map Review.id (reviews st)))
                 (Event.id event) user (a_rating attrs)
                 (from_option EmptyString (a_comment attrs)) in
    modify (fun st => mkStore (events st) (rsvps st) (reviews st ++ [obj])) ;;;
    ret obj.

(** [create]: user and event come from the context, whatever [save]
    was given. *)
Definition create (ctx : Context) (attrs : Attrs) : M Review.t :=
  match ctx_event ctx with
  | None => raise (Unhandled "KeyError")
  | Some ev =>
      match ctx_request_user ctx with
      | AnonymousUser => raise (Unhandled "ValueError")
      | AuthUser u => insert ev u attrs
      end
  end.

End ReviewSerializer.

(** ** views.py: EventViewSet *)

Module EventViewSet.

Definition permission_classes : list Permission :=
  [IsAuthenticatedOrReadOnly; IsOrganizerOrReadOnly].

(** [get_queryset]: anonymous callers see public events, authenticated
    callers see public events and the events they organize. *)
Definition get_queryset (c : Caller) : M (list Event.t) :=
  queryset <- gets events ;;
  if negb (is_authenticated c) then
    ret (filter Event.is_public queryset)
  else
    ret (filter (fun e => Event.is_public e || user_eq (Event.organizer e) c)
                queryset).

(** [filter_queryset]: the filter backends keep the rows selected by the
    query parameters of the request, here the predicate [q]. *)
Definition filter_queryset (q : Event.t -> bool) (qs : list Event.t)
  : list Event.t :=
  filter q qs.

(** [queryset.get(pk=pk)] behind [get_object_or_404]. *)
Definition get_object_or_404 (qs : list Event.t) (k : pk) : M Event.t :=
  match filter (fun e => Event.id e =? k) qs with
  | [] => raise Http404
  | [obj] => ret obj
  | _ => raise (Unhandled "MultipleObjectsReturned")
  end.

Definition get_object (perms : list Permission) (m : Method) (c : Caller)
    (q : Event.t -> bool) (k : pk) : M Event.t :=
  qs <- get_queryset c ;;
  obj <- get_object_or_404 (filter_queryset q qs) k ;;
  check_object_permissions perms m c obj ;;;
  ret obj.

Definition list_action (c : Caller) (q : Event.t -> bool) : M Response :=
  check_permissions permission_classes GET c ;;;
  qs <- get_queryset c ;;
  ret (mkResponse HTTP_200_OK (EventList (filter_queryset q qs))).

Definition retrieve (c : Caller) (q : Event.t -> bool) (k : pk) : M Response :=
  check_permissions permission_classes GET c ;;;
  obj <- get_object permission_classes GET c q k ;;
  ret (mkResponse HTTP_200_OK (EventDetail obj)).

(** [perform_create]: the organizer is the caller. *)
Definition perform_create (c : Caller)
    (attrs : EventCreateUpdateSerializer.Attrs) : M Event.t :=
  match c with
  | AnonymousUser => raise (Unhandled "ValueError")
  | AuthUser u => EventCreateUpdateSerializer.create attrs u
  end.

Definition create (c : Caller) (data : EventCreateUpdateSerializer.Data)
  : M Response :=
  check_permissions permission_classes POST c ;;;
  bind_exn (EventCreateUpdateSerializer.is_valid None false data) (fun attrs =>
  obj <- perform_create c attrs ;;
  ret (mkResponse HTTP_201_CREATED (EventDetail obj))).

(** [update] (PUT, [partial = false]) and [partial_update] (PATCH). *)
Definition update (partial : bool) (c : Caller) (q : Event.t -> bool) (k : pk)
    (data : EventCreateUpdateSerializer.Data) : M Response :=
  let m := if partial then PATCH else PUT in
  check_permissions permission_classes m c ;;;
  instance <- get_object permission_classes m c q k ;;
  bind_exn (EventCreateUpdateSerializer.is_valid (Some instance) partial data)
    (fun attrs =>
  obj <- EventCreateUpdateSerializer.update instance attrs ;;
  ret (mkResponse HTTP_200_OK (EventDetail obj))).

(** [instance.delete()]: RSVPs and reviews go with their event
    ([on_delete=CASCADE]). *)
Definition perform_destroy (instance : Event.t) : M unit :=
  modify (fun st =>
    mkStore (filter (fun e => negb (Event.id e =? Event.id instance)) (events st))
            (filter (fun r => negb (RSVP.event r =? Event.id instance)) (rsvps st))
            (filter (fun r => negb (Review.event r =? Event.id instance))
                    (reviews st))).

Definition destroy (c : Caller) (q : Event.t -> bool) (k : pk) : M Response :=
  check_permissions permission_classes DELETE c ;;;
  instance <- get_object permission_classes DELETE c q k ;;
  perform_destroy instance ;;;
  ret (mkResponse HTTP_204_NO_CONTENT NoContent).

(** [RSVP.objects.get_or_create(event=, user=, defaults={'status': })]. *)
Definition get_or_create (event : Event.t) (user : User) (status : string)
  : M (RSVP.t * bool) :=
  st <- gets (fun st => st) ;;
  match filter (fun r => (RSVP.event r =? Event.id event) && (RSVP.user r =? user))
               (rsvps st) with
  | [] =>
      let obj := RSVP.mk (next_pk (map RSVP.id (rsvps st)))
                   (Event.id event) user status in
      modify (fun st => mkStore (events st) (rsvps st ++ [obj]) (reviews st)) ;;;
      ret (obj, true)
  | [obj] => ret (obj, false)
  | _ => raise (Unhandled "MultipleObjectsReturned")
  end.

(** The [rsvp] action (POST and PATCH), [permission_classes=[IsAuthenticated]]. *)
Definition rsvp (m : Method) (c : Caller) (q : Event.t -> bool) (k : pk)
    (data : RSVPSerializer.Data) : M Response :=
  check_permissions [IsAuthenticated] m c ;;;
  event <- get_object [IsAuthenticated] m c q k ;;
  match c with
  | AnonymousUser => raise (Unhandled "TypeError")
  | AuthUser user =>
      p <- get_or_create event user
             (from_option "Maybe"%string (RSVPSerializer.status data)) ;;
      let (rsvp, created) := p in
      if negb created then
        bind_exn (RSVPSerializer.is_valid data) (fun attrs =>
        obj <- RSVPSerializer.update rsvp attrs ;;
        ret (mkResponse HTTP_200_OK (RSVPBody obj)))
      else
        ret (mkResponse HTTP_201_CREATED (RSVPBody rsvp))
  end.

(** The [reviews] action, [permission_classes=[IsAuthenticatedOrReadOnly]]. *)
Definition reviews_get (c : Caller) (q : Event.t -> bool) (k : pk) : M Response :=
  check_permissions [IsAuthenticatedOrReadOnly] GET c ;;;
  event <- get_object [IsAuthenticatedOrReadOnly] GET c q k ;;
  reviews <- Event_reviews event ;;
  ret (mkResponse HTTP_200_OK (ReviewList reviews)).

Definition reviews_post (c : Caller) (q : Event.t -> bool) (k : pk)
    (data : ReviewSerializer.Data) : M Response :=
  check_permissions [IsAuthenticatedOrReadOnly] POST c ;;;
  event <- get_object [IsAuthenticatedOrReadOnly] POST c q k ;;
  already <- gets (fun st =>
    exists_ (filter (fun r => (Review.event r =? Event.id event)
                              && user_eq (Review.user r) c)
                    (reviews st))) ;;
  if already then
    ret (mkResponse HTTP_400_BAD_REQUEST
           (Detail "You have already reviewed this event."))
  else
    bind_exn (ReviewSerializer.is_valid data) (fun attrs =>
    obj <- ReviewSerializer.create
             (ReviewSerializer.mkContext c (Some event)) attrs ;;
    ret (mkResponse HTTP_201_CREATED (ReviewBody obj))).

End EventViewSet.

(** ** views.py: ReviewViewSet *)

Module ReviewViewSet.

Definition permission_classes : list Permission := [IsAuthenticatedOrReadOnly].

(** [get_queryset]: all reviews, or those of the event named by the
    [event] query parameter. *)
Definition get_queryset (event_id : option pk) : M (list Review.t) :=
  queryset <- gets reviews ;;
  match event_id with
  | Some k => ret (filter (fun r => Review.event r =? k) queryset)
  | None => ret queryset
  end.

Definition list_action (c : Caller) (event_id : option pk) : M Response :=
  check_permissions permission_classes GET c ;;;
  qs <- get_queryset event_id ;;
  ret (mkResponse HTTP_200_OK (ReviewList qs)).

(** [get_object_or_404(Event, id=event_id)] over all events. *)
Definition get_event_or_404 (event_id : Field pk) : M Event.t :=
  match event_id with
  | Malformed => raise (Unhandled "ValueError")
  | Absent => raise Http404
  | Given k =>
      evs <- gets events ;;
      match filter (fun e => Event.id e =? k) evs with
      | [] => raise Http404
      | [obj] => ret obj
      | _ => raise (Unhandled "MultipleObjectsReturned")
      end
  end.

(** [perform_create]: [save(user=, event=)] goes through
    [ReviewSerializer.create], which reads the event from a context that
    this view does not fill. *)
Definition perform_create (c : Caller) (data : ReviewSerializer.Data)
    (attrs : ReviewSerializer.Attrs) : M Review.t :=
  event <- get_event_or_404 (ReviewSerializer.event data) ;;
  already <- gets (fun st =>
    exists_ (filter (fun r => (Review.event r =? Event.id event)
                              && user_eq (Review.user r) c)
                    (reviews st))) ;;
  if already then raise ValidationError
  else ReviewSerializer.create (ReviewSerializer.mkContext c None) attrs.

Definition create (c : Caller) (data : ReviewSerializer.Data) : M Response :=
  check_permissions permission_classes POST c ;;;
  bind_exn (ReviewSerializer.is_valid data) (fun attrs =>
  obj <- perform_create c data attrs ;;
  ret (mkResponse HTTP_201_CREATED (ReviewBody obj))).

End ReviewViewSet.

(** ** urls.py: the routes of the router *)

Inductive Request : Type :=
| ListEvents (q : Event.t -> bool)
| RetrieveEvent (q : Event.t -> bool) (k : pk)
| CreateEvent (data : EventCreateUpdateSerializer.Data)
| UpdateEvent (partial : bool) (q : Event.t -> bool) (k : pk)
              (data : EventCreateUpdateSerializer.Data)
| DestroyEvent (q : Event.t -> bool) (k : pk)
| Rsvp (m : Method) (q : Event.t -> bool) (k : pk) (data : RSVPSerializer.Data)
| ListEventReviews (q : Event.t -> bool) (k : pk)
| PostEventReview (q : Event.t -> bool) (k : pk) (data : ReviewSerializer.Data)
| ListReviews (event_id : option pk)
| CreateReview (data : ReviewSerializer.Data).

Definition dispatch (c : Caller) (r : Request) : M Response :=
  match r with
  | ListEvents q => EventViewSet.list_action c q
  | RetrieveEvent q k => EventViewSet.retrieve c q k
  | CreateEvent data => EventViewSet.create c data
  | UpdateEvent partial q k data => EventViewSet.update partial c q k data
  | DestroyEvent q k => EventViewSet.destroy c q k
  | Rsvp m q k data => EventViewSet.rsvp m c q k data
  | ListEventReviews q k => EventViewSet.reviews_get c q k
  | PostEventReview q k data => EventViewSet.reviews_post c q k data
  | ListReviews event_id => ReviewViewSet.list_action c event_id
  | CreateReview data => ReviewViewSet.create c data
  end.

(** The store after a sequence of requests, each with its caller. *)
Fixpoint serve (reqs : list (Caller * Request)) (st : Store) : Store :=
  match reqs with
  | [] => st
  | (c, r) :: rest => serve rest (store_after (dispatch c r st))
  end.

Definition empty_store : Store := mkStore [] [] [].

(** ** Auxiliary definitions for the statements *)

(** The scope of a caller, as a predicate on rows. *)
Definition in_scope (c : Caller) (e : Event.t) : bool :=
  Event.is_public e || user_eq (Event.organizer e) c.

(** The start and end an event would have after the payload [data] is
    applied to it: the value sent, else the stored one. *)
Definition effective_start (instance : Event.t)
    (data : EventCreateUpdateSerializer.Data) : Z :=
  match EventCreateUpdateSerializer.start_time data with
  | Given s => s
  | _ => Event.start_time instance
  end.

Definition effective_end (instance : Event.t)
    (data : EventCreateUpdateSerializer.Data) : Z :=
  match EventCreateUpdateSerializer.end_time data with
  | Given e => e
  | _ => Event.end_time instance
  end.

(** The payload [data] with the [organizer] key set by the client. *)
Definition with_organizer (data : EventCreateUpdateSerializer.Data)
    (v : Field User) : EventCreateUpdateSerializer.Data :=
  EventCreateUpdateSerializer.mkData
    (EventCreateUpdateSerializer.title data)
    (EventCreateUpdateSerializer.description data)
    (EventCreateUpdateSerializer.location data)
    (EventCreateUpdateSerializer.start_time data)
    (EventCreateUpdateSerializer.end_time data)
    (EventCreateUpdateSerializer.is_public data)
    v.

(** Identity and owner of each row of the event table. *)
Definition owners (st : Store) : list (pk * User) :=
  map (fun e => (Event.id e, Event.organizer e)) (events st).

(** The RSVP rows of user [u] for event [k]. *)
Definition rsvps_of (k : pk) (u : User) (st : Store) : list RSVP.t :=
  filter (fun r => (RSVP.event r =? k) && (RSVP.user r =? u)) (rsvps st).

(** The row [r] with its status replaced. *)
Definition set_status (r : RSVP.t) (s : string) : RSVP.t :=
  RSVP.mk (RSVP.id r) (RSVP.event r) (RSVP.user r) s.

(** The RSVP table with the row of primary key [RSVP.id r] overwritten. *)
Definition write_rsvp (r : RSVP.t) (st : Store) : Store :=
  mkStore (events st)
          (map (fun x => if RSVP.id x =? RSVP.id r then r else x) (rsvps st))
          (reviews st).

(** The ratings of the reviews of an event, and its RSVP rows that say
    Going. *)
Definition ratings_of (E : Event.t) (st : Store) : list Z :=
  map Review.rating
      (filter (fun r => Review.event r =? Event.id E) (reviews st)).

Definition going_of (E : Event.t) (st : Store) : list RSVP.t :=
  filter (fun r => (RSVP.event r =? Event.id E)
                   && String.eqb (RSVP.status r) "Going")
         (rsvps st).

(** ** Sample data *)

Definition public_event : Event.t :=
  Event.mk 1 "Meetup" "Monthly meetup" 7 "Paris" 1000 2000 true.

Definition private_event : Event.t :=
  Event.mk 2 "Board" "Board meeting" 7 "Lyon" 3000 4000 false.

Definition sample_store : Store :=
  mkStore [public_event; private_event]
          [RSVP.mk 1 1 4 "Maybe"]
          [Review.mk 1 1 3 4 "Good"; Review.mk 2 1 4 5 ""; Review.mk 3 2 7 3 ""].

(** The public event with the ratings 3, 3 and 4. *)
Definition three_reviews_store : Store :=
  mkStore [public_event] []
          [Review.mk 1 1 3 3 ""; Review.mk 2 1 4 3 ""; Review.mk 3 1 7 4 "Fine"].

Definition any_event : Event.t -> bool := fun _ => true.

Definition meetup_payload : EventCreateUpdateSerializer.Data :=
  EventCreateUpdateSerializer.mkData
    (Given "Meetup"%string) (Given "Monthly meetup"%string) (Given "Paris"%string)
    (Given 1000) (Given 2000) Absent Absent.

(** * The other views, serializer methods and signals *)

(** A response whose payload has the type of what the serializer renders. *)
Record Reply (A : Type) : Type := mkReply {
  reply_status : Z;
  reply_data : A
}.
Arguments mkReply {A} reply_status reply_data.
Arguments reply_status {A} r.
Arguments reply_data {A} r.

(** ** rest_framework.fields: how the fields read the body of a request

    [Field.get_value].  From a JSON body a field reads its key, and a key
    that is missing was not sent.  From a form-encoded body
    ([html.is_html_input]) a missing key of a request that is not partial
    reads as the [default_empty_html] of the field: that is [False] for
    the BooleanField of [is_public], and "not sent" for the other fields
    of EventCreateUpdateSerializer.  The payload
    [EventCreateUpdateSerializer.Data] is what the fields have read. *)
Inductive MediaType : Type := JSON | HTMLForm.

Definition is_html_input (media : MediaType) : bool :=
  match media with
  | HTMLForm => true
  | JSON => false
  end.

Definition BooleanField_get_value (media : MediaType) (partial : bool)
    (key : Field bool) : Field bool :=
  match key with
  | Absent => if is_html_input media && negb partial then Given false else Absent
  | _ => key
  end.

(** The value a key of the body gives: the one sent, else the stored one. *)
Definition sent {A} (key : Field A) : option A :=
  match key with
  | Given a => Some a
  | _ => None
  end.

Definition sent_or {A} (key : Field A) (stored : A) : A :=
  from_option stored (sent key).

Module EventRequest.

(** What the fields of EventCreateUpdateSerializer read from [body]. *)
Definition get_value (media : MediaType) (partial : bool)
    (body : EventCreateUpdateSerializer.Data) : EventCreateUpdateSerializer.Data :=
  EventCreateUpdateSerializer.mkData
    (EventCreateUpdateSerializer.title body)
    (EventCreateUpdateSerializer.description body)
    (EventCreateUpdateSerializer.location body)
    (EventCreateUpdateSerializer.start_time body)
    (EventCreateUpdateSerializer.end_time body)
    (BooleanField_get_value media partial (EventCreateUpdateSerializer.is_public body))
    (EventCreateUpdateSerializer.organizer body).

(** POST, PUT and PATCH of an event with a body of the given media type. *)
Definition create (media : MediaType) (c : Caller)
    (body : EventCreateUpdateSerializer.Data) : M Response :=
  EventViewSet.create c (get_value media false body).

Definition update (media : MediaType) (partial : bool) (c : Caller)
    (q : Event.t -> bool) (k : pk) (body : EventCreateUpdateSerializer.Data)
  : M Response :=
  EventViewSet.update partial c q k (get_value media partial body).

End EventRequest.

(** ** serializers.py: EventDetailSerializer.get_user_rsvp_status *)

(** [queryset.first()] under [ordering = ['-created_at']]: rows are kept in
    the order of their creation, so the first of the ordering is the last
    row. *)
Definition first_newest {A} (rows : list A) : option A := hd_error (rev rows).

Definition get_user_rsvp_status (c : Caller) (obj : Event.t) : M (option string) :=
  match c with
  | AuthUser u =>
      rs <- Event_rsvps obj ;;
      match first_newest (filter (fun r => RSVP.user r =? u) rs) with
      | Some rsvp => ret (Some (RSVP.status rsvp))
      | None => ret None
      end
  | AnonymousUser => ret None
  end.

(** ** views.py: RSVPViewSet (list and retrieve) *)

Module RSVPViewSet.

Definition permission_classes : list Permission := [IsAuthenticated].

(** [get_queryset]: the RSVPs of the current user. *)
Definition get_queryset (c : Caller) : M (list RSVP.t) :=
  match c with
  | AnonymousUser => raise (Unhandled "TypeError")
  | AuthUser u =>
      queryset <- gets rsvps ;;
      ret (filter (fun r => RSVP.user r =? u) queryset)
  end.

Definition list_action (c : Caller) : M (Reply (list RSVP.t)) :=
  check_permissions permission_classes GET c ;;;
  qs <- get_queryset c ;;
  ret (mkReply HTTP_200_OK qs).

(** [get_object]: no class of [permission_classes] has an object-level
    check. *)
Definition get_object (c : Caller) (k : pk) : M RSVP.t :=
  qs <- get_queryset c ;;
  match filter (fun r => RSVP.id r =? k) qs with
  | [] => raise Http404
  | [obj] => ret obj
  | _ => raise (Unhandled "MultipleObjectsReturned")
  end.

Definition retrieve (c : Caller) (k : pk) : M Response :=
  check_permissions permission_classes GET c ;;;
  obj <- get_object c k ;;
  ret (mkResponse HTTP_200_OK (RSVPBody obj)).

End RSVPViewSet.

(** ** serializers.py: ReviewSerializer on an existing review *)

Module ReviewUpdate.

(** [validated_data] of an update: the writable fields that were sent. *)
Record Attrs : Type := mkAttrs {
  a_user_id : option Z;
  a_rating : option Z;
  a_comment : option string
}.

Definition is_valid (partial : bool) (data : ReviewSerializer.Data) : Exn + Attrs :=
  match run_field false partial (ReviewSerializer.user_id data),
        run_field true partial (ReviewSerializer.rating data),
        run_field false partial (ReviewSerializer.comment data) with
  | inr u, inr (Some r), inr c =>
      if ReviewSerializer.MinValueValidator 1 r
         && ReviewSerializer.MaxValueValidator 5 r then
        match ReviewSerializer.validate_rating r with
        | inl e => inl e
        | inr r' => inr (mkAttrs u (Some r') c)
        end
      else inl ValidationError
  | inr u, inr None, inr c => inr (mkAttrs u None c)
  | _, _, _ => inl ValidationError
  end.

(** The serializer does not override [update]: every validated attribute
    is set on the instance, [user_id] included, and the row is written
    back.  [users] are the primary keys of the user table, which the
    foreign key of [user] refers to; (event, user) stays unique. *)
Definition update (users : list User) (instance : Review.t) (attrs : Attrs)
  : M Review.t :=
  let obj := Review.mk (Review.id instance) (Review.event instance)
               (from_option (Review.user instance) (a_user_id attrs))
               (from_option (Review.rating instance) (a_rating attrs))
               (from_option (Review.comment instance) (a_comment attrs)) in
  st <- gets (fun st => st) ;;
  if negb (existsb (Z.eqb (Review.user obj)) users)
     || existsb (fun r => negb (Review.id r =? Review.id obj)
                          && (Review.event r =? Review.event obj)
                          && (Review.user r =? Review.user obj))
                (reviews st)
  then raise (Unhandled "IntegrityError")
  else
    modify (fun st =>
      mkStore (events st) (rsvps st)
              (map (fun r => if Review.id r =? Review.id obj then obj else r)
                   (reviews st))) ;;;
    ret obj.

End ReviewUpdate.

(** ** views.py: ReviewViewSet (retrieve, update, destroy) *)

Module ReviewDetail.

(** [get_object] over [ReviewViewSet.get_queryset]; [event_id] is the
    [event] query parameter. *)
Definition get_object (event_id : option pk) (k : pk) : M Review.t :=
  qs <- ReviewViewSet.get_queryset event_id ;;
  match filter (fun r => Review.id r =? k) qs with
  | [] => raise Http404
  | [obj] => ret obj
  | _ => raise (Unhandled "MultipleObjectsReturned")
  end.

Definition retrieve (c : Caller) (event_id : option pk) (k : pk) : M Response :=
  check_permissions ReviewViewSet.permission_classes GET c ;;;
  obj <- get_object event_id k ;;
  ret (mkResponse HTTP_200_OK (ReviewBody obj)).

(** [update] (PUT) and, through [partial_update], PATCH. *)
Definition update (users : list User) (partial : bool) (c : Caller)
    (event_id : option pk) (k : pk) (data : ReviewSerializer.Data) : M Response :=
  let m := if partial then PATCH else PUT in
  check_permissions ReviewViewSet.permission_classes m c ;;;
  review <- get_object event_id k ;;
  if negb (user_eq (Review.user review) c) then
    ret (mkResponse HTTP_403_FORBIDDEN (Detail "You can only edit your own reviews."))
  else
    instance <- get_object event_id k ;;
    bind_exn (ReviewUpdate.is_valid partial data) (fun attrs =>
    obj <- ReviewUpdate.update users instance attrs ;;
    ret (mkResponse HTTP_200_OK (ReviewBody obj))).

Definition perform_destroy (instance : Review.t) : M unit :=
  modify (fun st =>
    mkStore (events st) (rsvps st)
            (filter (fun r => negb (Review.id r =? Review.id instance))
                    (reviews st))).

Definition destroy (c : Caller) (event_id : option pk) (k : pk) : M Response :=
  check_permissions ReviewViewSet.permission_classes DELETE c ;;;
  review <- get_object event_id k ;;
  if negb (user_eq (Review.user review) c) then
    ret (mkResponse HTTP_403_FORBIDDEN (Detail "You can only delete your own reviews."))
  else
    instance <- get_object event_id k ;;
    perform_destroy instance ;;;
    ret (mkResponse HTTP_204_NO_CONTENT NoContent).

End ReviewDetail.

(** ** urls.py: every route over events, RSVPs and reviews *)

Inductive Route : Type :=
| CoreRoute (r : Request)
| ListRsvps
| RetrieveRsvp (k : pk)
| RetrieveReview (event_id : option pk) (k : pk)
| UpdateReview (partial : bool) (event_id : option pk) (k : pk)
               (data : ReviewSerializer.Data)
| DestroyReview (event_id : option pk) (k : pk).

(** The store a request leaves. *)
Definition route_store (users : list User) (c : Caller) (r : Route) (st : Store)
  : Store :=
  match r with
  | CoreRoute r => store_after (dispatch c r st)
  | ListRsvps => store_after (RSVPViewSet.list_action c st)
  | RetrieveRsvp k => store_after (RSVPViewSet.retrieve c k st)
  | RetrieveReview event_id k => store_after (ReviewDetail.retrieve c event_id k st)
  | UpdateReview partial event_id k data =>
      store_after (ReviewDetail.update users partial c event_id k data st)
  | DestroyReview event_id k => store_after (ReviewDetail.destroy c event_id k st)
  end.

Fixpoint serve_routes (users : list User) (reqs : list (Caller * Route))
    (st : Store) : Store :=
  match reqs with
  | [] => st
  | (c, r) :: rest => serve_routes users rest (route_store users c r st)
  end.

(** ** What a request can do to the store *)

Definition without_event (k : pk) (st : Store) : Store :=
  mkStore (filter (fun e => negb (Event.id e =? k)) (events st))
          (filter (fun r => negb (RSVP.event r =? k)) (rsvps st))
          (filter (fun r => negb (Review.event r =? k)) (reviews st)).

Definition write_event (e : Event.t) (st : Store) : Store :=
  mkStore (map (fun x => if Event.id x =? Event.id e then e else x) (events st))
          (rsvps st) (reviews st).

Definition write_review (r : Review.t) (st : Store) : Store :=
  mkStore (events st) (rsvps st)
          (map (fun x => if Review.id x =? Review.id r then r else x) (reviews st)).

Definition without_review (k : pk) (st : Store) : Store :=
  mkStore (events st) (rsvps st)
          (filter (fun r => negb (Review.id r =? k)) (reviews st)).

Definition reviews_of (k : pk) (u : User) (st : Store) : list Review.t :=
  filter (fun r => (Review.event r =? k) && (Review.user r =? u)) (reviews st).

(** The writes of one request of caller [c]: none, or one of the following,
    each by an authenticated caller. *)
Inductive Effect (users : list User) (c : Caller) (st : Store) : Store -> Prop :=
| NoWrite : Effect users c st st
| EventCreated (obj : Event.t) :
    c = AuthUser (Event.organizer obj) ->
    Event.id obj = next_pk (map Event.id (events st)) ->
    Event.start_time obj < Event.end_time obj ->
    Effect users c st (mkStore (events st ++ [obj]) (rsvps st) (reviews st))
| EventUpdated (old new : Event.t) :
    In old (events st) -> c = AuthUser (Event.organizer old) ->
    Event.id new = Event.id old ->
    Event.organizer new = Event.organizer old ->
    Event.start_time new < Event.end_time new ->
    Effect users c st (write_event new st)
| EventDestroyed (old : Event.t) :
    In old (events st) -> c = AuthUser (Event.organizer old) ->
    Effect users c st (without_event (Event.id old) st)
| RsvpCreated (E : Event.t) (row : RSVP.t) :
    In E (events st) -> in_scope c E = true ->
    c = AuthUser (RSVP.user row) -> RSVP.event row = Event.id E ->
    RSVP.id row = next_pk (map RSVP.id (rsvps st)) ->
    rsvps_of (Event.id E) (RSVP.user row) st = [] ->
    Effect users c st (mkStore (events st) (rsvps st ++ [row]) (reviews st))
| RsvpUpdated (old : RSVP.t) (s : string) :
    In old (rsvps st) -> c = AuthUser (RSVP.user old) ->
    s = RSVP.status old \/ In s RSVPSerializer.valid_statuses ->
    Effect users c st (write_rsvp (set_status old s) st)
| ReviewCreated (E : Event.t) (row : Review.t) :
    In E (events st) -> in_scope c E = true ->
    c = AuthUser (Review.user row) -> Review.event row = Event.id E ->
    Review.id row = next_pk (map Review.id (reviews st)) ->
    1 <= Review.rating row <= 5 ->
    reviews_of (Event.id E) (Review.user row) st = [] ->
    Effect users c st (mkStore (events st) (rsvps st) (reviews st ++ [row]))
| ReviewUpdated (old new : Review.t) :
    In old (reviews st) -> c = AuthUser (Review.user old) ->
    Review.id new = Review.id old -> Review.event new = Review.event old ->
    Review.rating new = Review.rating old \/ 1 <= Review.rating new <= 5 ->
    In (Review.user new) users ->
    (forall r, In r (reviews st) -> Review.id r <> Review.id old ->
               review_key r <> review_key new) ->
    Effect users c st (write_review new st)
| ReviewDestroyed (old : Review.t) :
    In old (reviews st) -> c = AuthUser (Review.user old) ->
    Effect users c st (without_review (Review.id old) st).

(** ** Invariants of the store *)

Definition times_ok (st : Store) : Prop :=
  forall e, In e (events st) -> Event.start_time e < Event.end_time e.

Definition ratings_ok (st : Store) : Prop :=
  forall r, In r (reviews st) -> 1 <= Review.rating r <= 5.

(** Every RSVP and review belongs to an event of the table. *)
Definition refs_ok (st : Store) : Prop :=
  (forall r, In r (rsvps st) -> In (RSVP.event r) (map Event.id (events st))) /\
  (forall r, In r (reviews st) -> In (Review.event r) (map Event.id (events st))).

(** * Users and their profiles *)

(** ** models.py: UserProfile, and the user model of django.contrib.auth *)

Module AccountUser.
Record t : Type := mk {
  id : pk;
  username : string;
  email : string
}.
End AccountUser.

Module UserProfile.
Record t : Type := mk {
  id : pk;
  user : User;
  full_name : string;
  bio : string;
  location : string;
  profile_picture : string
}.
End UserProfile.

Record Accounts : Type := mkAccounts {
  auth_users : list AccountUser.t;
  profiles : list UserProfile.t
}.

(** The monad of the code that works on users and profiles. *)
Definition MA (A : Type) : Type := Accounts -> (Exn + A) * Accounts.

Definition retA {A} (a : A) : MA A := fun acc => (inr a, acc).

Definition raiseA {A} (e : Exn) : MA A := fun acc => (inl e, acc).

Definition bindA {A B} (c : MA A) (k : A -> MA B) : MA B :=
  fun acc =>
    match c acc with
    | (inl e, acc') => (inl e, acc')
    | (inr a, acc') => k a acc'
    end.

Definition getsA {A} (f : Accounts -> A) : MA A := fun acc => (inr (f acc), acc).

Definition modifyA (f : Accounts -> Accounts) : MA unit :=
  fun acc => (inr tt, f acc).

Notation "x <~ c ;; k" := (bindA c (fun x => k))
  (at level 61, c at next level, right associativity).
Notation "c ~;; k" := (bindA c (fun _ => k))
  (at level 61, right associativity).

Definition permission_deniedA {A} (c : Caller) : MA A :=
  if is_authenticated c then raiseA PermissionDenied else raiseA NotAuthenticated.

Definition check_permissionsA (perms : list Permission) (m : Method) (c : Caller)
  : MA unit :=
  if forallb (fun p => has_permission p m c) perms then retA tt
  else permission_deniedA c.

(** [instance.save()] of a profile: the row of its primary key is
    overwritten. *)
Definition write_profile (p : UserProfile.t) (acc : Accounts) : Accounts :=
  mkAccounts (auth_users acc)
             (map (fun x => if UserProfile.id x =? UserProfile.id p then p else x)
                  (profiles acc)).

(** [UserProfile.objects.create(user=instance)]: the other fields are
    blank; the one-to-one field admits one profile per user. *)
Definition UserProfile_objects_create (user : User) : MA UserProfile.t :=
  acc <~ getsA (fun acc => acc) ;;
  if existsb (fun p => UserProfile.user p =? user) (profiles acc)
  then raiseA (Unhandled "IntegrityError")
  else
    let obj := UserProfile.mk (next_pk (map UserProfile.id (profiles acc))) user
                 EmptyString EmptyString EmptyString EmptyString in
    modifyA (fun acc => mkAccounts (auth_users acc) (profiles acc ++ [obj])) ~;;
    retA obj.

(** ** django.db.models: profile objects and [Model.save]

    A profile object in memory.  Its primary key is [None] until the
    object is saved; its fields are what the program last set, which may
    differ from the stored row. *)
Module ProfileObject.
Record t : Type := mk {
  id : option pk;
  user : User;
  full_name : string;
  bio : string;
  location : string;
  profile_picture : string
}.
End ProfileObject.

(** The object a row is loaded into. *)
Definition ProfileObject_of_row (p : UserProfile.t) : ProfileObject.t :=
  ProfileObject.mk (Some (UserProfile.id p)) (UserProfile.user p)
    (UserProfile.full_name p) (UserProfile.bio p) (UserProfile.location p)
    (UserProfile.profile_picture p).

(** [profile.save()]: the row of the primary key of the object is
    updated with the fields of the object; without such a row, and for an
    object without a primary key, a row is inserted.  The user must exist
    and have no other profile. *)
Definition UserProfile_save (obj : ProfileObject.t) : MA UserProfile.t :=
  acc <~ getsA (fun acc => acc) ;;
  let k := from_option (next_pk (map UserProfile.id (profiles acc)))
                       (ProfileObject.id obj) in
  let row := UserProfile.mk k (ProfileObject.user obj)
               (ProfileObject.full_name obj) (ProfileObject.bio obj)
               (ProfileObject.location obj) (ProfileObject.profile_picture obj) in
  if negb (existsb (fun u => AccountUser.id u =? ProfileObject.user obj)
                   (auth_users acc))
     || existsb (fun p => negb (UserProfile.id p =? k)
                          && (UserProfile.user p =? ProfileObject.user obj))
                (profiles acc)
  then raiseA (Unhandled "IntegrityError")
  else if existsb (fun p => UserProfile.id p =? k) (profiles acc)
  then modifyA (write_profile row) ~;; retA row
  else
    modifyA (fun acc => mkAccounts (auth_users acc) (profiles acc ++ [row])) ~;;
    retA row.

(** The [profile] attribute of a user object.  The reverse side of the
    one-to-one field keeps the related object on the user object once it
    was read or set: nothing yet, the outcome of a lookup that found no
    profile, or a profile object. *)
Inductive ProfileCache : Type :=
| NotFetched
| FetchedNone
| Attached (obj : ProfileObject.t).

(** [instance.profile] under [hasattr]: the object kept on the instance,
    else the profile of the user in the table; [None] stands for the
    [RelatedObjectDoesNotExist] that [hasattr] turns into [False]. *)
Definition getattr_profile (instance : AccountUser.t) (cache : ProfileCache)
  : MA (option ProfileObject.t) :=
  match cache with
  | Attached obj => retA (Some obj)
  | FetchedNone => retA None
  | NotFetched =>
      acc <~ getsA (fun acc => acc) ;;
      match filter (fun p => UserProfile.user p =? AccountUser.id instance)
                   (profiles acc) with
      | [] => retA None
      | [profile] => retA (Some (ProfileObject_of_row profile))
      | _ => raiseA (Unhandled "MultipleObjectsReturned")
      end
  end.

(** ** signals.py

    The receivers get the user object that was saved; [cache] is its
    [profile] attribute.  [UserProfile.objects.create(user=instance)] sets
    that attribute to the profile it creates. *)

Definition create_user_profile (instance : AccountUser.t) (cache : ProfileCache)
    (created : bool) : MA ProfileCache :=
  if created then
    profile <~ UserProfile_objects_create (AccountUser.id instance) ;;
    retA (Attached (ProfileObject_of_row profile))
  else retA cache.

Definition save_user_profile (instance : AccountUser.t) (cache : ProfileCache)
  : MA unit :=
  attr <~ getattr_profile instance cache ;;
  match attr with
  | Some profile => UserProfile_save profile ~;; retA tt
  | None => retA tt
  end.

(** [post_save] of the user model: the receivers in the order in which
    the module connects them. *)
Definition post_save (instance : AccountUser.t) (cache : ProfileCache)
    (created : bool) : MA unit :=
  cache' <~ create_user_profile instance cache created ;;
  save_user_profile instance cache'.

(** [User.save()]: a row with the primary key of the instance is updated,
    otherwise the instance is inserted; user names are unique.  The signal
    is sent after the row is written. *)
Definition User_save (instance : AccountUser.t) (cache : ProfileCache) : MA unit :=
  acc <~ getsA (fun acc => acc) ;;
  if existsb (fun u => negb (AccountUser.id u =? AccountUser.id instance)
                       && String.eqb (AccountUser.username u)
                                     (AccountUser.username instance))
             (auth_users acc)
  then raiseA (Unhandled "IntegrityError")
  else if existsb (fun u => AccountUser.id u =? AccountUser.id instance)
                  (auth_users acc)
  then
    modifyA (fun acc =>
      mkAccounts (map (fun u => if AccountUser.id u =? AccountUser.id instance
                                then instance else u) (auth_users acc))
                 (profiles acc)) ~;;
    post_save instance cache false
  else
    modifyA (fun acc => mkAccounts (auth_users acc ++ [instance]) (profiles acc)) ~;;
    post_save instance cache true.


(** ** serializers.py: UserProfileSerializer *)

Module UserProfileSerializer.

(** The writable fields; [username] and [email] are read-only. *)
Record Data : Type := mkData {
  full_name : Field string;
  bio : Field string;
  location : Field string;
  profile_picture : Field string
}.

Record Attrs : Type := mkAttrs {
  a_full_name : option string;
  a_bio : option string;
  a_location : option string;
  a_profile_picture : option string
}.

(** Every field of the model is [blank=True]: none is required. *)
Definition is_valid (partial : bool) (data : Data) : Exn + Attrs :=
  match run_field false partial (full_name data),
        run_field false partial (bio data),
        run_field false partial (location data),
        run_field false partial (profile_picture data) with
  | inr n, inr b, inr l, inr p => inr (mkAttrs n b l p)
  | _, _, _, _ => inl ValidationError
  end.

Definition update (instance : UserProfile.t) (attrs : Attrs) : MA UserProfile.t :=
  let obj := UserProfile.mk (UserProfile.id instance) (UserProfile.user instance)
               (from_option (UserProfile.full_name instance) (a_full_name attrs))
               (from_option (UserProfile.bio instance) (a_bio attrs))
               (from_option (UserProfile.location instance) (a_location attrs))
               (from_option (UserProfile.profile_picture instance)
                            (a_profile_picture attrs)) in
  modifyA (write_profile obj) ~;;
  retA obj.

(** [create]: the serializer has no field for the user, and a profile
    without one violates the NOT NULL constraint of the column. *)
Definition create (attrs : Attrs) : MA UserProfile.t :=
  raiseA (Unhandled "IntegrityError").

End UserProfileSerializer.

(** ** views.py: UserProfileViewSet *)

Module UserProfileViewSet.

Definition permission_classes : list Permission := [IsAuthenticatedOrReadOnly].

Definition get_queryset : MA (list UserProfile.t) := getsA profiles.

Definition get_object (k : pk) : MA UserProfile.t :=
  qs <~ get_queryset ;;
  match filter (fun p => UserProfile.id p =? k) qs with
  | [] => raiseA Http404
  | [obj] => retA obj
  | _ => raiseA (Unhandled "MultipleObjectsReturned")
  end.

Definition list_action (c : Caller) : MA (Reply (list UserProfile.t)) :=
  check_permissionsA permission_classes GET c ~;;
  qs <~ get_queryset ;;
  retA (mkReply HTTP_200_OK qs).

Definition retrieve (c : Caller) (k : pk) : MA (Reply UserProfile.t) :=
  check_permissionsA permission_classes GET c ~;;
  obj <~ get_object k ;;
  retA (mkReply HTTP_200_OK obj).

Definition create (c : Caller) (data : UserProfileSerializer.Data)
  : MA (Reply UserProfile.t) :=
  check_permissionsA permission_classes POST c ~;;
  match UserProfileSerializer.is_valid false data with
  | inl e => raiseA e
  | inr attrs =>
      obj <~ UserProfileSerializer.create attrs ;;
      retA (mkReply HTTP_201_CREATED obj)
  end.

(** [perform_update]: users can only update their own profile. *)
Definition perform_update (c : Caller) (instance : UserProfile.t)
    (attrs : UserProfileSerializer.Attrs) : MA UserProfile.t :=
  if negb (user_eq (UserProfile.user instance) c) then raiseA PermissionDenied
  else UserProfileSerializer.update instance attrs.

Definition update (partial : bool) (c : Caller) (k : pk)
    (data : UserProfileSerializer.Data) : MA (Reply UserProfile.t) :=
  let m := if partial then PATCH else PUT in
  check_permissionsA permission_classes m c ~;;
  instance <~ get_object k ;;
  match UserProfileSerializer.is_valid partial data with
  | inl e => raiseA e
  | inr attrs =>
      obj <~ perform_update c instance attrs ;;
      retA (mkReply HTTP_200_OK obj)
  end.

(** [destroy] is the one of the framework: the viewset adds no check. *)
Definition destroy (c : Caller) (k : pk) : MA (Reply unit) :=
  check_permissionsA permission_classes DELETE c ~;;
  instance <~ get_object k ;;
  modifyA (fun acc =>
    mkAccounts (auth_users acc)
               (filter (fun p => negb (UserProfile.id p =? UserProfile.id instance))
                       (profiles acc))) ~;;
  retA (mkReply HTTP_204_NO_CONTENT tt).

End UserProfileViewSet.

(** ** Invariants of users and profiles *)

(** Primary keys and user names are unique, a user has at most one
    profile, and every profile belongs to a user of the table. *)
Record accounts_ok (acc : Accounts) : Prop := {
  user_pk_unique : NoDup (map AccountUser.id (auth_users acc));
  username_unique : NoDup (map AccountUser.username (auth_users acc));
  profile_pk_unique : NoDup (map UserProfile.id (profiles acc));
  profile_user_unique : NoDup (map UserProfile.user (profiles acc));
  profile_user_exists :
    forall p, In p (profiles acc) ->
              In (UserProfile.user p) (map AccountUser.id (auth_users acc))
}.

(** The profiles of a user. *)
Definition profiles_of (u : User) (acc : Accounts) : list UserProfile.t :=
  filter (fun p => UserProfile.user p =? u) (profiles acc).

Definition every_user_has_profile (acc : Accounts) : Prop :=
  forall u, In u (auth_users acc) ->
            exists p, profiles_of (AccountUser.id u) acc = [p].

Definition sample_accounts : Accounts :=
  mkAccounts [AccountUser.mk 3 "ann" "ann@example.org";
              AccountUser.mk 7 "bob" "bob@example.org"]
             [UserProfile.mk 1 3 "Ann" "" "Paris" "";
              UserProfile.mk 2 7 "" "" "" ""].

(** What happens to users and profiles: a user object is saved, with
    whatever its [profile] attribute holds, or a request reaches the
    profile viewset. *)
Inductive AccountStep : Type :=
| SaveUser (instance : AccountUser.t) (cache : ProfileCache)
| ListProfiles (c : Caller)
| RetrieveProfile (c : Caller) (k : pk)
| CreateProfile (c : Caller) (data : UserProfileSerializer.Data)
| UpdateProfile (partial : bool) (c : Caller) (k : pk)
                (data : UserProfileSerializer.Data)
| DestroyProfile (c : Caller) (k : pk).

Definition account_step (s : AccountStep) (acc : Accounts) : Accounts :=
  match s with
  | SaveUser instance cache => snd (User_save instance cache acc)
  | ListProfiles c => snd (UserProfileViewSet.list_action c acc)
  | RetrieveProfile c k => snd (UserProfileViewSet.retrieve c k acc)
  | CreateProfile c data => snd (UserProfileViewSet.create c data acc)
  | UpdateProfile partial c k data =>
      snd (UserProfileViewSet.update partial c k data acc)
  | DestroyProfile c k => snd (UserProfileViewSet.destroy c k acc)
  end.

Fixpoint account_steps (steps : list AccountStep) (acc : Accounts) : Accounts :=
  match steps with
  | [] => acc
  | s :: rest => account_steps rest (account_step s acc)
  end.

(** Requests of the sample users: an RSVP, the update of a review by its
    author, the update and the deletion of events by their organizer, and
    the deletion of a review by its author. *)
Definition sample_requests : list (Caller * Route) :=
  [ (AuthUser 4, CoreRoute (Rsvp POST any_event 1
                              (RSVPSerializer.mkData (Some "Going"%string))));
    (AuthUser 3, UpdateReview true None 1
                   (ReviewSerializer.mkData Absent Absent (Given 2) Absent));
    (AuthUser 7, CoreRoute (UpdateEvent true any_event 2
                              (EventCreateUpdateSerializer.mkData
                                 Absent Absent Absent Absent (Given 5000)
                                 Absent Absent)));
    (AuthUser 7, CoreRoute (DestroyEvent any_event 1));
    (AuthUser 7, DestroyReview None 3) ].

(** * Properties *)

(** ** Shared lemmas *)

Lemma user_eq_true_iff (owner : User) (c : Caller) :
  user_eq owner c = true <-> c = AuthUser owner.
Proof.
  destruct c as [|u]; simpl.
  - split; discriminate.
  - rewrite Z.eqb_eq. split; intros H; [now subst | now inversion H].
Qed.

Lemma user_eq_false_iff (owner : User) (c : Caller) :
  user_eq owner c = false <-> c <> AuthUser owner.
Proof.
  rewrite <- user_eq_true_iff. destruct (user_eq owner c); split; intros; congruence.
Qed.

Lemma NoDup_map_eq {A B} (f : A -> B) (l : list A) (a b : A) :
  NoDup (map f l) -> In a l -> In b l -> f a = f b -> a = b.
Proof.
  induction l as [|x l IH]; simpl; intros Hnd Ha Hb Hf; [contradiction|].
  inversion Hnd as [|y ys Hnotin Hnd']; subst.
  destruct Ha as [Ha|Ha], Hb as [Hb|Hb]; subst; auto.
  - exfalso. apply Hnotin. rewrite Hf. now apply in_map.
  - exfalso. apply Hnotin. rewrite <- Hf. now apply in_map.
Qed.

Lemma filter_none {A} (f : A -> bool) (l : list A) :
  (forall x, In x l -> f x = false) -> filter f l = [].
Proof.
  induction l as [|y l IH]; simpl; intros H; [reflexivity|].
  rewrite (H y (or_introl eq_refl)). apply IH. intros x Hx. apply H. now right.
Qed.

(** The rows of [l] with key [k], when keys are unique and [x] is one. *)
Lemma filter_unique_key {A} (key : A -> Z) (l : list A) (x : A) :
  NoDup (map key l) -> In x l ->
  filter (fun y => key y =? key x) l = [x].
Proof.
  induction l as [|y l IH]; simpl; intros Hnd Hin; [contradiction|].
  inversion Hnd as [|k ks Hnotin Hnd']; subst.
  destruct Hin as [->|Hin].
  - rewrite Z.eqb_refl. f_equal.
    apply filter_none. intros z Hz. apply Z.eqb_neq. intros Heq. apply Hnotin.
    rewrite <- Heq. now apply in_map.
  - destruct (Z.eqb_spec (key y) (key x)) as [Heq|Hneq].
    + exfalso. apply Hnotin. rewrite Heq. now apply in_map.
    + now apply IH.
Qed.

Lemma filter_absent_key {A} (key : A -> Z) (l : list A) (k : Z) :
  ~ In k (map key l) -> filter (fun y => key y =? k) l = [].
Proof.
  intros Hnot. apply filter_none. intros z Hz. apply Z.eqb_neq.
  intros Heq. apply Hnot. rewrite <- Heq. now apply in_map.
Qed.

Lemma filter_filter_comm {A} (f g : A -> bool) (l : list A) :
  filter f (filter g l) = filter g (filter f l).
Proof.
  induction l as [|x l IH]; simpl; [reflexivity|].
  destruct (g x) eqn:Hg, (f x) eqn:Hf; simpl; rewrite ?Hg, ?Hf, IH; reflexivity.
Qed.

Lemma get_queryset_eq (c : Caller) (st : Store) :
  EventViewSet.get_queryset c st = (inr (filter (in_scope c) (events st)), st).
Proof.
  unfold EventViewSet.get_queryset, bind, gets, ret, in_scope.
  destruct c as [|u]; simpl; [|reflexivity].
  f_equal. f_equal. apply filter_ext. intros e. now rewrite orb_false_r.
Qed.

Lemma in_scope_iff (c : Caller) (e : Event.t) :
  in_scope c e = true <->
  Event.is_public e = true \/ c = AuthUser (Event.organizer e).
Proof.
  unfold in_scope. now rewrite orb_true_iff, user_eq_true_iff.
Qed.

(** [get_object] finds a row of the table that is in scope and selected. *)
Lemma get_object_found (perms : list Permission) (m : Method) (c : Caller)
    (q : Event.t -> bool) (E : Event.t) (st : Store) :
  NoDup (map Event.id (events st)) -> In E (events st) ->
  in_scope c E = true -> q E = true ->
  EventViewSet.get_object perms m c q (Event.id E) st =
  bind (check_object_permissions perms m c E) (fun _ => ret E) st.
Proof.
  intros Hnd Hin Hsc Hq.
  unfold EventViewSet.get_object. unfold bind at 1. rewrite get_queryset_eq.
  unfold bind at 1. unfold EventViewSet.get_object_or_404, EventViewSet.filter_queryset.
  rewrite (filter_filter_comm _ q), (filter_filter_comm _ (in_scope c)).
  rewrite (filter_unique_key Event.id _ E Hnd Hin). simpl.
  rewrite Hsc. simpl. rewrite Hq. reflexivity.
Qed.

(** [get_object] raises [Http404] for a row out of scope. *)
Lemma get_object_hidden (perms : list Permission) (m : Method) (c : Caller)
    (q : Event.t -> bool) (E : Event.t) (st : Store) :
  NoDup (map Event.id (events st)) -> In E (events st) ->
  in_scope c E = false ->
  EventViewSet.get_object perms m c q (Event.id E) st = (inl Http404, st).
Proof.
  intros Hnd Hin Hsc.
  unfold EventViewSet.get_object. unfold bind at 1. rewrite get_queryset_eq.
  unfold bind at 1. unfold EventViewSet.get_object_or_404, EventViewSet.filter_queryset.
  rewrite (filter_filter_comm _ q), (filter_filter_comm _ (in_scope c)).
  rewrite (filter_unique_key Event.id _ E Hnd Hin). simpl.
  rewrite Hsc. reflexivity.
Qed.

(** ** Visibility of events *)

(** C1: the queryset of a caller holds exactly the public events and, for
    an authenticated caller, the events they organize; a private event of
    another organizer is in neither the queryset nor the listing, and
    retrieving it by id raises [Http404]. *)
Theorem C1_private_events_hidden (st : Store) (c : Caller) (q : Event.t -> bool) :
  (exists qs,
      EventViewSet.get_queryset c st = (inr qs, st) /\
      forall e, In e qs <->
                In e (events st) /\
                (Event.is_public e = true \/ c = AuthUser (Event.organizer e))) /\
  forall E,
    In E (events st) -> Event.is_public E = false ->
    c <> AuthUser (Event.organizer E) ->
    (forall qs, outcome (EventViewSet.get_queryset c st) = inr qs -> ~ In E qs) /\
    (exists l,
        EventViewSet.list_action c q st = (inr (mkResponse HTTP_200_OK (EventList l)), st) /\
        ~ In E l) /\
    (store_ok st ->
     EventViewSet.retrieve c q (Event.id E) st = (inl Http404, st)).
Proof.
  split.
  - exists (filter (in_scope c) (events st)). split; [apply get_queryset_eq|].
    intros e. now rewrite filter_In, in_scope_iff.
  - intros E Hin Hpriv Hnot.
    assert (Hsc : in_scope c E = false).
    { unfold in_scope. rewrite Hpriv. simpl. now apply user_eq_false_iff. }
    split; [|split].
    + intros qs. rewrite get_queryset_eq. unfold outcome. simpl.
      intros [= <-]. rewrite filter_In. intros [_ H]. congruence.
    + exists (filter q (filter (in_scope c) (events st))). split.
      * unfold EventViewSet.list_action, check_permissions. simpl.
        unfold bind at 1. unfold ret at 1. unfold bind at 1.
        rewrite get_queryset_eq. reflexivity.
      * rewrite !filter_In. intros [[_ H] _]. congruence.
    + intros Hok. unfold EventViewSet.retrieve, check_permissions. simpl.
      unfold bind at 1. unfold ret at 1. unfold bind at 1.
      now rewrite (get_object_hidden _ _ _ _ _ _ (event_pk_unique st Hok) Hin Hsc).
Qed.

(** ** Running the monad *)

Lemma bind_run {A B} (c : M A) (k : A -> M B) (st st' : Store) (r : Exn + A) :
  c st = (r, st') ->
  bind c k st = match r with
                | inl e => (inl e, st')
                | inr a => k a st'
                end.
Proof. intros H. unfold bind. now rewrite H. Qed.

Lemma bind_raise {A B} (c : M A) (k : A -> M B) (st st' : Store) (e : Exn) :
  c st = (inl e, st') -> bind c k st = (inl e, st').
Proof. intros H. now rewrite (bind_run _ _ _ _ _ H). Qed.

Lemma bind_value {A B} (c : M A) (k : A -> M B) (st st' : Store) (a : A) :
  c st = (inr a, st') -> bind c k st = k a st'.
Proof. intros H. now rewrite (bind_run _ _ _ _ _ H). Qed.

Ltac run_monad :=
  unfold check_permissions, check_object_permissions, permission_denied,
    bind_exn, bind, ret, raise, gets, modify; simpl.

(** ** Denied writes *)

(** C5: an anonymous caller of the rsvp action gets [NotAuthenticated],
    which is status 401 under an authentication scheme with a
    [WWW-Authenticate] header; an authenticated caller who deletes an
    event they can see but do not organize gets [PermissionDenied],
    status 403, and the store, the event with it, is as before. *)
Theorem C5_denied_writes (st : Store) :
  (forall m q k data,
      EventViewSet.rsvp m AnonymousUser q k data st = (inl NotAuthenticated, st) /\
      http_status true (inl NotAuthenticated) = HTTP_401_UNAUTHORIZED) /\
  (forall u q E auth_header,
      store_ok st -> In E (events st) ->
      Event.organizer E <> u -> Event.is_public E = true -> q E = true ->
      EventViewSet.destroy (AuthUser u) q (Event.id E) st = (inl PermissionDenied, st) /\
      http_status auth_header (inl PermissionDenied) = HTTP_403_FORBIDDEN /\
      http_status auth_header (inl PermissionDenied) <>
        http_status true (inl NotAuthenticated) /\
      In E (events (store_after (EventViewSet.destroy (AuthUser u) q (Event.id E) st)))).
Proof.
  split.
  - intros m q k data. split; reflexivity.
  - intros u q E auth_header Hok Hin Horg Hpub Hq.
    assert (Hsc : in_scope (AuthUser u) E = true).
    { unfold in_scope. now rewrite Hpub. }
    assert (Hneq : (Event.organizer E =? u) = false) by now apply Z.eqb_neq.
    assert (Hrun : EventViewSet.destroy (AuthUser u) q (Event.id E) st
                   = (inl PermissionDenied, st)).
    { unfold EventViewSet.destroy.
      rewrite (bind_value _ _ st st tt) by reflexivity.
      apply bind_raise.
      rewrite (get_object_found _ _ _ _ _ _ (event_pk_unique st Hok) Hin Hsc Hq).
      run_monad. now rewrite Hneq. }
    rewrite Hrun. repeat split; try assumption. discriminate.
Qed.

(** ** Event writes *)

Lemma get_object_inv (perms : list Permission) (m : Method) (c : Caller)
    (q : Event.t -> bool) (k : pk) (st st' : Store) (r : Exn + Event.t) :
  EventViewSet.get_object perms m c q k st = (r, st') ->
  st' = st /\
  forall obj, r = inr obj ->
    In obj (events st) /\ Event.id obj = k /\ in_scope c obj = true /\
    q obj = true /\
    forallb (fun p => has_object_permission p m c obj) perms = true.
Proof.
  unfold EventViewSet.get_object. unfold bind at 1. rewrite get_queryset_eq.
  unfold bind at 1.
  unfold EventViewSet.get_object_or_404, EventViewSet.filter_queryset.
  destruct (filter (fun e => Event.id e =? k) (filter q (filter (in_scope c) (events st))))
    as [|obj [|obj' rest]] eqn:Hf.
  - run_monad. intros [= <- <-]. split; [reflexivity|discriminate].
  - assert (Hobj : In obj (filter (fun e => Event.id e =? k)
                             (filter q (filter (in_scope c) (events st))))).
    { rewrite Hf. now left. }
    rewrite !filter_In in Hobj. destruct Hobj as [[[Hin Hsc] Hq] Hk].
    apply Z.eqb_eq in Hk.
    run_monad.
    destruct (forallb (fun p => has_object_permission p m c obj) perms) eqn:Hp.
    + intros [= <- <-]. split; [reflexivity|]. intros o [= <-]. tauto.
    + destruct (is_authenticated c); intros [= <- <-];
        (split; [reflexivity|discriminate]).
  - run_monad. intros [= <- <-]. split; [reflexivity|discriminate].
Qed.

Lemma run_field_inr {A} (required partial : bool) (f : Field A) (o : option A) :
  run_field required partial f = inr o ->
  o = match f with
      | Given a => Some a
      | _ => None
      end.
Proof.
  destruct f; simpl; try discriminate.
  - destruct (required && negb partial); [discriminate|]. now intros [= <-].
  - now intros [= <-].
Qed.

Lemma to_internal_value_times (partial : bool)
    (data : EventCreateUpdateSerializer.Data)
    (attrs : EventCreateUpdateSerializer.Attrs) :
  EventCreateUpdateSerializer.to_internal_value partial data = inr attrs ->
  EventCreateUpdateSerializer.a_start_time attrs =
    match EventCreateUpdateSerializer.start_time data with
    | Given s => Some s
    | _ => None
    end /\
  EventCreateUpdateSerializer.a_end_time attrs =
    match EventCreateUpdateSerializer.end_time data with
    | Given e => Some e
    | _ => None
    end.
Proof.
  unfold EventCreateUpdateSerializer.to_internal_value.
  destruct (run_field true partial (EventCreateUpdateSerializer.title data));
    [discriminate|].
  destruct (run_field true partial (EventCreateUpdateSerializer.description data));
    [discriminate|].
  destruct (run_field true partial (EventCreateUpdateSerializer.location data));
    [discriminate|].
  destruct (run_field true partial (EventCreateUpdateSerializer.start_time data))
    as [|s] eqn:Hs; [discriminate|].
  destruct (run_field true partial (EventCreateUpdateSerializer.end_time data))
    as [|e] eqn:He; [discriminate|].
  destruct (run_field false partial (EventCreateUpdateSerializer.is_public data));
    [discriminate|].
  intros [= <-]. simpl.
  split; [exact (run_field_inr _ _ _ _ Hs) | exact (run_field_inr _ _ _ _ He)].
Qed.

Lemma to_internal_value_error (partial : bool)
    (data : EventCreateUpdateSerializer.Data) (e : Exn) :
  EventCreateUpdateSerializer.to_internal_value partial data = inl e ->
  e = ValidationError.
Proof.
  unfold EventCreateUpdateSerializer.to_internal_value.
  repeat match goal with
         | |- context [match run_field ?r ?p ?f with _ => _ end] =>
             destruct (run_field r p f) as [[]|]; try discriminate
         end; now intros [= <-].
Qed.

(** The serializer refuses a payload whose merged times are out of order. *)
Lemma is_valid_update_rejects (partial : bool) (E : Event.t)
    (data : EventCreateUpdateSerializer.Data) :
  effective_end E data <= effective_start E data ->
  EventCreateUpdateSerializer.is_valid (Some E) partial data = inl ValidationError.
Proof.
  intros Hle. unfold EventCreateUpdateSerializer.is_valid.
  destruct (EventCreateUpdateSerializer.to_internal_value partial data)
    as [e|attrs] eqn:Hv.
  - now rewrite (to_internal_value_error _ _ _ Hv).
  - destruct (to_internal_value_times _ _ _ Hv) as [Hs He].
    unfold EventCreateUpdateSerializer.validate. rewrite Hs, He.
    unfold effective_start, effective_end in Hle.
    destruct (EventCreateUpdateSerializer.start_time data),
             (EventCreateUpdateSerializer.end_time data); simpl;
      match goal with
      | |- context [?a <=? ?b] =>
          destruct (Z.leb_spec0 a b) as [_|Hn]; [reflexivity|contradiction]
      end.
Qed.

Lemma is_valid_create_rejects (data : EventCreateUpdateSerializer.Data) (s e : Z) :
  EventCreateUpdateSerializer.start_time data = Given s ->
  EventCreateUpdateSerializer.end_time data = Given e ->
  e <= s ->
  EventCreateUpdateSerializer.is_valid None false data = inl ValidationError.
Proof.
  intros Hs He Hle. unfold EventCreateUpdateSerializer.is_valid.
  destruct (EventCreateUpdateSerializer.to_internal_value false data)
    as [x|attrs] eqn:Hv.
  - now rewrite (to_internal_value_error _ _ _ Hv).
  - destruct (to_internal_value_times _ _ _ Hv) as [Hs' He'].
    unfold EventCreateUpdateSerializer.validate. rewrite Hs', He', Hs, He. simpl.
    destruct (Z.leb_spec0 e s) as [_|Hn]; [reflexivity|contradiction].
Qed.

(** What [EventViewSet.update] does once the instance is found and the
    caller is its organizer. *)
Lemma update_by_organizer (partial : bool) (q : Event.t -> bool) (E : Event.t)
    (data : EventCreateUpdateSerializer.Data) (st : Store) :
  store_ok st -> In E (events st) -> q E = true ->
  EventViewSet.update partial (AuthUser (Event.organizer E)) q (Event.id E) data st =
  bind_exn (EventCreateUpdateSerializer.is_valid (Some E) partial data)
    (fun attrs =>
       obj <- EventCreateUpdateSerializer.update E attrs ;;
       ret (mkResponse HTTP_200_OK (EventDetail obj))) st.
Proof.
  intros Hok Hin Hq.
  assert (Hsc : in_scope (AuthUser (Event.organizer E)) E = true).
  { unfold in_scope. simpl. rewrite Z.eqb_refl. apply orb_true_r. }
  unfold EventViewSet.update.
  rewrite (bind_value _ _ st st tt) by (now destruct partial).
  rewrite (bind_value _ _ st st E); [reflexivity|].
  rewrite (get_object_found _ _ _ _ _ _ (event_pk_unique st Hok) Hin Hsc Hq).
  destruct partial; run_monad; now rewrite Z.eqb_refl.
Qed.

(** A request that the serializer refuses writes nothing, whoever sends it. *)
Lemma update_refused_no_write (partial : bool) (c : Caller) (q : Event.t -> bool)
    (E : Event.t) (data : EventCreateUpdateSerializer.Data) (st : Store) :
  store_ok st -> In E (events st) ->
  EventCreateUpdateSerializer.is_valid (Some E) partial data = inl ValidationError ->
  store_after (EventViewSet.update partial c q (Event.id E) data st) = st.
Proof.
  intros Hok Hin Hbad. unfold EventViewSet.update, store_after.
  set (m := if partial then PATCH else PUT).
  unfold bind at 1.
  destruct (check_permissions EventViewSet.permission_classes m c st)
    as [[e|[]] st1] eqn:Hperm.
  - revert Hperm. run_monad.
    destruct (is_safe m || is_authenticated c); simpl;
      [discriminate | destruct (is_authenticated c); now intros [= <- <-]].
  - assert (st1 = st) as ->.
    { revert Hperm. run_monad.
      destruct (is_safe m || is_authenticated c); simpl;
        [now intros [= <-] | destruct (is_authenticated c); discriminate]. }
    unfold bind at 1.
    destruct (EventViewSet.get_object EventViewSet.permission_classes m c q
                (Event.id E) st) as [[e|obj] st2] eqn:Hget;
      destruct (get_object_inv _ _ _ _ _ _ _ _ Hget) as [-> Hobj];
      [reflexivity|].
    destruct (Hobj obj eq_refl) as (Hin' & Hid & _).
    assert (obj = E) as ->
      by exact (NoDup_map_eq _ _ _ _ (event_pk_unique st Hok) Hin' Hin Hid).
    rewrite Hbad. reflexivity.
Qed.

(** C4: creating or updating an event whose effective end is not after
    its effective start raises [ValidationError] and writes nothing; on an
    update a time that is not sent is the stored one. *)
Theorem C4_end_after_start (st : Store) :
  (forall u data s e,
      EventCreateUpdateSerializer.start_time data = Given s ->
      EventCreateUpdateSerializer.end_time data = Given e ->
      e <= s ->
      EventViewSet.create (AuthUser u) data st = (inl ValidationError, st)) /\
  (forall partial q E data,
      store_ok st -> In E (events st) -> q E = true ->
      effective_end E data <= effective_start E data ->
      EventViewSet.update partial (AuthUser (Event.organizer E)) q (Event.id E) data st
        = (inl ValidationError, st) /\
      forall c,
        store_after (EventViewSet.update partial c q (Event.id E) data st) = st).
Proof.
  split.
  - intros u data s e Hs He Hle. unfold EventViewSet.create.
    rewrite (bind_value _ _ st st tt) by reflexivity.
    now rewrite (is_valid_create_rejects data s e Hs He Hle).
  - intros partial q E data Hok Hin Hq Hle.
    pose proof (is_valid_update_rejects partial E data Hle) as Hbad.
    split.
    + rewrite (update_by_organizer _ _ _ _ _ Hok Hin Hq), Hbad. reflexivity.
    + intros c. now apply update_refused_no_write.
Qed.

Lemma is_valid_ignores_organizer (instance : option Event.t) (partial : bool)
    (data : EventCreateUpdateSerializer.Data) (v : Field User) :
  EventCreateUpdateSerializer.is_valid instance partial (with_organizer data v) =
  EventCreateUpdateSerializer.is_valid instance partial data.
Proof. reflexivity. Qed.

(** An update changes neither the identity nor the owner of any row. *)
Lemma update_keeps_owners (partial : bool) (c : Caller) (q : Event.t -> bool)
    (k : pk) (data : EventCreateUpdateSerializer.Data) (st : Store) :
  store_ok st ->
  owners (store_after (EventViewSet.update partial c q k data st)) = owners st.
Proof.
  intros Hok. unfold EventViewSet.update, store_after.
  set (m := if partial then PATCH else PUT).
  unfold bind at 1.
  destruct (check_permissions EventViewSet.permission_classes m c st)
    as [[e|[]] st1] eqn:Hperm.
  - revert Hperm. run_monad.
    destruct (is_safe m || is_authenticated c); simpl;
      [discriminate | destruct (is_authenticated c); now intros [= <- <-]].
  - assert (st1 = st) as ->.
    { revert Hperm. run_monad.
      destruct (is_safe m || is_authenticated c); simpl;
        [now intros [= <-] | destruct (is_authenticated c); discriminate]. }
    unfold bind at 1.
    destruct (EventViewSet.get_object EventViewSet.permission_classes m c q k st)
      as [[e|obj] st2] eqn:Hget;
      destruct (get_object_inv _ _ _ _ _ _ _ _ Hget) as [-> Hobj];
      [reflexivity|].
    destruct (Hobj obj eq_refl) as (Hin & Hid & _).
    destruct (EventCreateUpdateSerializer.is_valid (Some obj) partial data)
      as [e|attrs]; [reflexivity|].
    run_monad. unfold owners. simpl. rewrite map_map.
    apply map_ext_in. intros x Hx.
    destruct (Z.eqb_spec (Event.id x) (Event.id obj)) as [Heq|Hneq]; [|reflexivity].
    simpl.
    now rewrite (NoDup_map_eq _ _ _ _ (event_pk_unique st Hok) Hx Hin Heq).
Qed.

(** C6: a created event is organized by the caller, whatever [organizer]
    the payload carries, and no update changes the organizer of a row. *)
Theorem C6_organizer_set_by_server (st : Store) :
  (forall u data attrs,
      EventCreateUpdateSerializer.is_valid None false data = inr attrs ->
      exists obj,
        EventViewSet.create (AuthUser u) data st =
          (inr (mkResponse HTTP_201_CREATED (EventDetail obj)),
           mkStore (events st ++ [obj]) (rsvps st) (reviews st)) /\
        Event.organizer obj = u /\
        forall v, EventViewSet.create (AuthUser u) (with_organizer data v) st =
                  EventViewSet.create (AuthUser u) data st) /\
  (forall partial c q k data v,
      store_ok st ->
      owners (store_after (EventViewSet.update partial c q k data st)) = owners st /\
      EventViewSet.update partial c q k (with_organizer data v) st =
      EventViewSet.update partial c q k data st).
Proof.
  split.
  - intros u data attrs Hv. eexists. split; [|split].
    + unfold EventViewSet.create.
      rewrite (bind_value _ _ st st tt) by reflexivity.
      rewrite Hv. run_monad. reflexivity.
    + reflexivity.
    + reflexivity.
  - intros partial c q k data v Hok. split.
    + now apply update_keeps_owners.
    + reflexivity.
Qed.

(** ** Reviews *)

Lemma exists_filter_true {A} (p : A -> bool) (l : list A) (x : A) :
  In x l -> p x = true -> exists_ (filter p l) = true.
Proof.
  intros Hin Hp.
  assert (H : In x (filter p l)) by (apply filter_In; now split).
  destruct (filter p l); [contradiction|reflexivity].
Qed.

Lemma check_permissions_inv (perms : list Permission) (m : Method) (c : Caller)
    (st st' : Store) (r : Exn + unit) :
  check_permissions perms m c st = (r, st') -> st' = st.
Proof.
  unfold check_permissions, permission_denied.
  destruct (forallb _ perms); [|destruct (is_authenticated c)];
    unfold ret, raise; now intros [= _ <-].
Qed.

Lemma rating_out_of_range_invalid (data : ReviewSerializer.Data) (r : Z) :
  ReviewSerializer.rating data = Given r -> r < 1 \/ 5 < r ->
  ReviewSerializer.is_valid data = inl ValidationError.
Proof.
  intros Hr Hout. unfold ReviewSerializer.is_valid. rewrite Hr. simpl.
  destruct (run_field false false (ReviewSerializer.user_id data));
    [reflexivity|].
  destruct (run_field false false (ReviewSerializer.comment data));
    [reflexivity|].
  unfold ReviewSerializer.MinValueValidator, ReviewSerializer.MaxValueValidator,
    ReviewSerializer.validate_rating.
  destruct (Z.leb_spec 1 r), (Z.leb_spec r 5); simpl; try reflexivity; lia.
Qed.

(** C9: a review payload whose rating is outside 1..5 is refused with
    [ValidationError] by both review-creating views, and no view writes
    anything for it. *)
Theorem C9_rating_validated_before_write (st : Store)
    (data : ReviewSerializer.Data) (r : Z) :
  ReviewSerializer.rating data = Given r -> r < 1 \/ 5 < r ->
  (forall u, ReviewViewSet.create (AuthUser u) data st = (inl ValidationError, st)) /\
  (forall u q E,
      store_ok st -> In E (events st) ->
      in_scope (AuthUser u) E = true -> q E = true ->
      (forall rv, In rv (reviews st) ->
                  Review.event rv = Event.id E -> Review.user rv <> u) ->
      EventViewSet.reviews_post (AuthUser u) q (Event.id E) data st
        = (inl ValidationError, st)) /\
  (forall c, store_after (ReviewViewSet.create c data st) = st) /\
  (forall c q k, store_after (EventViewSet.reviews_post c q k data st) = st).
Proof.
  intros Hr Hout.
  pose proof (rating_out_of_range_invalid data r Hr Hout) as Hbad.
  split; [|split; [|split]].
  - intros u. unfold ReviewViewSet.create.
    rewrite (bind_value _ _ st st tt) by reflexivity.
    now rewrite Hbad.
  - intros u q E Hok Hin Hsc Hq Hnone. unfold EventViewSet.reviews_post.
    rewrite (bind_value _ _ st st tt) by reflexivity.
    rewrite (bind_value _ _ st st E).
    2:{ now rewrite (get_object_found _ _ _ _ _ _ (event_pk_unique st Hok) Hin Hsc Hq). }
    rewrite (bind_value _ _ st st false).
    + now rewrite Hbad.
    + unfold gets. f_equal. f_equal. rewrite filter_none; [reflexivity|].
      intros rv Hrv. apply andb_false_iff.
      destruct (Z.eqb_spec (Review.event rv) (Event.id E)) as [Heq|]; [right|now left].
      simpl. apply Z.eqb_neq. now apply Hnone.
  - intros c. unfold ReviewViewSet.create, store_after. unfold bind at 1.
    destruct (check_permissions ReviewViewSet.permission_classes POST c st)
      as [[e|[]] st1] eqn:Hperm;
      rewrite (check_permissions_inv _ _ _ _ _ _ Hperm); [reflexivity|].
    now rewrite Hbad.
  - intros c q k. unfold EventViewSet.reviews_post, store_after. unfold bind at 1.
    destruct (check_permissions [IsAuthenticatedOrReadOnly] POST c st)
      as [[e|[]] st1] eqn:Hperm;
      rewrite (check_permissions_inv _ _ _ _ _ _ Hperm); [reflexivity|].
    unfold bind at 1.
    destruct (EventViewSet.get_object [IsAuthenticatedOrReadOnly] POST c q k st)
      as [[e|obj] st2] eqn:Hget;
      destruct (get_object_inv _ _ _ _ _ _ _ _ Hget) as [-> _]; [reflexivity|].
    unfold bind at 1. unfold gets at 1.
    destruct (exists_ _); [reflexivity|].
    now rewrite Hbad.
Qed.

(** C10: the listing of ReviewViewSet is the same for every caller, the
    whole review table or its rows for the event asked for; a review of an
    event that is outside the caller's scope is listed all the same. *)
Theorem C10_review_listing_ignores_caller (st : Store) :
  (forall c1 c2 event_id,
      ReviewViewSet.list_action c1 event_id st =
      ReviewViewSet.list_action c2 event_id st) /\
  (forall c,
      ReviewViewSet.list_action c None st =
      (inr (mkResponse HTTP_200_OK (ReviewList (reviews st))), st)) /\
  (forall c E r,
      store_ok st -> In E (events st) -> in_scope c E = false ->
      In r (reviews st) -> Review.event r = Event.id E ->
      EventViewSet.retrieve c any_event (Event.id E) st = (inl Http404, st) /\
      exists l,
        ReviewViewSet.list_action c (Some (Event.id E)) st =
          (inr (mkResponse HTTP_200_OK (ReviewList l)), st) /\
        In r l).
Proof.
  split; [|split].
  - intros c1 c2 event_id. reflexivity.
  - intros c. reflexivity.
  - intros c E r Hok Hin Hsc Hr Hev. split.
    + unfold EventViewSet.retrieve.
      rewrite (bind_value _ _ st st tt) by reflexivity.
      apply bind_raise.
      exact (get_object_hidden _ _ _ _ _ _ (event_pk_unique st Hok) Hin Hsc).
    + eexists. split; [reflexivity|].
      apply filter_In. split; [assumption|]. now apply Z.eqb_eq.
Qed.

Lemma already_reviewed (st : Store) (E : Event.t) (u : User) (r0 : Review.t) :
  In r0 (reviews st) -> Review.event r0 = Event.id E -> Review.user r0 = u ->
  exists_ (filter (fun r => (Review.event r =? Event.id E)
                            && user_eq (Review.user r) (AuthUser u))
                  (reviews st)) = true.
Proof.
  intros Hin Hev Hu. apply (exists_filter_true _ _ r0 Hin).
  simpl. rewrite Hev, Hu, !Z.eqb_refl. reflexivity.
Qed.

Lemma review_is_valid_error (data : ReviewSerializer.Data) (e : Exn) :
  ReviewSerializer.is_valid data = inl e -> e = ValidationError.
Proof.
  unfold ReviewSerializer.is_valid, ReviewSerializer.validate_rating.
  destruct (run_field false false (ReviewSerializer.user_id data));
    [now intros [= <-]|].
  destruct (run_field true false (ReviewSerializer.rating data)) as [|[r|]];
    [now intros [= <-]| |now intros [= <-]].
  destruct (run_field false false (ReviewSerializer.comment data));
    [now intros [= <-]|].
  destruct (ReviewSerializer.MinValueValidator 1 r && ReviewSerializer.MaxValueValidator 5 r);
    [|now intros [= <-]].
  destruct (negb ((1 <=? r) && (r <=? 5))); [now intros [= <-]|discriminate].
Qed.

(** C2, as the views have it: a second review by the same user for the
    same event is refused with status 400, the status of a validation
    failure (ReviewViewSet raises [ValidationError] itself), and the store,
    the first review with it, is as before. *)
Theorem C2_duplicate_review_bad_request (st : Store) (u : User) (E : Event.t)
    (r0 : Review.t) (data : ReviewSerializer.Data) (auth_header : bool) :
  store_ok st -> In E (events st) ->
  In r0 (reviews st) -> Review.event r0 = Event.id E -> Review.user r0 = u ->
  (forall q,
      in_scope (AuthUser u) E = true -> q E = true ->
      EventViewSet.reviews_post (AuthUser u) q (Event.id E) data st =
        (inr (mkResponse HTTP_400_BAD_REQUEST
                (Detail "You have already reviewed this event.")), st)) /\
  (ReviewSerializer.event data = Given (Event.id E) ->
   ReviewViewSet.create (AuthUser u) data st = (inl ValidationError, st)) /\
  http_status auth_header (inl ValidationError) = HTTP_400_BAD_REQUEST /\
  In r0 (reviews st).
Proof.
  intros Hok Hin Hr0 Hev Hu.
  pose proof (already_reviewed st E u r0 Hr0 Hev Hu) as Hdup.
  split; [|split; [|split]]; [| |reflexivity|assumption].
  - intros q Hsc Hq. unfold EventViewSet.reviews_post.
    rewrite (bind_value _ _ st st tt) by reflexivity.
    rewrite (bind_value _ _ st st E).
    2:{ now rewrite (get_object_found _ _ _ _ _ _ (event_pk_unique st Hok) Hin Hsc Hq). }
    rewrite (bind_value _ _ st st true); [reflexivity|].
    unfold gets. now rewrite Hdup.
  - intros Hdata. unfold ReviewViewSet.create.
    rewrite (bind_value _ _ st st tt) by reflexivity.
    destruct (ReviewSerializer.is_valid data) as [e|attrs] eqn:Hv.
    + now rewrite (review_is_valid_error _ _ Hv).
    + unfold bind_exn. apply bind_raise.
      unfold ReviewViewSet.perform_create. rewrite Hdata.
      rewrite (bind_value _ _ st st E).
      2:{ unfold ReviewViewSet.get_event_or_404.
          rewrite (bind_value _ _ st st (events st)) by reflexivity.
          now rewrite (filter_unique_key Event.id _ E (event_pk_unique st Hok) Hin). }
      rewrite (bind_value _ _ st st true); [reflexivity|].
      unfold gets. now rewrite Hdup.
Qed.

(** C2, as claimed, fails: user 3 has reviewed event 1 of the sample
    store, and a second review is answered with status 400, not 409; from
    ReviewViewSet it is a [ValidationError]. *)
Lemma C2_duplicate_review_not_conflict :
  let data := ReviewSerializer.mkData (Given 1) Absent (Given 5) Absent in
  let r1 := EventViewSet.reviews_post (AuthUser 3) any_event 1 data sample_store in
  let r2 := ReviewViewSet.create (AuthUser 3) data sample_store in
  http_status true (outcome r1) = HTTP_400_BAD_REQUEST /\
  http_status true (outcome r1) <> HTTP_409_CONFLICT /\
  outcome r2 = inl ValidationError /\
  http_status true (outcome r2) <> HTTP_409_CONFLICT.
Proof.
  vm_compute. repeat split; discriminate.
Qed.

(** ** RSVP status *)

(** C7 fails on the creating path of the rsvp action: user 3 has no RSVP
    for event 1 of the sample store, sends the status Banana, and a row
    with that status is stored and returned with 201, while the updating
    path refuses the same payload from user 4, who has one.  Two requests
    on the empty store, an event created and an RSVP sent, lead to such a
    row as well. *)
Theorem C7_rsvp_create_stores_unchecked_status :
  let banana := RSVPSerializer.mkData (Some "Banana"%string) in
  let row := RSVP.mk 2 1 3 "Banana" in
  EventViewSet.rsvp POST (AuthUser 3) any_event 1 banana sample_store =
    (inr (mkResponse HTTP_201_CREATED (RSVPBody row)),
     mkStore (events sample_store) (rsvps sample_store ++ [row])
             (reviews sample_store)) /\
  existsb (String.eqb (RSVP.status row)) RSVPSerializer.valid_statuses = false /\
  EventViewSet.rsvp POST (AuthUser 4) any_event 1 banana sample_store =
    (inl ValidationError, sample_store) /\
  rsvps (serve [ (AuthUser 7, CreateEvent meetup_payload);
                 (AuthUser 3, Rsvp POST any_event 1 banana) ] empty_store) =
    [RSVP.mk 1 1 3 "Banana"].
Proof.
  vm_compute. repeat split; reflexivity.
Qed.

(** ** RSVP upsert *)

Lemma filter_unique {A B} (key : A -> B) (p : A -> bool) (l : list A) (x : A) :
  NoDup (map key l) -> In x l ->
  (forall y, p y = true <-> key y = key x) ->
  filter p l = [x].
Proof.
  intros Hnd Hin Hp.
  induction l as [|y l IH]; simpl in *; [contradiction|].
  inversion Hnd as [|k ks Hnotin Hnd']; subst.
  destruct Hin as [->|Hin].
  - rewrite (proj2 (Hp x) eq_refl). f_equal.
    apply filter_none. intros z Hz.
    destruct (p z) eqn:Hpz; [|reflexivity].
    exfalso. apply Hnotin. rewrite <- (proj1 (Hp z) Hpz). now apply in_map.
  - destruct (p y) eqn:Hpy.
    + exfalso. apply Hnotin. rewrite (proj1 (Hp y) Hpy). now apply in_map.
    + now apply IH.
Qed.

Lemma filter_map_in {A} (p : A -> bool) (f : A -> A) (l : list A) :
  (forall x, In x l -> p (f x) = p x) ->
  filter p (map f l) = map f (filter p l).
Proof.
  induction l as [|x l IH]; simpl; intros H; [reflexivity|].
  rewrite (H x (or_introl eq_refl)).
  destruct (p x); simpl; rewrite IH; auto.
Qed.

Lemma fold_max_upper (l : list Z) (x : Z) :
  In x l -> x <= fold_right Z.max 0 l.
Proof.
  induction l as [|y l IH]; simpl; [contradiction|].
  intros [->|Hin]; [lia|]. specialize (IH Hin). lia.
Qed.

Lemma next_pk_fresh (used : list pk) : ~ In (next_pk used) used.
Proof.
  intros Hin. apply fold_max_upper in Hin. unfold next_pk in Hin. lia.
Qed.

Lemma NoDup_snoc {A} (l : list A) (x : A) :
  NoDup l -> ~ In x l -> NoDup (l ++ [x]).
Proof.
  induction l as [|y l IH]; simpl; intros Hnd Hnot.
  - constructor; [intros []|constructor].
  - inversion Hnd as [|k ks Hnotin Hnd']; subst. constructor.
    + rewrite in_app_iff. simpl. intros [H|[H|[]]]; [contradiction|].
      apply Hnot. now left.
    + apply IH; [assumption|]. intros H. apply Hnot. now right.
Qed.

Lemma rsvp_key_match (r : RSVP.t) (k : pk) (u : User) :
  (RSVP.event r =? k) && (RSVP.user r =? u) = true <-> rsvp_key r = (k, u).
Proof.
  unfold rsvp_key. rewrite andb_true_iff, !Z.eqb_eq.
  split; [intros [-> ->]; reflexivity | intros [= -> ->]; now split].
Qed.

Lemma rsvps_of_row (st : Store) (r : RSVP.t) :
  store_ok st -> In r (rsvps st) ->
  rsvps_of (RSVP.event r) (RSVP.user r) st = [r].
Proof.
  intros Hok Hin. unfold rsvps_of.
  apply (filter_unique rsvp_key _ _ _ (rsvp_unique_together st Hok) Hin).
  intros y. apply rsvp_key_match.
Qed.

Lemma rsvps_of_none (st : Store) (k : pk) (u : User) :
  rsvps_of k u st = [] -> ~ In (k, u) (map rsvp_key (rsvps st)).
Proof.
  unfold rsvps_of. intros Hnone Hin.
  apply in_map_iff in Hin. destruct Hin as (r & Hkey & Hr).
  assert (H : In r (filter (fun r => (RSVP.event r =? k) && (RSVP.user r =? u))
                           (rsvps st))).
  { apply filter_In. split; [assumption|]. now apply rsvp_key_match. }
  now rewrite Hnone in H.
Qed.

(** Overwriting a row with one of the same key keeps the constraints. *)
Lemma write_rsvp_same_key (st : Store) (r r' : RSVP.t) :
  store_ok st -> In r (rsvps st) ->
  RSVP.id r' = RSVP.id r -> rsvp_key r' = rsvp_key r ->
  map RSVP.id (rsvps (write_rsvp r' st)) = map RSVP.id (rsvps st) /\
  map rsvp_key (rsvps (write_rsvp r' st)) = map rsvp_key (rsvps st).
Proof.
  intros Hok Hin Hid Hkey. unfold write_rsvp. simpl. rewrite !map_map.
  split; apply map_ext_in; intros x Hx;
    destruct (Z.eqb_spec (RSVP.id x) (RSVP.id r')) as [Heq|Hneq]; try reflexivity;
    rewrite Hid in Heq;
    rewrite (NoDup_map_eq _ _ _ _ (rsvp_pk_unique st Hok) Hx Hin Heq); congruence.
Qed.

Lemma write_rsvp_ok (st : Store) (r r' : RSVP.t) :
  store_ok st -> In r (rsvps st) ->
  RSVP.id r' = RSVP.id r -> rsvp_key r' = rsvp_key r ->
  store_ok (write_rsvp r' st).
Proof.
  intros Hok Hin Hid Hkey.
  destruct (write_rsvp_same_key st r r' Hok Hin Hid Hkey) as [Hids Hkeys].
  destruct Hok as [H1 H2 H3 H4 H5].
  constructor; try assumption; [now rewrite Hids | now rewrite Hkeys].
Qed.

Lemma write_rsvp_rows (st : Store) (r r' : RSVP.t) :
  store_ok st -> In r (rsvps st) ->
  RSVP.id r' = RSVP.id r -> rsvp_key r' = rsvp_key r ->
  rsvps_of (RSVP.event r) (RSVP.user r) (write_rsvp r' st) = [r'].
Proof.
  intros Hok Hin Hid Hkey. unfold rsvps_of, write_rsvp. simpl.
  rewrite filter_map_in.
  - fold (rsvps_of (RSVP.event r) (RSVP.user r) st).
    rewrite (rsvps_of_row st r Hok Hin). simpl.
    now rewrite Hid, Z.eqb_refl.
  - intros x Hx.
    destruct (Z.eqb_spec (RSVP.id x) (RSVP.id r')) as [Heq|Hneq]; [|reflexivity].
    rewrite Hid in Heq.
    rewrite (NoDup_map_eq _ _ _ _ (rsvp_pk_unique st Hok) Hx Hin Heq).
    unfold rsvp_key in Hkey. injection Hkey as -> ->. reflexivity.
Qed.

(** Appending a row for a pair that has none keeps the constraints. *)
Lemma add_rsvp_ok (st : Store) (k : pk) (u : User) (s : string) :
  store_ok st -> rsvps_of k u st = [] ->
  store_ok (mkStore (events st)
              (rsvps st ++ [RSVP.mk (next_pk (map RSVP.id (rsvps st))) k u s])
              (reviews st)).
Proof.
  intros [H1 H2 H3 H4 H5] Hnone. constructor; simpl; try assumption.
  - rewrite map_app. simpl. apply NoDup_snoc; [assumption|apply next_pk_fresh].
  - rewrite map_app. simpl. apply NoDup_snoc; [assumption|].
    now apply rsvps_of_none.
Qed.

Lemma add_rsvp_rows (st : Store) (k : pk) (u : User) (row : RSVP.t) :
  rsvps_of k u st = [] -> rsvp_key row = (k, u) ->
  rsvps_of k u (mkStore (events st) (rsvps st ++ [row]) (reviews st)) = [row].
Proof.
  unfold rsvps_of. simpl. intros Hnone Hkey.
  rewrite filter_app, Hnone. simpl.
  now rewrite (proj2 (rsvp_key_match row k u) Hkey).
Qed.

Section RsvpAction.

Variables (st : Store) (m : Method) (u : User) (q : Event.t -> bool) (E : Event.t).
Hypothesis Hok : store_ok st.
Hypothesis Hin : In E (events st).
Hypothesis Hsc : in_scope (AuthUser u) E = true.
Hypothesis Hq : q E = true.

Lemma rsvp_reaches_upsert (data : RSVPSerializer.Data) :
  EventViewSet.rsvp m (AuthUser u) q (Event.id E) data st =
  bind (EventViewSet.get_or_create E u
          (from_option "Maybe"%string (RSVPSerializer.status data)))
    (fun p =>
       let (rsvp, created) := p in
       if negb created then
         bind_exn (RSVPSerializer.is_valid data) (fun attrs =>
         obj <- RSVPSerializer.update rsvp attrs ;;
         ret (mkResponse HTTP_200_OK (RSVPBody obj)))
       else ret (mkResponse HTTP_201_CREATED (RSVPBody rsvp))) st.
Proof.
  unfold EventViewSet.rsvp.
  rewrite (bind_value _ _ st st tt) by reflexivity.
  rewrite (bind_value _ _ st st E); [reflexivity|].
  now rewrite (get_object_found _ _ _ _ _ _ (event_pk_unique st Hok) Hin Hsc Hq).
Qed.

Lemma rsvp_existing (data : RSVPSerializer.Data) (r : RSVP.t) :
  In r (rsvps st) -> RSVP.event r = Event.id E -> RSVP.user r = u ->
  EventViewSet.rsvp m (AuthUser u) q (Event.id E) data st =
  bind_exn (RSVPSerializer.is_valid data) (fun attrs =>
    obj <- RSVPSerializer.update r attrs ;;
    ret (mkResponse HTTP_200_OK (RSVPBody obj))) st.
Proof.
  intros Hr Hev Hu. rewrite rsvp_reaches_upsert.
  rewrite (bind_value _ _ st st (r, false)); [reflexivity|].
  unfold EventViewSet.get_or_create.
  rewrite (bind_value _ _ st st st) by reflexivity.
  fold (rsvps_of (Event.id E) u st).
  rewrite <- Hev, <- Hu, (rsvps_of_row st r Hok Hr). reflexivity.
Qed.

Lemma rsvp_absent (data : RSVPSerializer.Data) :
  rsvps_of (Event.id E) u st = [] ->
  let row := RSVP.mk (next_pk (map RSVP.id (rsvps st))) (Event.id E) u
               (from_option "Maybe"%string (RSVPSerializer.status data)) in
  EventViewSet.rsvp m (AuthUser u) q (Event.id E) data st =
  (inr (mkResponse HTTP_201_CREATED (RSVPBody row)),
   mkStore (events st) (rsvps st ++ [row]) (reviews st)).
Proof.
  intros Hnone row. rewrite rsvp_reaches_upsert.
  unfold EventViewSet.get_or_create.
  unfold bind at 1. unfold bind at 1. unfold gets at 1.
  fold (rsvps_of (Event.id E) u st). rewrite Hnone. reflexivity.
Qed.

End RsvpAction.

Lemma valid_status_accepted (s : string) :
  In s RSVPSerializer.valid_statuses ->
  RSVPSerializer.is_valid (RSVPSerializer.mkData (Some s)) = inr (Some s).
Proof.
  intros Hs.
  assert (H : existsb (String.eqb s) RSVPSerializer.valid_statuses = true).
  { apply existsb_exists. exists s. split; [assumption|apply String.eqb_refl]. }
  unfold RSVPSerializer.is_valid, RSVPSerializer.ChoiceField,
    RSVPSerializer.validate_status. simpl RSVPSerializer.status.
  cbv beta iota. rewrite H. cbv beta iota. rewrite H. reflexivity.
Qed.


(** One upsert with a valid status leaves exactly one row for the pair,
    carrying that status, in a store that still meets its constraints. *)
Lemma rsvp_upsert_step (st : Store) (m : Method) (u : User) (q : Event.t -> bool)
    (E : Event.t) (s : string) :
  store_ok st -> In E (events st) -> in_scope (AuthUser u) E = true -> q E = true ->
  In s RSVPSerializer.valid_statuses ->
  let st' := store_after (EventViewSet.rsvp m (AuthUser u) q (Event.id E)
                            (RSVPSerializer.mkData (Some s)) st) in
  store_ok st' /\ events st' = events st /\
  exists row, rsvps_of (Event.id E) u st' = [row] /\ RSVP.status row = s.
Proof.
  intros Hok Hin Hsc Hq Hs.
  destruct (rsvps_of (Event.id E) u st) as [|r rest] eqn:Hrows.
  - rewrite (rsvp_absent st m u q E Hok Hin Hsc Hq _ Hrows). simpl.
    split; [now apply add_rsvp_ok|]. split; [reflexivity|].
    eexists. split; [now apply add_rsvp_rows|reflexivity].
  - assert (Hr : In r (rsvps_of (Event.id E) u st)) by (rewrite Hrows; now left).
    apply filter_In in Hr. destruct Hr as [Hr Hkey].
    apply rsvp_key_match in Hkey. injection Hkey as Hev Hu.
    assert (Hst : store_after (EventViewSet.rsvp m (AuthUser u) q (Event.id E)
                                 (RSVPSerializer.mkData (Some s)) st)
                  = write_rsvp (set_status r s) st).
    { rewrite (rsvp_existing st m u q E Hok Hin Hsc Hq _ r Hr Hev Hu).
      now rewrite (valid_status_accepted s Hs). }
    cbv zeta. rewrite Hst.
    split; [now apply (write_rsvp_ok st r)|]. split; [reflexivity|].
    exists (set_status r s). split; [|reflexivity].
    rewrite <- Hev, <- Hu. now apply write_rsvp_rows.
Qed.


(** ** Aggregates *)

Lemma round_half_even_near (n d : Z) :
  0 < d -> 2 * Z.abs (n - round_half_even n d * d) <= d.
Proof.
  intros Hd. unfold round_half_even.
  pose proof (Z.div_mod n d ltac:(lia)) as Hdm.
  pose proof (Z.mod_pos_bound n d Hd) as Hr.
  set (q := n / d) in *. set (r := n mod d) in *.
  destruct (Z.ltb_spec (2 * r) d); [lia|].
  destruct (Z.ltb_spec d (2 * r)); [lia|].
  destruct (Z.even q); lia.
Qed.

Lemma nearest_tenth_transfer (a b M P k : Z) :
  0 < b -> 10 * b < P ->
  2 * Z.abs (a * P - M * b) <= b ->
  2 * Z.abs (10 * M - k * P) <= P ->
  2 * Z.abs (10 * a - k * b) <= b.
Proof.
  intros Hb HP H1 H2.
  assert (Hk : 20 * a * P <= (2 * k + 1) * P * b + 10 * b) by nia.
  assert (Hk' : (2 * k - 1) * P * b - 10 * b <= 20 * a * P) by nia.
  assert (20 * a < (2 * k + 1) * b + 1) by nia.
  assert ((2 * k - 1) * b - 1 < 20 * a) by nia.
  lia.
Qed.

Lemma scaled_num_neg (n e : Z) : e < 0 -> scaled_num n e = n * 2 ^ (- e).
Proof. unfold scaled_num. destruct (Z.ltb_spec e 0); [reflexivity|lia]. Qed.

Lemma scaled_den_neg (d e : Z) : e < 0 -> scaled_den d e = d.
Proof. unfold scaled_den. destruct (Z.ltb_spec e 0); [reflexivity|lia]. Qed.

Lemma scaled_num_nonneg (n e : Z) : 0 <= e -> scaled_num n e = n.
Proof. unfold scaled_num. destruct (Z.ltb_spec e 0); [lia|reflexivity]. Qed.

Lemma scaled_den_nonneg (d e : Z) : 0 <= e -> scaled_den d e = d * 2 ^ e.
Proof. unfold scaled_den. destruct (Z.ltb_spec e 0); [lia|reflexivity]. Qed.

Lemma pow2_succ (p : Z) : 0 < p -> 2 ^ p = 2 * 2 ^ (p - 1).
Proof.
  intros Hp. replace p with (Z.succ (p - 1)) at 1 by lia.
  apply Z.pow_succ_r. lia.
Qed.


Lemma py_truediv_opp (a b : Z) :
  a < 0 -> 0 < b ->
  py_truediv a b =
  match py_truediv (- a) b with
  | inr f => inr (mkFloat (- fnum f) (fexp f))
  | inl e => inl e
  end.
Proof.
  intros Ha Hb. unfold py_truediv.
  destruct (Z.eqb_spec b 0) as [|_]; [lia|].
  destruct (Z.eqb_spec a 0) as [|_]; [lia|].
  destruct (Z.eqb_spec (- a) 0) as [|_]; [lia|].
  rewrite Z.abs_opp, (Z.sgn_neg a), (Z.sgn_pos (- a)), (Z.sgn_pos b) by lia.
  match goal with
  | |- context [round_half_even ?x ?y] => set (m := round_half_even x y)
  end.
  destruct (m =? 2 ^ 53); cbn [fnum fexp]; f_equal; f_equal; ring.
Qed.


Lemma py_round_1 (M p : Z) :
  0 <= p ->
  py_round (mkFloat M (- p)) 1 =
  py_float_literal (round_half_even (M * 10) (1 * 2 ^ p)) 1.
Proof.
  intros Hp. unfold py_round. simpl fnum. simpl fexp.
  rewrite Z.opp_involutive.
  rewrite (scaled_num_nonneg _ p Hp), (scaled_den_nonneg _ p Hp).
  reflexivity.
Qed.



(** [py_truediv] is the division of the machine: on every sum of up to 30
    ratings between -5 and 5 divided by their number, and on operands
    near [2^47] and [2^53]. *)
Lemma py_truediv_is_binary64_division :
  forallb (fun b =>
             forallb (fun a => agrees_with_binary64 a b)
                     (Zrange (- 5 * b) (Z.to_nat (10 * b + 1))))
          (Zrange 1 30) = true /\
  forallb (fun a =>
             agrees_with_binary64 a 1 && agrees_with_binary64 a 3
             && agrees_with_binary64 (- a) 97 && agrees_with_binary64 7 a)
          (Zrange (2 ^ 47 - 50) 100 ++ Zrange (2 ^ 53 - 100) 100) = true.
Proof. split; vm_compute; reflexivity. Qed.

Lemma filter_filter_andb {A} (f g : A -> bool) (l : list A) :
  filter g (filter f l) = filter (fun x => f x && g x) l.
Proof.
  induction l as [|x l IH]; simpl; [reflexivity|].
  destruct (f x); simpl; [destruct (g x)|]; now rewrite IH.
Qed.

(** Ratings that passed validation, fewer than [2^45] of them, have a sum
    within the bound of the theorem below. *)
Lemma validated_ratings_sum_bound (l : list Z) :
  (forall r, In r l -> 1 <= r <= 5) -> count l < 2 ^ 45 ->
  Z.abs (sum_Z l) < 2 ^ 48.
Proof.
  intros Hrange Hlen.
  assert (Hsum : count l <= sum_Z l <= 5 * count l).
  { clear Hlen. unfold count. induction l as [|r l IH]; [simpl; lia|].
    assert (Hr : 1 <= r <= 5) by (apply Hrange; now left).
    assert (IH' : Z.of_nat (List.length l) <= sum_Z l <= 5 * Z.of_nat (List.length l))
      by (apply IH; intros x Hx; apply Hrange; now right).
    cbn [sum_Z fold_right List.length]. fold (sum_Z l). lia. }
  change (2 ^ 45) with 35184372088832 in Hlen.
  change (2 ^ 48) with 281474976710656.
  unfold count in *. lia.
Qed.

Lemma average_rating_of_ratings (E : Event.t) (st : Store) :
  Event_average_rating E st =
  (match ratings_of E st with
   | [] => inr None
   | _ :: _ =>
       match py_truediv (sum_Z (ratings_of E st)) (count (ratings_of E st)) with
       | inl e => inl e
       | inr x =>
           match py_round x 1 with
           | inl e => inl e
           | inr y => inr (Some y)
           end
       end
   end, st).
Proof.
  unfold Event_average_rating, Event_reviews, ratings_of, count.
  unfold bind at 1. unfold gets at 1. rewrite length_map.
  destruct (filter (fun r => Review.event r =? Event.id E) (reviews st))
    as [|r rs]; [reflexivity|].
  cbn [exists_ map]. unfold bind_exn.
  destruct (py_truediv _ _) as [e|x]; [reflexivity|].
  destruct (py_round x 1); reflexivity.
Qed.

Lemma round_half_even_le (n d B : Z) :
  0 < d -> n < B * d -> round_half_even n d <= B.
Proof.
  intros Hd Hn. unfold round_half_even.
  assert (Hq : n / d < B) by (apply Z.div_lt_upper_bound; lia).
  destruct (2 * (n mod d) <? d); [lia|].
  destruct (d <? 2 * (n mod d)); [lia|].
  destruct (Z.even (n / d)); lia.
Qed.

Lemma py_truediv_normal (n d : Z) :
  0 < n -> 0 < d -> Z.log2 n - Z.log2 d <= 50 ->
  exists m p,
    py_truediv n d = inr (mkFloat m (- p)) /\
    0 < p /\ 2 ^ 52 <= m < 2 ^ 53 /\ 2 * Z.abs (n * 2 ^ p - m * d) <= d.
Proof.
  intros Hn Hd Hlog.
  pose proof (Z.log2_spec n Hn) as [Hln Hln'].
  pose proof (Z.log2_spec d Hd) as [Hld' Hld].
  pose proof (Z.log2_nonneg n) as Hln0.
  pose proof (Z.log2_nonneg d) as Hld0.
  unfold py_truediv.
  destruct (Z.eqb_spec d 0) as [|_]; [lia|].
  destruct (Z.eqb_spec n 0) as [|_]; [lia|].
  rewrite (Z.sgn_pos n Hn), (Z.sgn_pos d Hd), (Z.abs_eq n), (Z.abs_eq d) by lia.
  set (e0 := Z.log2 n - Z.log2 d - 53).
  assert (He0 : e0 <= -3) by (unfold e0; lia).
  assert (Hpow : 0 < 2 ^ (- e0)) by (apply Z.pow_pos_nonneg; lia).
  assert (Hlow : 2 ^ 52 * d < n * 2 ^ (- e0)).
  { assert (Hsplit : 2 ^ Z.log2 n * 2 ^ (- e0) = 2 ^ 52 * 2 ^ Z.succ (Z.log2 d)).
    { rewrite <- !Z.pow_add_r by lia. f_equal. unfold e0. lia. }
    nia. }
  assert (Hhigh : n * 2 ^ (- e0) < 2 * 2 ^ 53 * d).
  { assert (Hsplit : 2 ^ Z.succ (Z.log2 n) * 2 ^ (- e0)
                     = 2 * 2 ^ 53 * 2 ^ Z.log2 d).
    { change (2 * 2 ^ 53) with (2 ^ 54).
      rewrite <- !Z.pow_add_r by lia. f_equal. unfold e0. lia. }
    nia. }
  rewrite (scaled_num_neg n e0), (scaled_den_neg d e0) by lia.
  set (e := if 2 ^ 53 <=? n * 2 ^ (- e0) / d then e0 + 1 else e0).
  assert (He : e <= -2 /\ 2 ^ 52 * d <= n * 2 ^ (- e) /\ n * 2 ^ (- e) < 2 ^ 53 * d).
  { unfold e. destruct (Z.leb_spec (2 ^ 53) (n * 2 ^ (- e0) / d)) as [Hbig|Hsmall].
    - split; [lia|].
      pose proof (Z.mul_div_le (n * 2 ^ (- e0)) d Hd) as Hdiv.
      set (Q := n * 2 ^ (- e0) / d) in *.
      assert (Hq : 2 ^ 53 * d <= d * Q) by nia.
      rewrite (pow2_succ (- e0)) in Hdiv, Hhigh by lia.
      replace (- (e0 + 1)) with (- e0 - 1) by lia.
      change (2 ^ 53) with (2 * 2 ^ 52) in Hq. lia.
    - split; [lia|]. split; [lia|].
      pose proof (Z.mod_pos_bound (n * 2 ^ (- e0)) d Hd) as Hr.
      pose proof (Z.div_mod (n * 2 ^ (- e0)) d ltac:(lia)) as Hdm.
      nia. }
  destruct He as (He2 & Hlow' & Hhigh').
  rewrite (scaled_num_neg n e), (scaled_den_neg d e) by lia.
  pose proof (round_half_even_near (n * 2 ^ (- e)) d Hd) as Hnear.
  pose proof (round_half_even_le (n * 2 ^ (- e)) d (2 ^ 53) Hd Hhigh') as Hle.
  set (m := round_half_even (n * 2 ^ (- e)) d) in *.
  assert (Hm : 2 ^ 52 <= m) by nia.
  destruct (Z.eqb_spec m (2 ^ 53)) as [Hcarry|Hno].
  - exists (2 ^ 52), (- (e + 1)). split; [|split; [|split]].
    + f_equal. f_equal; lia.
    + lia.
    + lia.
    + rewrite (pow2_succ (- e)) in Hnear by lia.
      replace (- (e + 1)) with (- e - 1) by lia. rewrite Hcarry in Hnear.
      change (2 ^ 53) with (2 * 2 ^ 52) in Hnear. lia.
  - exists m, (- e). split; [|split; [|split]].
    + f_equal. f_equal; lia.
    + lia.
    + lia.
    + assumption.
Qed.



Lemma round_half_even_tie (n d : Z) :
  0 < d -> 2 * Z.abs (n - round_half_even n d * d) = d ->
  Z.even (round_half_even n d) = true.
Proof.
  intros Hd. unfold round_half_even.
  pose proof (Z.div_mod n d ltac:(lia)) as Hdm.
  pose proof (Z.mod_pos_bound n d Hd) as Hr.
  set (q := n / d) in *. set (r := n mod d) in *.
  destruct (Z.ltb_spec (2 * r) d); [lia|].
  destruct (Z.ltb_spec d (2 * r)); [lia|].
  destruct (Z.even q) eqn:Hq; [intros _; exact Hq|intros _].
  replace (q + 1) with (Z.succ q) by lia.
  now rewrite Z.even_succ, <- Z.negb_even, Hq.
Qed.

(** The quotient of integers, as long as it stays below [2^52]. *)
Lemma py_truediv_nearest (a b : Z) :
  0 < b -> Z.log2 (Z.abs a) - Z.log2 b <= 50 ->
  exists x, py_truediv a b = inr x /\ nearest_binary64 a b x.
Proof.
  intros Hb Hlog. unfold nearest_binary64.
  destruct (Z.eqb_spec a 0) as [->|Hnz].
  - exists (mkFloat 0 0). unfold py_truediv.
    destruct (Z.eqb_spec b 0) as [|_]; [lia|]. split; reflexivity.
  - destruct (Z.lt_total a 0) as [Hneg|[Hz|Hgt]]; [|contradiction|].
    + rewrite Z.abs_neq in Hlog by lia.
      destruct (py_truediv_normal (- a) b ltac:(lia) Hb Hlog)
        as (m & p & Hdiv & Hp & Hm & Hnear).
      exists (mkFloat (- m) (- p)).
      rewrite (py_truediv_opp a b Hneg Hb), Hdiv. cbn [fnum fexp].
      split; [reflexivity|]. rewrite Z.abs_opp, Z.opp_involutive.
      split; [lia|]. split; [lia|].
      replace (a * 2 ^ p - - m * b) with (- (- a * 2 ^ p - m * b)) by ring.
      now rewrite Z.abs_opp.
    + rewrite Z.abs_eq in Hlog by lia.
      destruct (py_truediv_normal a b Hgt Hb Hlog)
        as (m & p & Hdiv & Hp & Hm & Hnear).
      exists (mkFloat m (- p)). rewrite Hdiv. cbn [fnum fexp].
      split; [reflexivity|]. rewrite Z.opp_involutive.
      split; [lia|]. split; [lia|assumption].
Qed.

Lemma log2_below (a : Z) (n : Z) :
  0 < n -> Z.abs a < 2 ^ n -> Z.log2 (Z.abs a) < n.
Proof.
  intros Hn Ha. destruct (Z.eq_dec a 0) as [->|Hnz]; [simpl; lia|].
  apply Z.log2_lt_pow2; lia.
Qed.

(** [round(a / b, 1)], step by step. *)
Lemma rounded_quotient_is_nearest (a b : Z) :
  Z.abs a < 2 ^ 48 -> 0 < b ->
  exists x k y,
    py_truediv a b = inr x /\ py_round x 1 = inr y /\
    nearest_binary64 a b x /\ nearest_tenth x k /\ nearest_binary64 k 10 y /\
    2 * Z.abs (10 * a - k * b) <= b.
Proof.
  intros Ha Hb.
  pose proof (log2_below a 48 ltac:(lia) Ha) as Hla.
  pose proof (Z.log2_nonneg b) as Hlb.
  destruct (py_truediv_nearest a b Hb ltac:(lia)) as (x & Hdiv & Hx).
  assert (Hexp : fexp x <= 0).
  { unfold nearest_binary64 in Hx. destruct (a =? 0); [subst x; simpl|]; lia. }
  set (p := - fexp x).
  assert (Hp : 0 <= p) by (unfold p; lia).
  assert (Hpow : 0 < 2 ^ p) by (apply Z.pow_pos_nonneg; lia).
  set (k := round_half_even (fnum x * 10) (1 * 2 ^ p)).
  assert (Hround : py_round x 1 = py_float_literal k 1).
  { destruct x as [M e]. cbn [fexp fnum] in *.
    replace e with (- p) by (unfold p; lia). now rewrite py_round_1. }
  pose proof (round_half_even_near (fnum x * 10) (1 * 2 ^ p) ltac:(lia)) as Hk.
  pose proof (round_half_even_tie (fnum x * 10) (1 * 2 ^ p) ltac:(lia)) as Htie.
  fold k in Hk, Htie.
  assert (Htenth : nearest_tenth x k).
  { unfold nearest_tenth. fold p. split.
    - replace (10 * fnum x - k * 2 ^ p) with (fnum x * 10 - k * (1 * 2 ^ p)) by ring.
      lia.
    - intros Heq. apply Htie.
      replace (fnum x * 10 - k * (1 * 2 ^ p)) with (10 * fnum x - k * 2 ^ p) by ring.
      lia. }
  assert (Hnear : 2 * Z.abs (10 * a - k * b) <= b).
  { unfold nearest_binary64 in Hx. destruct (Z.eqb_spec a 0) as [->|Hnz].
    - subst x. unfold k, p. simpl. lia.
    - destruct Hx as (Hm & He & Hq). fold p in Hq.
      apply (nearest_tenth_transfer a b (fnum x) (2 ^ p) k); try assumption.
      + change (2 ^ 48) with 281474976710656 in Ha.
        change (2 ^ 52) with 4503599627370496 in Hm. nia.
      + replace (10 * fnum x - k * 2 ^ p) with (fnum x * 10 - k * (1 * 2 ^ p))
          by ring.
        lia. }
  assert (Hk52 : Z.abs k < 2 ^ 52).
  { change (2 ^ 48) with 281474976710656 in Ha.
    change (2 ^ 52) with 4503599627370496. nia. }
  pose proof (log2_below k 52 ltac:(lia) Hk52) as Hlk.
  destruct (py_truediv_nearest k 10 ltac:(lia)
              ltac:(change (Z.log2 10) with 3; lia)) as (y & Hlit & Hy).
  exists x, k, y.
  split; [exact Hdiv|]. split; [rewrite Hround; exact Hlit|].
  split; [exact Hx|]. split; [exact Htenth|]. split; [exact Hy|exact Hnear].
Qed.

(** C8: [rsvp_count] is the number of RSVP rows of the event that say
    Going, 0 when there are none.  [average_rating] is absent without
    reviews; otherwise it is what [round(sum / count, 1)] is on binary64
    numbers: with [x] the float nearest to sum/count and [k / 10] the
    tenth nearest to [x] (the even one of two), the float nearest to
    [k / 10]; and [k / 10] is a tenth nearest to sum/count itself.
    Ratings 4, 5 give the float 4.5 and ratings 3, 3, 4 give the float
    3.3, the numbers the machine reads from these literals. *)
Theorem C8_event_aggregates (st : Store) (E : Event.t) :
  Event_rsvp_count E st = (inr (count (going_of E st)), st) /\
  (going_of E st = [] -> Event_rsvp_count E st = (inr 0, st)) /\
  (ratings_of E st = [] -> Event_average_rating E st = (inr None, st)) /\
  (ratings_of E st <> [] -> Z.abs (sum_Z (ratings_of E st)) < 2 ^ 48 ->
   exists x k y,
     Event_average_rating E st = (inr (Some y), st) /\
     nearest_binary64 (sum_Z (ratings_of E st)) (count (ratings_of E st)) x /\
     nearest_tenth x k /\
     nearest_binary64 k 10 y /\
     2 * Z.abs (10 * sum_Z (ratings_of E st) - k * count (ratings_of E st))
       <= count (ratings_of E st)) /\
  (ratings_of E st = [4; 5] ->
   Event_average_rating E st = (inr (Some (mkFloat 5066549580791808 (-50))), st)) /\
  (ratings_of E st = [3; 3; 4] ->
   Event_average_rating E st = (inr (Some (mkFloat 7430939385161318 (-51))), st)) /\
  spec_of_float (mkFloat 5066549580791808 (-50))
    = FloatOps.Prim2SF Literal.four_point_five /\
  spec_of_float (mkFloat 7430939385161318 (-51))
    = FloatOps.Prim2SF Literal.three_point_three.
Proof.
  assert (Hcount : Event_rsvp_count E st = (inr (count (going_of E st)), st)).
  { unfold Event_rsvp_count, Event_rsvps, going_of. run_monad.
    now rewrite filter_filter_andb. }
  split; [exact Hcount|]. split; [|split; [|split; [|split; [|split; [|split]]]]].
  - intros Hnone. now rewrite Hcount, Hnone.
  - intros Hnone. now rewrite average_rating_of_ratings, Hnone.
  - intros Hsome Hsum. rewrite average_rating_of_ratings.
    assert (Hlen : 0 < count (ratings_of E st)).
    { unfold count. destruct (ratings_of E st); [contradiction|simpl; lia]. }
    destruct (rounded_quotient_is_nearest _ _ Hsum Hlen)
      as (x & k & y & Hdiv & Hround & Hx & Hk & Hy & Hnear).
    exists x, k, y. rewrite Hdiv, Hround.
    destruct (ratings_of E st); [contradiction|].
    split; [reflexivity|]. now repeat (split; [assumption|]).
  - intros Hr. rewrite average_rating_of_ratings, Hr. vm_compute. reflexivity.
  - intros Hr. rewrite average_rating_of_ratings, Hr. vm_compute. reflexivity.
  - vm_compute. reflexivity.
  - vm_compute. reflexivity.
Qed.

(** * The properties on the sample store *)

Ltac solve_nodup :=
  repeat constructor; simpl; intuition (discriminate || congruence).

Lemma sample_store_ok : store_ok sample_store.
Proof. constructor; solve_nodup. Qed.

Lemma C1_private_events_hidden_witness :
  (forall qs, outcome (EventViewSet.get_queryset (AuthUser 3) sample_store) = inr qs ->
              ~ In private_event qs) /\
  (exists l,
      EventViewSet.list_action (AuthUser 3) any_event sample_store =
        (inr (mkResponse HTTP_200_OK (EventList l)), sample_store) /\
      ~ In private_event l) /\
  (store_ok sample_store ->
   EventViewSet.retrieve (AuthUser 3) any_event 2 sample_store =
     (inl Http404, sample_store)).
Proof.
  refine (proj2 (C1_private_events_hidden sample_store (AuthUser 3) any_event)
                private_event _ _ _).
  - simpl. auto.
  - reflexivity.
  - simpl. intros H. discriminate H.
Defined.

Lemma C2_duplicate_review_bad_request_witness :
  EventViewSet.reviews_post (AuthUser 3) any_event 1
    (ReviewSerializer.mkData (Given 1) Absent (Given 5) Absent) sample_store =
  (inr (mkResponse HTTP_400_BAD_REQUEST
          (Detail "You have already reviewed this event.")), sample_store).
Proof.
  refine (proj1 (C2_duplicate_review_bad_request sample_store 3 public_event
                   (Review.mk 1 1 3 4 "Good")
                   (ReviewSerializer.mkData (Given 1) Absent (Given 5) Absent)
                   true sample_store_ok _ _ _ _) any_event _ _).
  - simpl. auto.
  - simpl. auto.
  - reflexivity.
  - reflexivity.
  - reflexivity.
  - reflexivity.
Defined.



Lemma C4_end_after_start_witness :
  let data := EventCreateUpdateSerializer.mkData
                Absent Absent Absent Absent (Given 500) Absent Absent in
  EventViewSet.update true (AuthUser 7) any_event 1 data sample_store =
    (inl ValidationError, sample_store) /\
  forall c,
    store_after (EventViewSet.update true c any_event 1 data sample_store)
      = sample_store.
Proof.
  refine (proj2 (C4_end_after_start sample_store) true any_event public_event
            (EventCreateUpdateSerializer.mkData
               Absent Absent Absent Absent (Given 500) Absent Absent)
            sample_store_ok _ _ _).
  - simpl. auto.
  - reflexivity.
  - unfold effective_end, effective_start. simpl. lia.
Defined.

Lemma C5_denied_writes_witness :
  EventViewSet.destroy (AuthUser 3) any_event 1 sample_store =
    (inl PermissionDenied, sample_store) /\
  http_status true (inl PermissionDenied) = HTTP_403_FORBIDDEN /\
  http_status true (inl PermissionDenied) <> http_status true (inl NotAuthenticated) /\
  In public_event
     (events (store_after (EventViewSet.destroy (AuthUser 3) any_event 1 sample_store))).
Proof.
  refine (proj2 (C5_denied_writes sample_store) 3 any_event public_event true
            sample_store_ok _ _ _ _).
  - simpl. auto.
  - simpl. lia.
  - reflexivity.
  - reflexivity.
Defined.

Lemma C6_organizer_set_by_server_witness :
  let data := EventCreateUpdateSerializer.mkData
                (Given "Talk"%string) (Given "A talk"%string) (Given "Nice"%string)
                (Given 10) (Given 20) Absent (Given 99) in
  (exists obj,
      EventViewSet.create (AuthUser 3) data sample_store =
        (inr (mkResponse HTTP_201_CREATED (EventDetail obj)),
         mkStore (events sample_store ++ [obj]) (rsvps sample_store)
                 (reviews sample_store)) /\
      Event.organizer obj = 3 /\
      forall v, EventViewSet.create (AuthUser 3) (with_organizer data v) sample_store =
                EventViewSet.create (AuthUser 3) data sample_store) /\
  owners (store_after (EventViewSet.update true (AuthUser 7) any_event 1 data
                         sample_store)) = owners sample_store.
Proof.
  split.
  - refine (proj1 (C6_organizer_set_by_server sample_store) 3 _ _ _). reflexivity.
  - refine (proj1 (proj2 (C6_organizer_set_by_server sample_store)
                     true (AuthUser 7) any_event 1 _ (Given 99) sample_store_ok)).
Defined.

Lemma C8_event_aggregates_witness :
  (exists x k y,
      Event_average_rating public_event sample_store = (inr (Some y), sample_store) /\
      nearest_binary64 (sum_Z (ratings_of public_event sample_store))
                       (count (ratings_of public_event sample_store)) x /\
      nearest_tenth x k /\
      nearest_binary64 k 10 y /\
      2 * Z.abs (10 * sum_Z (ratings_of public_event sample_store)
                 - k * count (ratings_of public_event sample_store))
        <= count (ratings_of public_event sample_store)) /\
  Event_average_rating public_event sample_store
    = (inr (Some (mkFloat 5066549580791808 (-50))), sample_store) /\
  Event_average_rating public_event three_reviews_store
    = (inr (Some (mkFloat 7430939385161318 (-51))), three_reviews_store).
Proof.
  split; [|split].
  - refine (proj1 (proj2 (proj2 (proj2
              (C8_event_aggregates sample_store public_event)))) _ _).
    + simpl. discriminate.
    + vm_compute. reflexivity.
  - refine (proj1 (proj2 (proj2 (proj2 (proj2
              (C8_event_aggregates sample_store public_event))))) _).
    reflexivity.
  - refine (proj1 (proj2 (proj2 (proj2 (proj2 (proj2
              (C8_event_aggregates three_reviews_store public_event)))))) _).
    reflexivity.
Defined.

Lemma C9_rating_validated_before_write_witness :
  let data := ReviewSerializer.mkData (Given 1) Absent (Given 6) Absent in
  (forall u, ReviewViewSet.create (AuthUser u) data sample_store
             = (inl ValidationError, sample_store)) /\
  (forall c q k, store_after (EventViewSet.reviews_post c q k data sample_store)
                 = sample_store).
Proof.
  assert (H : 6 < 1 \/ 5 < 6) by (right; lia).
  pose proof (C9_rating_validated_before_write sample_store
                (ReviewSerializer.mkData (Given 1) Absent (Given 6) Absent) 6
                eq_refl H) as H9.
  split; [exact (proj1 H9) | exact (proj2 (proj2 (proj2 H9)))].
Defined.

Lemma C10_review_listing_ignores_caller_witness :
  EventViewSet.retrieve (AuthUser 3) any_event 2 sample_store =
    (inl Http404, sample_store) /\
  exists l,
    ReviewViewSet.list_action (AuthUser 3) (Some 2) sample_store =
      (inr (mkResponse HTTP_200_OK (ReviewList l)), sample_store) /\
    In (Review.mk 3 2 7 3 "") l.
Proof.
  refine (proj2 (proj2 (C10_review_listing_ignores_caller sample_store))
            (AuthUser 3) private_event (Review.mk 3 2 7 3 "") sample_store_ok _ _ _ _).
  - simpl. auto.
  - reflexivity.
  - simpl. auto.
  - reflexivity.
Defined.

(** * The database constraints are kept by every request *)

(** Deleting rows keeps a key unique. *)
Lemma NoDup_keys_filter {A K} (key : A -> K) (keep : A -> bool) (rows : list A) :
  NoDup (map key rows) -> NoDup (map key (filter keep rows)).
Proof.
  induction rows as [|row rows IH]; simpl; intros Huniq; [constructor|].
  inversion Huniq as [|k ks Hfresh Huniq']; subst.
  destruct (keep row); simpl; [|now apply IH].
  constructor; [|now apply IH].
  intros Hdup. apply Hfresh. apply in_map_iff in Hdup.
  destruct Hdup as (other & Hkey & Hother). apply filter_In in Hother.
  rewrite <- Hkey. apply in_map. tauto.
Qed.

Lemma create_event_ok (attrs : EventCreateUpdateSerializer.Attrs) (u : User)
    (st : Store) :
  store_ok st ->
  store_ok (store_after (EventCreateUpdateSerializer.create attrs u st)).
Proof.
  intros [H1 H2 H3 H4 H5]. unfold EventCreateUpdateSerializer.create, store_after.
  run_monad. constructor; simpl; try assumption.
  rewrite map_app. simpl. apply NoDup_snoc; [assumption|apply next_pk_fresh].
Qed.

Lemma update_event_ok (instance : Event.t)
    (attrs : EventCreateUpdateSerializer.Attrs) (st : Store) :
  store_ok st ->
  store_ok (store_after (EventCreateUpdateSerializer.update instance attrs st)).
Proof.
  intros [H1 H2 H3 H4 H5]. unfold EventCreateUpdateSerializer.update, store_after.
  run_monad. constructor; simpl; try assumption.
  rewrite map_map.
  erewrite map_ext; [exact H1|].
  intros x. simpl. now destruct (Z.eqb_spec (Event.id x) (Event.id instance)).
Qed.

Lemma perform_destroy_ok (instance : Event.t) (st : Store) :
  store_ok st -> store_ok (store_after (EventViewSet.perform_destroy instance st)).
Proof.
  intros [H1 H2 H3 H4 H5]. unfold EventViewSet.perform_destroy, store_after.
  run_monad. constructor; simpl; now apply NoDup_keys_filter.
Qed.

Lemma insert_review_ok (ev : Event.t) (u : User) (attrs : ReviewSerializer.Attrs)
    (st : Store) :
  store_ok st -> store_ok (store_after (ReviewSerializer.insert ev u attrs st)).
Proof.
  intros Hok. pose proof Hok as [H1 H2 H3 H4 H5].
  unfold ReviewSerializer.insert, store_after.
  unfold bind at 1. unfold gets at 1.
  destruct (existsb _ (reviews st)) eqn:Hex; [exact Hok|].
  run_monad. constructor; simpl; try assumption.
  - rewrite map_app. simpl. apply NoDup_snoc; [assumption|apply next_pk_fresh].
  - rewrite map_app. simpl. apply NoDup_snoc; [assumption|].
    intros Hin. apply in_map_iff in Hin. destruct Hin as (r & Hkey & Hr).
    assert (Hyes : existsb (fun r => (Review.event r =? Event.id ev)
                                     && (Review.user r =? u)) (reviews st) = true).
    { apply existsb_exists. exists r. split; [assumption|].
      unfold review_key in Hkey. injection Hkey as -> ->.
      now rewrite !Z.eqb_refl. }
    congruence.
Qed.

Lemma get_or_create_inv (E : Event.t) (u : User) (s : string) (st st' : Store)
    (r : Exn + RSVP.t * bool) :
  store_ok st ->
  EventViewSet.get_or_create E u s st = (r, st') ->
  store_ok st' /\
  forall row, r = inr (row, false) -> st' = st /\ In row (rsvps st).
Proof.
  intros Hok. unfold EventViewSet.get_or_create.
  unfold bind at 1. unfold gets at 1.
  fold (rsvps_of (Event.id E) u st).
  destruct (rsvps_of (Event.id E) u st) as [|row [|row' rest]] eqn:Hrows.
  - run_monad. intros [= <- <-]. split; [now apply add_rsvp_ok|discriminate].
  - run_monad. intros [= <- <-]. split; [assumption|].
    intros x [= <-]. split; [reflexivity|].
    assert (H : In row (rsvps_of (Event.id E) u st)) by (rewrite Hrows; now left).
    apply filter_In in H. tauto.
  - run_monad. intros [= <- <-]. split; [assumption|discriminate].
Qed.

Lemma update_rsvp_ok (row : RSVP.t) (attrs : option string) (st : Store) :
  store_ok st -> In row (rsvps st) ->
  store_ok (store_after (RSVPSerializer.update row attrs st)).
Proof.
  intros Hok Hin. unfold RSVPSerializer.update, store_after. run_monad.
  exact (write_rsvp_ok st row
           (set_status row (from_option (RSVP.status row) attrs))
           Hok Hin eq_refl eq_refl).
Qed.

(** Every request leaves a store that meets the database constraints. *)
Theorem dispatch_keeps_constraints (c : Caller) (r : Request) (st : Store) :
  store_ok st -> store_ok (store_after (dispatch c r st)).
Proof.
  intros Hok. unfold store_after.
  destruct r as [q|q k|data|partial q k data|q k|m q k data|q k|q k data|eid|data];
    simpl.
  - unfold EventViewSet.list_action. unfold bind at 1.
    destruct (check_permissions _ GET c st) as [[e|[]] st1] eqn:Hperm;
      rewrite (check_permissions_inv _ _ _ _ _ _ Hperm); [exact Hok|].
    unfold bind at 1. now rewrite get_queryset_eq.
  - unfold EventViewSet.retrieve. unfold bind at 1.
    destruct (check_permissions _ GET c st) as [[e|[]] st1] eqn:Hperm;
      rewrite (check_permissions_inv _ _ _ _ _ _ Hperm); [exact Hok|].
    unfold bind at 1.
    destruct (EventViewSet.get_object _ GET c q k st) as [[e|obj] st2] eqn:Hget;
      destruct (get_object_inv _ _ _ _ _ _ _ _ Hget) as [-> _]; exact Hok.
  - unfold EventViewSet.create. unfold bind at 1.
    destruct (check_permissions _ POST c st) as [[e|[]] st1] eqn:Hperm;
      rewrite (check_permissions_inv _ _ _ _ _ _ Hperm); [exact Hok|].
    destruct (EventCreateUpdateSerializer.is_valid None false data) as [e|attrs];
      [exact Hok|].
    unfold bind_exn, EventViewSet.perform_create. destruct c as [|u]; [exact Hok|].
    unfold bind at 1.
    pose proof (create_event_ok attrs u st Hok) as Hnew. unfold store_after in Hnew.
    destruct (EventCreateUpdateSerializer.create attrs u st) as [[e|obj] st2];
      exact Hnew.
  - unfold EventViewSet.update. unfold bind at 1.
    destruct (check_permissions _ _ c st) as [[e|[]] st1] eqn:Hperm;
      rewrite (check_permissions_inv _ _ _ _ _ _ Hperm); [exact Hok|].
    unfold bind at 1.
    destruct (EventViewSet.get_object _ _ c q k st) as [[e|obj] st2] eqn:Hget;
      destruct (get_object_inv _ _ _ _ _ _ _ _ Hget) as [-> _]; [exact Hok|].
    destruct (EventCreateUpdateSerializer.is_valid (Some obj) partial data)
      as [e|attrs]; [exact Hok|].
    unfold bind_exn. unfold bind at 1.
    pose proof (update_event_ok obj attrs st Hok) as Hnew. unfold store_after in Hnew.
    destruct (EventCreateUpdateSerializer.update obj attrs st) as [[e|o] st2];
      exact Hnew.
  - unfold EventViewSet.destroy. unfold bind at 1.
    destruct (check_permissions _ DELETE c st) as [[e|[]] st1] eqn:Hperm;
      rewrite (check_permissions_inv _ _ _ _ _ _ Hperm); [exact Hok|].
    unfold bind at 1.
    destruct (EventViewSet.get_object _ DELETE c q k st) as [[e|obj] st2] eqn:Hget;
      destruct (get_object_inv _ _ _ _ _ _ _ _ Hget) as [-> _]; [exact Hok|].
    exact (perform_destroy_ok obj st Hok).
  - unfold EventViewSet.rsvp. unfold bind at 1.
    destruct (check_permissions _ m c st) as [[e|[]] st1] eqn:Hperm;
      rewrite (check_permissions_inv _ _ _ _ _ _ Hperm); [exact Hok|].
    unfold bind at 1.
    destruct (EventViewSet.get_object _ m c q k st) as [[e|obj] st2] eqn:Hget;
      destruct (get_object_inv _ _ _ _ _ _ _ _ Hget) as [-> _]; [exact Hok|].
    destruct c as [|u]; [exact Hok|].
    unfold bind at 1.
    destruct (EventViewSet.get_or_create obj u _ st) as [[e|[row created]] st2] eqn:Hgc;
      destruct (get_or_create_inv _ _ _ _ _ _ Hok Hgc) as [Hok2 Hrow];
      [exact Hok2|].
    destruct created; [exact Hok2|]. cbv beta iota delta [negb].
    destruct (Hrow row eq_refl) as [-> Hin].
    destruct (RSVPSerializer.is_valid data) as [e|attrs]; [exact Hok|].
    unfold bind_exn. unfold bind at 1.
    pose proof (update_rsvp_ok row attrs st Hok Hin) as Hnew.
    unfold store_after in Hnew.
    destruct (RSVPSerializer.update row attrs st) as [[e|o] st2]; exact Hnew.
  - unfold EventViewSet.reviews_get. unfold bind at 1.
    destruct (check_permissions _ GET c st) as [[e|[]] st1] eqn:Hperm;
      rewrite (check_permissions_inv _ _ _ _ _ _ Hperm); [exact Hok|].
    unfold bind at 1.
    destruct (EventViewSet.get_object _ GET c q k st) as [[e|obj] st2] eqn:Hget;
      destruct (get_object_inv _ _ _ _ _ _ _ _ Hget) as [-> _]; exact Hok.
  - unfold EventViewSet.reviews_post. unfold bind at 1.
    destruct (check_permissions _ POST c st) as [[e|[]] st1] eqn:Hperm;
      rewrite (check_permissions_inv _ _ _ _ _ _ Hperm); [exact Hok|].
    unfold bind at 1.
    destruct (EventViewSet.get_object _ POST c q k st) as [[e|obj] st2] eqn:Hget;
      destruct (get_object_inv _ _ _ _ _ _ _ _ Hget) as [-> _]; [exact Hok|].
    unfold bind at 1. unfold gets at 1.
    destruct (exists_ _); [exact Hok|].
    destruct (ReviewSerializer.is_valid data) as [e|attrs]; [exact Hok|].
    unfold bind_exn, ReviewSerializer.create. simpl.
    destruct c as [|u]; [exact Hok|].
    unfold bind at 1.
    pose proof (insert_review_ok obj u attrs st Hok) as Hnew.
    unfold store_after in Hnew.
    destruct (ReviewSerializer.insert obj u attrs st) as [[e|o] st2]; exact Hnew.
  - unfold ReviewViewSet.list_action. unfold bind at 1.
    destruct (check_permissions _ GET c st) as [[e|[]] st1] eqn:Hperm;
      rewrite (check_permissions_inv _ _ _ _ _ _ Hperm); [exact Hok|].
    destruct eid; exact Hok.
  - unfold ReviewViewSet.create. unfold bind at 1.
    destruct (check_permissions _ POST c st) as [[e|[]] st1] eqn:Hperm;
      rewrite (check_permissions_inv _ _ _ _ _ _ Hperm); [exact Hok|].
    destruct (ReviewSerializer.is_valid data) as [e|attrs]; [exact Hok|].
    unfold bind_exn, ReviewViewSet.perform_create. unfold bind at 1. unfold bind at 1.
    unfold ReviewViewSet.get_event_or_404.
    destruct (ReviewSerializer.event data) as [| |k]; try exact Hok.
    unfold bind at 1. unfold gets at 1.
    destruct (filter (fun e => Event.id e =? k) (events st)) as [|obj [|obj' rest]];
      try exact Hok.
    unfold ret at 1. unfold bind at 1. unfold gets at 1.
    destruct (exists_ _); exact Hok.
Qed.

Theorem served_store_ok (reqs : list (Caller * Request)) (st : Store) :
  store_ok st -> store_ok (serve reqs st).
Proof.
  revert st. induction reqs as [|[c r] rest IH]; simpl; intros st Hok;
    [assumption|].
  apply IH. now apply dispatch_keeps_constraints.
Qed.

Lemma empty_store_ok : store_ok empty_store.
Proof. constructor; constructor. Qed.

(** * What every request does to the store *)

Lemma run_field_required {A} (f : Field A) (o : option A) :
  run_field true false f = inr o -> exists a, f = Given a /\ o = Some a.
Proof.
  destruct f; simpl; try discriminate. intros [= <-]. now exists a.
Qed.

(** A payload accepted for a new event has both times, in order. *)
Lemma is_valid_create_times (data : EventCreateUpdateSerializer.Data)
    (attrs : EventCreateUpdateSerializer.Attrs) :
  EventCreateUpdateSerializer.is_valid None false data = inr attrs ->
  exists s e,
    EventCreateUpdateSerializer.a_start_time attrs = Some s /\
    EventCreateUpdateSerializer.a_end_time attrs = Some e /\ s < e.
Proof.
  unfold EventCreateUpdateSerializer.is_valid.
  destruct (EventCreateUpdateSerializer.to_internal_value false data)
    as [x|a0] eqn:Hv; [discriminate|].
  revert Hv. unfold EventCreateUpdateSerializer.to_internal_value.
  destruct (run_field true false (EventCreateUpdateSerializer.title data));
    [discriminate|].
  destruct (run_field true false (EventCreateUpdateSerializer.description data));
    [discriminate|].
  destruct (run_field true false (EventCreateUpdateSerializer.location data));
    [discriminate|].
  destruct (run_field true false (EventCreateUpdateSerializer.start_time data))
    as [|os] eqn:Hs; [discriminate|].
  destruct (run_field true false (EventCreateUpdateSerializer.end_time data))
    as [|oe] eqn:He; [discriminate|].
  destruct (run_field false false (EventCreateUpdateSerializer.is_public data));
    [discriminate|].
  destruct (run_field_required _ _ Hs) as (s & _ & ->).
  destruct (run_field_required _ _ He) as (e & _ & ->).
  intros [= <-]. unfold EventCreateUpdateSerializer.validate. simpl.
  destruct (Z.leb_spec e s); [discriminate|]. intros [= <-]. simpl.
  exists s, e. repeat split; assumption.
Qed.

(** A payload accepted for an update leaves the event with its times in
    order. *)
Lemma is_valid_update_times (instance : Event.t) (partial : bool)
    (data : EventCreateUpdateSerializer.Data)
    (attrs : EventCreateUpdateSerializer.Attrs) :
  EventCreateUpdateSerializer.is_valid (Some instance) partial data = inr attrs ->
  from_option (Event.start_time instance)
              (EventCreateUpdateSerializer.a_start_time attrs)
  < from_option (Event.end_time instance)
                (EventCreateUpdateSerializer.a_end_time attrs).
Proof.
  unfold EventCreateUpdateSerializer.is_valid.
  destruct (EventCreateUpdateSerializer.to_internal_value partial data)
    as [x|a0]; [discriminate|].
  unfold EventCreateUpdateSerializer.validate.
  destruct (EventCreateUpdateSerializer.a_start_time a0) as [s|] eqn:Hs,
           (EventCreateUpdateSerializer.a_end_time a0) as [e|] eqn:He; simpl;
    match goal with
    | |- context [?a <=? ?b] => destruct (Z.leb_spec a b); [discriminate|]
    end; intros [= <-]; rewrite Hs, He; simpl; assumption.
Qed.

Lemma organizer_permission (m : Method) (c : Caller) (obj : Event.t) :
  is_safe m = false ->
  forallb (fun p => has_object_permission p m c obj) EventViewSet.permission_classes
    = true ->
  c = AuthUser (Event.organizer obj).
Proof.
  intros Hm. simpl. rewrite Hm, andb_true_r. apply user_eq_true_iff.
Qed.

Ltac after_permissions Hperm :=
  match goal with
  | |- context [check_permissions ?ps ?m ?c ?st] =>
      destruct (check_permissions ps m c st) as [[?e|[]] ?st1] eqn:Hperm;
      rewrite (check_permissions_inv _ _ _ _ _ _ Hperm); [apply NoWrite|]
  end.

Lemma create_event_effect (users : list User) (c : Caller)
    (data : EventCreateUpdateSerializer.Data) (st : Store) :
  Effect users c st (store_after (EventViewSet.create c data st)).
Proof.
  unfold store_after, EventViewSet.create. unfold bind at 1.
  after_permissions Hperm.
  destruct (EventCreateUpdateSerializer.is_valid None false data)
    as [e|attrs] eqn:Hv; [apply NoWrite|].
  destruct (is_valid_create_times _ _ Hv) as (s & e & Hs & He & Hlt).
  unfold bind_exn, EventViewSet.perform_create.
  destruct c as [|u]; [apply NoWrite|].
  unfold EventCreateUpdateSerializer.create. run_monad.
  apply EventCreated; simpl; try reflexivity.
  now rewrite Hs, He.
Qed.

Lemma update_event_effect (users : list User) (partial : bool) (c : Caller)
    (q : Event.t -> bool) (k : pk) (data : EventCreateUpdateSerializer.Data)
    (st : Store) :
  Effect users c st (store_after (EventViewSet.update partial c q k data st)).
Proof.
  unfold store_after, EventViewSet.update.
  set (m := if partial then PATCH else PUT).
  assert (Hm : is_safe m = false) by (now destruct partial).
  unfold bind at 1. after_permissions Hperm.
  unfold bind at 1.
  destruct (EventViewSet.get_object EventViewSet.permission_classes m c q k st)
    as [[e|obj] st2] eqn:Hget;
    destruct (get_object_inv _ _ _ _ _ _ _ _ Hget) as [-> Hobj]; [apply NoWrite|].
  destruct (Hobj obj eq_refl) as (Hin & Hid & _ & _ & Hp).
  destruct (EventCreateUpdateSerializer.is_valid (Some obj) partial data)
    as [e|attrs] eqn:Hv; [apply NoWrite|].
  unfold bind_exn, EventCreateUpdateSerializer.update. run_monad.
  match goal with
  | |- Effect _ _ _ (mkStore (map (fun e => if _ =? _ then ?new else e) _) _ _) =>
      change (Effect users c st (write_event new st))
  end.
  apply (EventUpdated users c st obj); try reflexivity; try assumption.
  - exact (organizer_permission m c obj Hm Hp).
  - simpl. exact (is_valid_update_times _ _ _ _ Hv).
Qed.

Lemma destroy_event_effect (users : list User) (c : Caller) (q : Event.t -> bool)
    (k : pk) (st : Store) :
  Effect users c st (store_after (EventViewSet.destroy c q k st)).
Proof.
  unfold store_after, EventViewSet.destroy. unfold bind at 1.
  after_permissions Hperm.
  unfold bind at 1.
  destruct (EventViewSet.get_object EventViewSet.permission_classes DELETE c q k st)
    as [[e|obj] st2] eqn:Hget;
    destruct (get_object_inv _ _ _ _ _ _ _ _ Hget) as [-> Hobj]; [apply NoWrite|].
  destruct (Hobj obj eq_refl) as (Hin & Hid & _ & _ & Hp).
  unfold EventViewSet.perform_destroy. run_monad.
  change (Effect users c st (without_event (Event.id obj) st)).
  apply EventDestroyed; [assumption|].
  exact (organizer_permission DELETE c obj eq_refl Hp).
Qed.

Lemma rsvp_is_valid_status (data : RSVPSerializer.Data) (attrs : option string) :
  RSVPSerializer.is_valid data = inr attrs ->
  forall s, attrs = Some s -> In s RSVPSerializer.valid_statuses.
Proof.
  unfold RSVPSerializer.is_valid, RSVPSerializer.ChoiceField,
    RSVPSerializer.validate_status.
  destruct (RSVPSerializer.status data) as [raw|]; [|intros [= <-]; discriminate].
  destruct (existsb (String.eqb raw) RSVPSerializer.valid_statuses) eqn:Hex;
    [|discriminate].
  cbv beta iota. rewrite Hex. cbv beta iota delta [negb].
  intros [= <-] s [= <-].
  apply existsb_exists in Hex. destruct Hex as (x & Hx & Heq).
  apply String.eqb_eq in Heq. now subst.
Qed.

Lemma rsvp_effect (users : list User) (m : Method) (c : Caller)
    (q : Event.t -> bool) (k : pk) (data : RSVPSerializer.Data) (st : Store) :
  Effect users c st (store_after (EventViewSet.rsvp m c q k data st)).
Proof.
  unfold store_after, EventViewSet.rsvp. unfold bind at 1.
  after_permissions Hperm.
  unfold bind at 1.
  destruct (EventViewSet.get_object [IsAuthenticated] m c q k st)
    as [[e|E] st2] eqn:Hget;
    destruct (get_object_inv _ _ _ _ _ _ _ _ Hget) as [-> Hobj]; [apply NoWrite|].
  destruct (Hobj E eq_refl) as (Hin & Hid & Hsc & _).
  destruct c as [|u]; [apply NoWrite|].
  unfold EventViewSet.get_or_create.
  unfold bind at 1. unfold bind at 1. unfold gets at 1.
  fold (rsvps_of (Event.id E) u st).
  destruct (rsvps_of (Event.id E) u st) as [|row [|row' rest]] eqn:Hrows.
  - run_monad.
    apply (RsvpCreated users (AuthUser u) st E); simpl; auto.
  - assert (Hrow : In row (rsvps_of (Event.id E) u st)) by (rewrite Hrows; now left).
    apply filter_In in Hrow. destruct Hrow as [Hrow Hkey].
    apply rsvp_key_match in Hkey. injection Hkey as Hev Hu.
    unfold ret at 1. cbv beta iota delta [negb].
    destruct (RSVPSerializer.is_valid data) as [e|attrs] eqn:Hv; [apply NoWrite|].
    unfold bind_exn, RSVPSerializer.update. run_monad.
    change (Effect users (AuthUser u) st
              (write_rsvp (set_status row (from_option (RSVP.status row) attrs)) st)).
    apply RsvpUpdated; [assumption|now rewrite Hu|].
    destruct attrs as [s|]; [right|now left].
    exact (rsvp_is_valid_status _ _ Hv s eq_refl).
  - run_monad. apply NoWrite.
Qed.

Lemma review_is_valid_rating (data : ReviewSerializer.Data)
    (attrs : ReviewSerializer.Attrs) :
  ReviewSerializer.is_valid data = inr attrs ->
  1 <= ReviewSerializer.a_rating attrs <= 5.
Proof.
  unfold ReviewSerializer.is_valid, ReviewSerializer.validate_rating,
    ReviewSerializer.MinValueValidator, ReviewSerializer.MaxValueValidator.
  destruct (run_field false false (ReviewSerializer.user_id data));
    [discriminate|].
  destruct (run_field true false (ReviewSerializer.rating data)) as [|[r|]];
    [discriminate| |discriminate].
  destruct (run_field false false (ReviewSerializer.comment data));
    [discriminate|].
  destruct (Z.leb_spec 1 r), (Z.leb_spec r 5); simpl; try discriminate.
  intros [= <-]. simpl. lia.
Qed.

Lemma exists_filter_false {A} (p : A -> bool) (l : list A) :
  exists_ (filter p l) = false -> filter p l = [].
Proof. destruct (filter p l); [reflexivity|discriminate]. Qed.

Lemma reviews_post_effect (users : list User) (c : Caller) (q : Event.t -> bool)
    (k : pk) (data : ReviewSerializer.Data) (st : Store) :
  Effect users c st (store_after (EventViewSet.reviews_post c q k data st)).
Proof.
  unfold store_after, EventViewSet.reviews_post. unfold bind at 1.
  after_permissions Hperm.
  unfold bind at 1.
  destruct (EventViewSet.get_object [IsAuthenticatedOrReadOnly] POST c q k st)
    as [[e|E] st2] eqn:Hget;
    destruct (get_object_inv _ _ _ _ _ _ _ _ Hget) as [-> Hobj]; [apply NoWrite|].
  destruct (Hobj E eq_refl) as (Hin & Hid & Hsc & _).
  unfold bind at 1. unfold gets at 1.
  destruct (exists_ _) eqn:Halready; [apply NoWrite|].
  apply exists_filter_false in Halready.
  destruct (ReviewSerializer.is_valid data) as [e|attrs] eqn:Hv; [apply NoWrite|].
  pose proof (review_is_valid_rating _ _ Hv) as Hrating.
  unfold bind_exn, ReviewSerializer.create. simpl.
  destruct c as [|u]; [apply NoWrite|].
  unfold ReviewSerializer.insert.
  unfold bind at 1. unfold bind at 1. unfold gets at 1.
  destruct (existsb _ (reviews st)); [apply NoWrite|].
  run_monad.
  apply (ReviewCreated users (AuthUser u) st E); simpl; auto.
Qed.

(** ReviewViewSet.create writes nothing and never answers 201. *)
Lemma review_create_run (c : Caller) (data : ReviewSerializer.Data) (st : Store) :
  exists e, ReviewViewSet.create c data st = (inl e, st).
Proof.
  unfold ReviewViewSet.create. unfold bind at 1.
  destruct (check_permissions ReviewViewSet.permission_classes POST c st)
    as [[e|[]] st1] eqn:Hperm;
    rewrite (check_permissions_inv _ _ _ _ _ _ Hperm); [now exists e|].
  destruct (ReviewSerializer.is_valid data) as [e|attrs]; [now exists e|].
  unfold bind_exn, ReviewViewSet.perform_create. unfold bind at 1. unfold bind at 1.
  unfold ReviewViewSet.get_event_or_404.
  destruct (ReviewSerializer.event data) as [| |k];
    [eexists; reflexivity|eexists; reflexivity|].
  unfold bind at 1. unfold gets at 1.
  destruct (filter (fun e => Event.id e =? k) (events st)) as [|obj [|obj' rest]];
    [eexists; reflexivity| |eexists; reflexivity].
  unfold ret at 1. unfold bind at 1. unfold gets at 1.
  destruct (exists_ _); eexists; reflexivity.
Qed.

Lemma core_effect (users : list User) (c : Caller) (r : Request) (st : Store) :
  Effect users c st (store_after (dispatch c r st)).
Proof.
  destruct r as [q|q k|data|partial q k data|q k|m q k data|q k|q k data|eid|data];
    simpl.
  - unfold store_after, EventViewSet.list_action. unfold bind at 1.
    after_permissions Hperm. unfold bind at 1. rewrite get_queryset_eq. apply NoWrite.
  - unfold store_after, EventViewSet.retrieve. unfold bind at 1.
    after_permissions Hperm. unfold bind at 1.
    destruct (EventViewSet.get_object _ GET c q k st) as [[e|obj] st2] eqn:Hget;
      destruct (get_object_inv _ _ _ _ _ _ _ _ Hget) as [-> _]; apply NoWrite.
  - apply create_event_effect.
  - apply update_event_effect.
  - apply destroy_event_effect.
  - apply rsvp_effect.
  - unfold store_after, EventViewSet.reviews_get. unfold bind at 1.
    after_permissions Hperm. unfold bind at 1.
    destruct (EventViewSet.get_object _ GET c q k st) as [[e|obj] st2] eqn:Hget;
      destruct (get_object_inv _ _ _ _ _ _ _ _ Hget) as [-> _]; apply NoWrite.
  - apply reviews_post_effect.
  - unfold store_after, ReviewViewSet.list_action. unfold bind at 1.
    after_permissions Hperm. destruct eid; apply NoWrite.
  - destruct (review_create_run c data st) as [e He].
    unfold store_after. rewrite He. apply NoWrite.
Qed.

(** ** Review detail routes *)

Lemma review_get_object_inv (event_id : option pk) (k : pk) (st st' : Store)
    (r : Exn + Review.t) :
  ReviewDetail.get_object event_id k st = (r, st') ->
  st' = st /\
  forall obj, r = inr obj ->
    In obj (reviews st) /\ Review.id obj = k /\
    (forall e, event_id = Some e -> Review.event obj = e).
Proof.
  unfold ReviewDetail.get_object, ReviewViewSet.get_queryset.
  unfold bind at 1. unfold bind at 1. unfold gets at 1.
  set (qs := match event_id with
             | Some e => filter (fun r => Review.event r =? e) (reviews st)
             | None => reviews st
             end).
  assert (Hqs : forall x, In x qs ->
            In x (reviews st) /\ forall e, event_id = Some e -> Review.event x = e).
  { intros x Hx. unfold qs in Hx. destruct event_id as [e|].
    - apply filter_In in Hx. destruct Hx as [Hx He]. apply Z.eqb_eq in He.
      split; [assumption|]. now intros e' [= <-].
    - split; [assumption|discriminate]. }
  replace ((match event_id with
            | Some k0 => ret (filter (fun r0 => Review.event r0 =? k0) (reviews st))
            | None => ret (reviews st)
            end) st) with (@inr Exn _ qs, st) by (unfold qs; now destruct event_id).
  destruct (filter (fun r => Review.id r =? k) qs) as [|obj [|obj' rest]] eqn:Hf.
  - run_monad. intros [= <- <-]. split; [reflexivity|discriminate].
  - assert (Hobj : In obj (filter (fun r => Review.id r =? k) qs))
      by (rewrite Hf; now left).
    apply filter_In in Hobj. destruct Hobj as [Hobj Hk]. apply Z.eqb_eq in Hk.
    run_monad. intros [= <- <-]. split; [reflexivity|].
    intros o [= <-]. destruct (Hqs obj Hobj). auto.
  - run_monad. intros [= <- <-]. split; [reflexivity|discriminate].
Qed.

Lemma review_update_is_valid_rating (partial : bool) (data : ReviewSerializer.Data)
    (attrs : ReviewUpdate.Attrs) :
  ReviewUpdate.is_valid partial data = inr attrs ->
  forall r, ReviewUpdate.a_rating attrs = Some r -> 1 <= r <= 5.
Proof.
  unfold ReviewUpdate.is_valid, ReviewSerializer.validate_rating,
    ReviewSerializer.MinValueValidator, ReviewSerializer.MaxValueValidator.
  destruct (run_field false partial (ReviewSerializer.user_id data));
    [discriminate|].
  destruct (run_field true partial (ReviewSerializer.rating data)) as [|[r|]];
    [discriminate| |].
  - destruct (run_field false partial (ReviewSerializer.comment data));
      [discriminate|].
    destruct (Z.leb_spec 1 r), (Z.leb_spec r 5); simpl; try discriminate.
    intros [= <-] r' [= <-]. lia.
  - destruct (run_field false partial (ReviewSerializer.comment data));
      [discriminate|].
    intros [= <-] r' [=].
Qed.

Lemma review_update_effect (users : list User) (partial : bool) (c : Caller)
    (event_id : option pk) (k : pk) (data : ReviewSerializer.Data) (st : Store) :
  Effect users c st
    (store_after (ReviewDetail.update users partial c event_id k data st)).
Proof.
  unfold store_after, ReviewDetail.update.
  set (m := if partial then PATCH else PUT).
  unfold bind at 1. after_permissions Hperm.
  unfold bind at 1.
  destruct (ReviewDetail.get_object event_id k st) as [[e|review] st2] eqn:Hget;
    destruct (review_get_object_inv _ _ _ _ _ Hget) as [-> Hobj]; [apply NoWrite|].
  destruct (Hobj review eq_refl) as (Hin & Hid & _).
  destruct (user_eq (Review.user review) c) eqn:Hown;
    cbv beta iota delta [negb]; [|apply NoWrite].
  apply user_eq_true_iff in Hown.
  unfold bind at 1. rewrite Hget.
  destruct (ReviewUpdate.is_valid partial data) as [e|attrs] eqn:Hv; [apply NoWrite|].
  unfold bind_exn, ReviewUpdate.update.
  unfold bind at 1. unfold bind at 1. unfold gets at 1.
  set (new := Review.mk (Review.id review) (Review.event review)
                (from_option (Review.user review) (ReviewUpdate.a_user_id attrs))
                (from_option (Review.rating review) (ReviewUpdate.a_rating attrs))
                (from_option (Review.comment review) (ReviewUpdate.a_comment attrs))).
  destruct (negb (existsb (Z.eqb (Review.user new)) users)) eqn:Hfk;
    [apply NoWrite|].
  destruct (existsb _ (reviews st)) eqn:Huniq; [apply NoWrite|].
  run_monad.
  change (Effect users c st (write_review new st)).
  apply (ReviewUpdated users c st review new); try reflexivity; try assumption.
  - unfold new. simpl.
    destruct (ReviewUpdate.a_rating attrs) as [r|] eqn:Hr; [right|now left].
    exact (review_update_is_valid_rating _ _ _ Hv r Hr).
  - apply negb_false_iff, existsb_exists in Hfk.
    destruct Hfk as (x & Hx & Heq). apply Z.eqb_eq in Heq. now rewrite Heq.
  - intros r Hr Hneq Hkey.
    assert (Hyes : existsb
              (fun r0 => negb (Review.id r0 =? Review.id new)
                         && (Review.event r0 =? Review.event new)
                         && (Review.user r0 =? Review.user new)) (reviews st) = true).
    { apply existsb_exists. exists r. split; [assumption|].
      unfold review_key in Hkey. injection Hkey as -> ->.
      rewrite !Z.eqb_refl, !andb_true_r. apply negb_true_iff, Z.eqb_neq.
      exact Hneq. }
    congruence.
Qed.

Lemma review_destroy_effect (users : list User) (c : Caller)
    (event_id : option pk) (k : pk) (st : Store) :
  Effect users c st (store_after (ReviewDetail.destroy c event_id k st)).
Proof.
  unfold store_after, ReviewDetail.destroy.
  unfold bind at 1. after_permissions Hperm.
  unfold bind at 1.
  destruct (ReviewDetail.get_object event_id k st) as [[e|review] st2] eqn:Hget;
    destruct (review_get_object_inv _ _ _ _ _ Hget) as [-> Hobj]; [apply NoWrite|].
  destruct (Hobj review eq_refl) as (Hin & Hid & _).
  destruct (user_eq (Review.user review) c) eqn:Hown;
    cbv beta iota delta [negb]; [|apply NoWrite].
  apply user_eq_true_iff in Hown.
  unfold bind at 1. rewrite Hget.
  unfold ReviewDetail.perform_destroy. run_monad.
  change (Effect users c st (without_review (Review.id review) st)).
  now apply ReviewDestroyed.
Qed.

Lemma rsvp_get_queryset_inv (c : Caller) (st st' : Store) (r : Exn + list RSVP.t) :
  RSVPViewSet.get_queryset c st = (r, st') -> st' = st.
Proof.
  unfold RSVPViewSet.get_queryset. destruct c; run_monad; now intros [= _ <-].
Qed.

(** Every request does nothing or one of the writes of [Effect]. *)
Theorem route_effect (users : list User) (c : Caller) (r : Route) (st : Store) :
  Effect users c st (route_store users c r st).
Proof.
  destruct r as [r| |k|eid k|partial eid k data|eid k]; simpl.
  - apply core_effect.
  - unfold store_after, RSVPViewSet.list_action. unfold bind at 1.
    after_permissions Hperm. unfold bind at 1.
    destruct (RSVPViewSet.get_queryset c st) as [[e|qs] st2] eqn:Hq;
      rewrite (rsvp_get_queryset_inv _ _ _ _ Hq); apply NoWrite.
  - unfold store_after, RSVPViewSet.retrieve. unfold bind at 1.
    after_permissions Hperm. unfold bind at 1. unfold RSVPViewSet.get_object.
    unfold bind at 1.
    destruct (RSVPViewSet.get_queryset c st) as [[e|qs] st2] eqn:Hq;
      rewrite (rsvp_get_queryset_inv _ _ _ _ Hq); [apply NoWrite|].
    destruct (filter (fun r => RSVP.id r =? k) qs) as [|obj [|obj' rest]];
      apply NoWrite.
  - unfold store_after, ReviewDetail.retrieve. unfold bind at 1.
    after_permissions Hperm. unfold bind at 1.
    destruct (ReviewDetail.get_object eid k st) as [[e|obj] st2] eqn:Hget;
      destruct (review_get_object_inv _ _ _ _ _ Hget) as [-> _]; apply NoWrite.
  - apply review_update_effect.
  - apply review_destroy_effect.
Qed.

(** * Invariants *)

Lemma NoDup_map_on {A B} (h : A -> B) (l : list A) :
  NoDup l -> (forall x y, In x l -> In y l -> h x = h y -> x = y) ->
  NoDup (map h l).
Proof.
  induction l as [|a l IH]; simpl; intros Hnd Hinj; [constructor|].
  inversion Hnd as [|a' l' Hfresh Hnd']; subst. constructor.
  - intros Hin. apply in_map_iff in Hin. destruct Hin as (y & Hy & Hyl).
    assert (y = a) by (apply Hinj; auto). subst. contradiction.
  - apply IH; [assumption|]. intros x y Hx Hy. apply Hinj; auto.
Qed.

Lemma NoDup_of_keys {A B} (key : A -> B) (l : list A) :
  NoDup (map key l) -> NoDup l.
Proof.
  induction l as [|a l IH]; simpl; intros Hnd; [constructor|].
  inversion Hnd as [|k ks Hfresh Hnd']; subst. constructor; [|now apply IH].
  intros Hin. apply Hfresh. now apply in_map.
Qed.

Lemma map_replace_same_key {A K} (key ident : A -> K) (eqb : A -> bool) (new : A)
    (l : list A) :
  (forall x, In x l -> eqb x = true -> key new = key x) ->
  map key (map (fun x => if eqb x then new else x) l) = map key l.
Proof.
  intros Hsame. rewrite map_map. apply map_ext_in. intros x Hx.
  destruct (eqb x) eqn:He; [now apply Hsame|reflexivity].
Qed.

Lemma write_review_constraints (st : Store) (old new : Review.t) :
  store_ok st -> In old (reviews st) ->
  Review.id new = Review.id old ->
  (forall r, In r (reviews st) -> Review.id r <> Review.id old ->
             review_key r <> review_key new) ->
  store_ok (write_review new st).
Proof.
  intros Hok Hold Hid Huniq. pose proof Hok as [H1 H2 H3 H4 H5].
  set (f := fun x => if Review.id x =? Review.id new then new else x).
  assert (Hf : forall x, In x (reviews st) ->
                 (x = old /\ f x = new) \/ (Review.id x <> Review.id old /\ f x = x)).
  { intros x Hx. unfold f. rewrite Hid.
    destruct (Z.eqb_spec (Review.id x) (Review.id old)) as [Heq|Hneq].
    - left. split; [|reflexivity]. exact (NoDup_map_eq _ _ _ _ H3 Hx Hold Heq).
    - right. now split. }
  constructor; try assumption; unfold write_review; simpl; fold f.
  - rewrite map_map. erewrite map_ext_in; [exact H3|].
    intros x Hx. destruct (Hf x Hx) as [[-> ->]|[_ ->]]; [exact Hid|reflexivity].
  - rewrite map_map. apply NoDup_map_on; [exact (NoDup_of_keys _ _ H3)|].
    intros x y Hx Hy Hkey.
    change (review_key (f x) = review_key (f y)) in Hkey.
    destruct (Hf x Hx) as [[Hxo Hfx]|[Hnx Hfx]], (Hf y Hy) as [[Hyo Hfy]|[Hny Hfy]];
      rewrite Hfx, Hfy in Hkey.
    + congruence.
    + exfalso. exact (Huniq y Hy Hny (eq_sym Hkey)).
    + exfalso. exact (Huniq x Hx Hnx Hkey).
    + exact (NoDup_map_eq _ _ _ _ H5 Hx Hy Hkey).
Qed.

Lemma reviews_of_none (st : Store) (k : pk) (u : User) :
  reviews_of k u st = [] -> ~ In (k, u) (map review_key (reviews st)).
Proof.
  unfold reviews_of. intros Hnone Hin.
  apply in_map_iff in Hin. destruct Hin as (r & Hkey & Hr).
  assert (H : In r (filter (fun r => (Review.event r =? k) && (Review.user r =? u))
                           (reviews st))).
  { apply filter_In. split; [assumption|].
    unfold review_key in Hkey. injection Hkey as -> ->. now rewrite !Z.eqb_refl. }
  now rewrite Hnone in H.
Qed.

Lemma effect_constraints (users : list User) (c : Caller) (st st' : Store) :
  store_ok st -> Effect users c st st' -> store_ok st'.
Proof.
  intros Hok Heff. pose proof Hok as [H1 H2 H3 H4 H5].
  destruct Heff as [ |obj Hc Hid Ht |old new Hold Hc Hid Horg Ht |old Hold Hc
                   |E row HE Hsc Hc Hev Hid Hnone |old s Hold Hc Hs
                   |E row HE Hsc Hc Hev Hid Hrate Hnone
                   |old new Hold Hc Hid Hev Hrate Hfk Huniq |old Hold Hc].
  - assumption.
  - constructor; simpl; try assumption.
    rewrite map_app. simpl. apply NoDup_snoc; [assumption|].
    rewrite Hid. apply next_pk_fresh.
  - constructor; simpl; try assumption.
    rewrite map_map. erewrite map_ext; [exact H1|].
    intros x. simpl.
    destruct (Z.eqb_spec (Event.id x) (Event.id new)); [congruence|reflexivity].
  - constructor; simpl; now apply NoDup_keys_filter.
  - constructor; simpl; try assumption; rewrite map_app; simpl;
      (apply NoDup_snoc; [assumption|]).
    + rewrite Hid. apply next_pk_fresh.
    + change (rsvp_key row) with (RSVP.event row, RSVP.user row).
      rewrite Hev. now apply rsvps_of_none.
  - exact (write_rsvp_ok st old (set_status old s) Hok Hold eq_refl eq_refl).
  - constructor; simpl; try assumption; rewrite map_app; simpl;
      (apply NoDup_snoc; [assumption|]).
    + rewrite Hid. apply next_pk_fresh.
    + change (review_key row) with (Review.event row, Review.user row).
      rewrite Hev. now apply reviews_of_none.
  - now apply (write_review_constraints st old).
  - constructor; simpl; try assumption; now apply NoDup_keys_filter.
Qed.

Lemma effect_times (users : list User) (c : Caller) (st st' : Store) :
  times_ok st -> Effect users c st st' -> times_ok st'.
Proof.
  intros Hok Heff. unfold times_ok in *.
  destruct Heff as [ |obj Hc Hid Ht |old new Hold Hc Hid Horg Ht |old Hold Hc
                   |E row HE Hsc Hc Hev Hid Hnone |old s Hold Hc Hs
                   |E row HE Hsc Hc Hev Hid Hrate Hnone
                   |old new Hold Hc Hid Hev Hrate Hfk Huniq |old Hold Hc];
    simpl; try assumption.
  - intros e He. apply in_app_iff in He. destruct He as [He|[<-|[]]]; auto.
  - intros e He. apply in_map_iff in He. destruct He as (x & Hx & Hxin).
    destruct (Event.id x =? Event.id new); subst; auto.
  - intros e He. apply filter_In in He. now apply Hok.
Qed.

Lemma effect_ratings (users : list User) (c : Caller) (st st' : Store) :
  ratings_ok st -> Effect users c st st' -> ratings_ok st'.
Proof.
  intros Hok Heff. unfold ratings_ok in *.
  destruct Heff as [ |obj Hc Hid Ht |old new Hold Hc Hid Horg Ht |old Hold Hc
                   |E row HE Hsc Hc Hev Hid Hnone |old s Hold Hc Hs
                   |E row HE Hsc Hc Hev Hid Hrate Hnone
                   |old new Hold Hc Hid Hev Hrate Hfk Huniq |old Hold Hc];
    simpl; try assumption.
  - intros r Hr. apply filter_In in Hr. now apply Hok.
  - intros r Hr. apply in_app_iff in Hr. destruct Hr as [Hr|[<-|[]]]; auto.
  - intros r Hr. apply in_map_iff in Hr. destruct Hr as (x & Hx & Hxin).
    destruct (Review.id x =? Review.id new); subst; auto.
    destruct Hrate as [->|Hr]; auto.
  - intros r Hr. apply filter_In in Hr. now apply Hok.
Qed.

Lemma in_ids_filter (k : pk) (evs : list Event.t) (j : pk) :
  In j (map Event.id evs) -> j <> k ->
  In j (map Event.id (filter (fun e => negb (Event.id e =? k)) evs)).
Proof.
  intros Hin Hneq. apply in_map_iff in Hin. destruct Hin as (e & He & Hein).
  apply in_map_iff. exists e. split; [assumption|].
  apply filter_In. split; [assumption|]. apply negb_true_iff, Z.eqb_neq. congruence.
Qed.

Lemma effect_refs (users : list User) (c : Caller) (st st' : Store) :
  refs_ok st -> Effect users c st st' -> refs_ok st'.
Proof.
  intros [Hrs Hrv] Heff.
  destruct Heff as [ |obj Hc Hid Ht |old new Hold Hc Hid Horg Ht |old Hold Hc
                   |E row HE Hsc Hc Hev Hid Hnone |old s Hold Hc Hs
                   |E row HE Hsc Hc Hev Hid Hrate Hnone
                   |old new Hold Hc Hid Hev Hrate Hfk Huniq |old Hold Hc];
    unfold refs_ok; simpl.
  - now split.
  - split; intros r Hr; rewrite map_app; apply in_app_iff; left; auto.
  - assert (Hids : map Event.id
                     (map (fun x => if Event.id x =? Event.id new then new else x)
                          (events st)) = map Event.id (events st)).
    { rewrite map_map. apply map_ext. intros x.
      destruct (Z.eqb_spec (Event.id x) (Event.id new)); [congruence|reflexivity]. }
    rewrite Hids. now split.
  - split; intros r Hr; apply filter_In in Hr; destruct Hr as [Hr Hne];
      apply negb_true_iff, Z.eqb_neq in Hne; apply in_ids_filter; auto.
  - split; [|assumption]. intros r Hr. apply in_app_iff in Hr.
    destruct Hr as [Hr|[<-|[]]]; [auto|]. rewrite Hev. now apply in_map.
  - split; [|assumption]. intros r Hr. apply in_map_iff in Hr.
    destruct Hr as (x & Hx & Hxin).
    subst r. destruct (_ =? _); simpl; auto.
  - split; [assumption|]. intros r Hr. apply in_app_iff in Hr.
    destruct Hr as [Hr|[<-|[]]]; [auto|]. rewrite Hev. now apply in_map.
  - split; [assumption|]. intros r Hr. apply in_map_iff in Hr.
    destruct Hr as (x & Hx & Hxin).
    destruct (Review.id x =? Review.id new); subst; auto.
    rewrite Hev. auto.
  - split; [assumption|]. intros r Hr. apply filter_In in Hr. now apply Hrv.
Qed.

Lemma effect_anonymous (users : list User) (st st' : Store) :
  Effect users AnonymousUser st st' -> st' = st.
Proof. intros Heff. destruct Heff; try reflexivity; discriminate. Qed.

Lemma effect_events_of_others (users : list User) (c : Caller) (st st' : Store)
    (E : Event.t) :
  store_ok st -> Effect users c st st' ->
  In E (events st) -> c <> AuthUser (Event.organizer E) -> In E (events st').
Proof.
  intros Hok Heff HE Hc.
  assert (Hother : forall old, In old (events st) ->
            c = AuthUser (Event.organizer old) -> Event.id E <> Event.id old).
  { intros old Hold Hcold Hid.
    rewrite (NoDup_map_eq _ _ _ _ (event_pk_unique st Hok) HE Hold Hid) in Hc.
    contradiction. }
  destruct Heff as [ |obj Hc' Hid Ht |old new Hold Hc' Hid Horg Ht |old Hold Hc'
                   |E' row HE' Hsc Hc' Hev Hid Hnone |old s Hold Hc' Hs
                   |E' row HE' Hsc Hc' Hev Hid Hrate Hnone
                   |old new Hold Hc' Hid Hev Hrate Hfk Huniq |old Hold Hc'];
    simpl; try assumption.
  - apply in_app_iff. now left.
  - apply in_map_iff. exists E. split; [|assumption].
    rewrite Hid.
    destruct (Z.eqb_spec (Event.id E) (Event.id old)) as [Heq|]; [|reflexivity].
    exfalso. exact (Hother old Hold Hc' Heq).
  - apply filter_In. split; [assumption|].
    apply negb_true_iff, Z.eqb_neq. exact (Hother old Hold Hc').
Qed.

Lemma not_in_ids_filter (k : pk) (evs : list Event.t) :
  ~ In k (map Event.id (filter (fun e => negb (Event.id e =? k)) evs)).
Proof.
  intros Hin. apply in_map_iff in Hin. destruct Hin as (e & He & Hein).
  apply filter_In in Hein. destruct Hein as [_ Hne].
  apply negb_true_iff, Z.eqb_neq in Hne. contradiction.
Qed.

Lemma effect_rsvps_of_others (users : list User) (c : Caller) (st st' : Store)
    (r : RSVP.t) :
  store_ok st -> Effect users c st st' ->
  In r (rsvps st) -> c <> AuthUser (RSVP.user r) ->
  In r (rsvps st') \/ ~ In (RSVP.event r) (map Event.id (events st')).
Proof.
  intros Hok Heff Hr Hc.
  destruct Heff as [ |obj Hc' Hid Ht |old new Hold Hc' Hid Horg Ht |old Hold Hc'
                   |E' row HE' Hsc Hc' Hev Hid Hnone |old s Hold Hc' Hs
                   |E' row HE' Hsc Hc' Hev Hid Hrate Hnone
                   |old new Hold Hc' Hid Hev Hrate Hfk Huniq |old Hold Hc'];
    simpl; try (now left).
  - destruct (Z.eqb_spec (RSVP.event r) (Event.id old)) as [Heq|Hneq].
    + right. rewrite Heq. apply not_in_ids_filter.
    + left. apply filter_In. split; [assumption|].
      now apply negb_true_iff, Z.eqb_neq.
  - left. apply in_app_iff. now left.
  - left. apply in_map_iff. exists r. split; [|assumption].
    destruct (Z.eqb_spec (RSVP.id r) (RSVP.id old)) as [Heq|]; [|reflexivity].
    exfalso.
    rewrite (NoDup_map_eq _ _ _ _ (rsvp_pk_unique st Hok) Hr Hold Heq) in Hc.
    contradiction.
Qed.

Lemma effect_reviews_of_others (users : list User) (c : Caller) (st st' : Store)
    (r : Review.t) :
  store_ok st -> Effect users c st st' ->
  In r (reviews st) -> c <> AuthUser (Review.user r) ->
  In r (reviews st') \/ ~ In (Review.event r) (map Event.id (events st')).
Proof.
  intros Hok Heff Hr Hc.
  assert (Hother : forall old, In old (reviews st) ->
            c = AuthUser (Review.user old) -> Review.id r <> Review.id old).
  { intros old Hold Hcold Hid.
    rewrite (NoDup_map_eq _ _ _ _ (review_pk_unique st Hok) Hr Hold Hid) in Hc.
    contradiction. }
  destruct Heff as [ |obj Hc' Hid Ht |old new Hold Hc' Hid Horg Ht |old Hold Hc'
                   |E' row HE' Hsc Hc' Hev Hid Hnone |old s Hold Hc' Hs
                   |E' row HE' Hsc Hc' Hev Hid Hrate Hnone
                   |old new Hold Hc' Hid Hev Hrate Hfk Huniq |old Hold Hc'];
    simpl; try (now left).
  - destruct (Z.eqb_spec (Review.event r) (Event.id old)) as [Heq|Hneq].
    + right. rewrite Heq. apply not_in_ids_filter.
    + left. apply filter_In. split; [assumption|].
      now apply negb_true_iff, Z.eqb_neq.
  - left. apply in_app_iff. now left.
  - left. apply in_map_iff. exists r. split; [|assumption].
    rewrite Hid.
    destruct (Z.eqb_spec (Review.id r) (Review.id old)) as [Heq|]; [|reflexivity].
    exfalso. exact (Hother old Hold Hc' Heq).
  - left. apply filter_In. split; [assumption|].
    apply negb_true_iff, Z.eqb_neq. exact (Hother old Hold Hc').
Qed.

(** * Properties of every sequence of requests *)

(** X1: primary keys stay unique and no (event, user) pair gets a second
    RSVP or a second review, whatever requests are served. *)
Theorem requests_keep_constraints (users : list User)
    (reqs : list (Caller * Route)) (st : Store) :
  store_ok st -> store_ok (serve_routes users reqs st).
Proof.
  revert st. induction reqs as [|[c r] rest IH]; simpl; intros st Hok;
    [assumption|].
  apply IH. exact (effect_constraints users c st _ Hok (route_effect users c r st)).
Qed.

(** X2: every stored event ends after it starts, whatever requests are
    served. *)
Theorem requests_keep_times (users : list User)
    (reqs : list (Caller * Route)) (st : Store) :
  times_ok st -> times_ok (serve_routes users reqs st).
Proof.
  revert st. induction reqs as [|[c r] rest IH]; simpl; intros st Hok;
    [assumption|].
  apply IH. exact (effect_times users c st _ Hok (route_effect users c r st)).
Qed.

(** X3: every stored rating is between 1 and 5, whatever requests are
    served, review updates included. *)
Theorem requests_keep_ratings (users : list User)
    (reqs : list (Caller * Route)) (st : Store) :
  ratings_ok st -> ratings_ok (serve_routes users reqs st).
Proof.
  revert st. induction reqs as [|[c r] rest IH]; simpl; intros st Hok;
    [assumption|].
  apply IH. exact (effect_ratings users c st _ Hok (route_effect users c r st)).
Qed.

(** X4: every RSVP and every review refers to an event of the table,
    whatever requests are served: deleting an event takes its RSVPs and
    reviews along. *)
Theorem requests_keep_references (users : list User)
    (reqs : list (Caller * Route)) (st : Store) :
  refs_ok st -> refs_ok (serve_routes users reqs st).
Proof.
  revert st. induction reqs as [|[c r] rest IH]; simpl; intros st Hok;
    [assumption|].
  apply IH. exact (effect_refs users c st _ Hok (route_effect users c r st)).
Qed.

(** X5: no request of an anonymous caller writes anything. *)
Theorem anonymous_requests_write_nothing (users : list User)
    (reqs : list (Caller * Route)) (st : Store) :
  (forall c r, In (c, r) reqs -> c = AnonymousUser) ->
  serve_routes users reqs st = st.
Proof.
  revert st. induction reqs as [|[c r] rest IH]; simpl; intros st Hanon;
    [reflexivity|].
  assert (c = AnonymousUser) as -> by (apply (Hanon c r); now left).
  rewrite (effect_anonymous users st _ (route_effect users AnonymousUser r st)).
  apply IH. intros c' r' Hin. apply (Hanon c' r'). now right.
Qed.

(** X6: an event stays in the table, unchanged, as long as no request
    comes from its organizer. *)
Theorem events_written_by_organizer_only (users : list User)
    (reqs : list (Caller * Route)) (st : Store) (E : Event.t) :
  store_ok st -> In E (events st) ->
  (forall c r, In (c, r) reqs -> c <> AuthUser (Event.organizer E)) ->
  In E (events (serve_routes users reqs st)).
Proof.
  revert st. induction reqs as [|[c r] rest IH]; simpl; intros st Hok HE Hothers;
    [assumption|].
  pose proof (route_effect users c r st) as Heff.
  apply IH.
  - exact (effect_constraints users c st _ Hok Heff).
  - apply (effect_events_of_others users c st _ E Hok Heff HE).
    apply (Hothers c r). now left.
  - intros c' r' Hin. apply (Hothers c' r'). now right.
Qed.

(** X7: a request of another caller leaves a user's RSVP as it is, unless
    it deletes the event of the RSVP. *)
Theorem rsvps_written_by_owner_only (users : list User) (c : Caller) (r : Route)
    (st : Store) (row : RSVP.t) :
  store_ok st -> In row (rsvps st) -> c <> AuthUser (RSVP.user row) ->
  In row (rsvps (route_store users c r st)) \/
  ~ In (RSVP.event row) (map Event.id (events (route_store users c r st))).
Proof.
  intros Hok Hrow Hc.
  exact (effect_rsvps_of_others users c st _ row Hok (route_effect users c r st) Hrow Hc).
Qed.

(** X8: a request of another caller leaves a user's review as it is,
    unless it deletes the event of the review. *)
Theorem reviews_written_by_author_only (users : list User) (c : Caller) (r : Route)
    (st : Store) (row : Review.t) :
  store_ok st -> In row (reviews st) -> c <> AuthUser (Review.user row) ->
  In row (reviews (route_store users c r st)) \/
  ~ In (Review.event row) (map Event.id (events (route_store users c r st))).
Proof.
  intros Hok Hrow Hc.
  exact (effect_reviews_of_others users c st _ row Hok (route_effect users c r st) Hrow Hc).
Qed.

(** * RSVPs of the caller *)

(** X9: the RSVP listing refuses anonymous callers and gives an
    authenticated caller exactly their own RSVPs; retrieving an RSVP of
    someone else is answered like one that does not exist. *)
Theorem rsvp_views_show_own_rows_only (st : Store) (u : User) :
  RSVPViewSet.list_action AnonymousUser st = (inl NotAuthenticated, st) /\
  (forall k, RSVPViewSet.retrieve AnonymousUser k st = (inl NotAuthenticated, st)) /\
  (exists l,
      RSVPViewSet.list_action (AuthUser u) st = (inr (mkReply HTTP_200_OK l), st) /\
      forall r, In r l <-> In r (rsvps st) /\ RSVP.user r = u) /\
  (forall r,
      store_ok st -> In r (rsvps st) ->
      RSVPViewSet.retrieve (AuthUser u) (RSVP.id r) st =
        if RSVP.user r =? u
        then (inr (mkResponse HTTP_200_OK (RSVPBody r)), st)
        else (inl Http404, st)) /\
  (forall k,
      ~ In k (map RSVP.id (rsvps st)) ->
      RSVPViewSet.retrieve (AuthUser u) k st = (inl Http404, st)).
Proof.
  split; [reflexivity|]. split; [intros k; reflexivity|]. split; [|split].
  - eexists. split; [reflexivity|].
    intros r. rewrite filter_In, Z.eqb_eq. reflexivity.
  - intros r Hok Hr. unfold RSVPViewSet.retrieve.
    rewrite (bind_value _ _ st st tt) by reflexivity.
    unfold RSVPViewSet.get_object, RSVPViewSet.get_queryset. run_monad.
    rewrite filter_filter_comm.
    rewrite (filter_unique_key RSVP.id _ r (rsvp_pk_unique st Hok) Hr). simpl.
    destruct (RSVP.user r =? u); reflexivity.
  - intros k Hk. unfold RSVPViewSet.retrieve.
    rewrite (bind_value _ _ st st tt) by reflexivity.
    unfold RSVPViewSet.get_object, RSVPViewSet.get_queryset. run_monad.
    rewrite filter_filter_comm, (filter_absent_key RSVP.id _ k Hk). reflexivity.
Qed.

Lemma get_user_rsvp_status_eq (u : User) (E : Event.t) (st : Store) :
  get_user_rsvp_status (AuthUser u) E st =
  (inr (option_map RSVP.status (first_newest (rsvps_of (Event.id E) u st))), st).
Proof.
  unfold get_user_rsvp_status, Event_rsvps, rsvps_of.
  unfold bind at 1. unfold gets at 1. rewrite filter_filter_andb.
  destruct (first_newest _); reflexivity.
Qed.

(** X10: the status a caller sends with the rsvp action is the
    [user_rsvp_status] the event detail then shows them, and the row is in
    their RSVP listing; a caller without an RSVP, and an anonymous caller,
    are shown none. *)
Theorem rsvp_status_round_trip (st : Store) (m : Method) (u : User)
    (q : Event.t -> bool) (E : Event.t) (s : string) :
  store_ok st -> In E (events st) -> in_scope (AuthUser u) E = true -> q E = true ->
  In s RSVPSerializer.valid_statuses ->
  let st' := store_after (EventViewSet.rsvp m (AuthUser u) q (Event.id E)
                            (RSVPSerializer.mkData (Some s)) st) in
  get_user_rsvp_status (AuthUser u) E st' = (inr (Some s), st') /\
  (exists l row,
      RSVPViewSet.list_action (AuthUser u) st' = (inr (mkReply HTTP_200_OK l), st') /\
      In row l /\ RSVP.event row = Event.id E /\ RSVP.status row = s) /\
  get_user_rsvp_status AnonymousUser E st' = (inr None, st') /\
  (rsvps_of (Event.id E) u st = [] ->
   get_user_rsvp_status (AuthUser u) E st = (inr None, st)).
Proof.
  intros Hok HE Hsc Hq Hs st'.
  destruct (rsvp_upsert_step st m u q E s Hok HE Hsc Hq Hs)
    as (Hok' & Hev & row & Hrows & Hst).
  fold st' in Hok', Hev, Hrows.
  split; [|split; [|split]].
  - rewrite get_user_rsvp_status_eq, Hrows. simpl. now rewrite Hst.
  - assert (Hrow : In row (rsvps_of (Event.id E) u st')) by (rewrite Hrows; now left).
    apply filter_In in Hrow. destruct Hrow as [Hrow Hkey].
    apply rsvp_key_match in Hkey. injection Hkey as Hre Hru.
    eexists. exists row. split; [reflexivity|].
    split; [|now split].
    apply filter_In. split; [assumption|]. now apply Z.eqb_eq.
  - reflexivity.
  - intros Hnone. now rewrite get_user_rsvp_status_eq, Hnone.
Qed.

(** X11: when the caller already has an RSVP with a valid status, whatever
    payload they send, the rsvp action leaves them one row, the same row,
    with a valid status. *)
Theorem rsvp_update_keeps_status_valid (st : Store) (m : Method) (u : User)
    (q : Event.t -> bool) (E : Event.t) (r : RSVP.t) (data : RSVPSerializer.Data) :
  store_ok st -> In E (events st) -> in_scope (AuthUser u) E = true -> q E = true ->
  In r (rsvps st) -> RSVP.event r = Event.id E -> RSVP.user r = u ->
  In (RSVP.status r) RSVPSerializer.valid_statuses ->
  exists r',
    rsvps_of (Event.id E) u
      (store_after (EventViewSet.rsvp m (AuthUser u) q (Event.id E) data st)) = [r'] /\
    RSVP.id r' = RSVP.id r /\
    In (RSVP.status r') RSVPSerializer.valid_statuses.
Proof.
  intros Hok HE Hsc Hq Hr Hev Hu Hvalid.
  rewrite (rsvp_existing st m u q E Hok HE Hsc Hq data r Hr Hev Hu).
  destruct (RSVPSerializer.is_valid data) as [e|attrs] eqn:Hv.
  - exists r. unfold bind_exn, store_after. simpl.
    rewrite <- Hev, <- Hu. split; [now apply rsvps_of_row|]. now split.
  - exists (set_status r (from_option (RSVP.status r) attrs)).
    unfold bind_exn, RSVPSerializer.update, store_after. run_monad.
    change (mkStore _ _ _)
      with (write_rsvp (set_status r (from_option (RSVP.status r) attrs)) st).
    split; [|split; [reflexivity|]].
    + rewrite <- Hev, <- Hu. now apply write_rsvp_rows.
    + simpl. destruct attrs as [s|]; simpl; [|assumption].
      exact (rsvp_is_valid_status _ _ Hv s eq_refl).
Qed.

(** * Reviews: the detail routes *)

Lemma review_get_object_found (st : Store) (r : Review.t) :
  store_ok st -> In r (reviews st) ->
  ReviewDetail.get_object None (Review.id r) st = (inr r, st).
Proof.
  intros Hok Hr. unfold ReviewDetail.get_object, ReviewViewSet.get_queryset.
  run_monad.
  now rewrite (filter_unique_key Review.id _ r (review_pk_unique st Hok) Hr).
Qed.

Lemma is_author (r : Review.t) :
  user_eq (Review.user r) (AuthUser (Review.user r)) = true.
Proof. simpl. apply Z.eqb_refl. Qed.

Lemma not_author (u : User) (r : Review.t) :
  u <> Review.user r -> user_eq (Review.user r) (AuthUser u) = false.
Proof. intros Hne. simpl. apply Z.eqb_neq. congruence. Qed.

(** X12: POST on the review collection never stores a review: every
    request ends in an exception and the store is as before; a valid first
    review of an existing event ends in the unhandled [KeyError] of
    [ReviewSerializer.create]. *)
Theorem review_collection_post_never_creates (c : Caller)
    (data : ReviewSerializer.Data) (st : Store) :
  (exists e, ReviewViewSet.create c data st = (inl e, st)) /\
  (forall u E attrs,
      c = AuthUser u -> store_ok st -> In E (events st) ->
      ReviewSerializer.event data = Given (Event.id E) ->
      ReviewSerializer.is_valid data = inr attrs ->
      reviews_of (Event.id E) u st = [] ->
      ReviewViewSet.create c data st = (inl (Unhandled "KeyError"), st) /\
      http_status true (outcome (ReviewViewSet.create c data st))
        = HTTP_500_INTERNAL_SERVER_ERROR).
Proof.
  split; [apply review_create_run|].
  intros u E attrs -> Hok HE Hev Hv Hnone.
  assert (Hrun : ReviewViewSet.create (AuthUser u) data st
                 = (inl (Unhandled "KeyError"), st)).
  { unfold ReviewViewSet.create.
    rewrite (bind_value _ _ st st tt) by reflexivity.
    rewrite Hv. unfold bind_exn. apply bind_raise.
    unfold ReviewViewSet.perform_create. rewrite Hev.
    rewrite (bind_value _ _ st st E).
    2:{ unfold ReviewViewSet.get_event_or_404.
        rewrite (bind_value _ _ st st (events st)) by reflexivity.
        now rewrite (filter_unique_key Event.id _ E (event_pk_unique st Hok) HE). }
    rewrite (bind_value _ _ st st false); [reflexivity|].
    unfold gets. f_equal. f_equal.
    change (exists_ (reviews_of (Event.id E) u st) = false). now rewrite Hnone. }
  rewrite Hrun. split; reflexivity.
Qed.

Lemma without_review_rows (st : Store) (r : Review.t) :
  store_ok st -> In r (reviews st) ->
  forall x, In x (reviews (without_review (Review.id r) st)) <->
            In x (reviews st) /\ x <> r.
Proof.
  intros Hok Hr x. unfold without_review. simpl.
  rewrite filter_In, negb_true_iff, Z.eqb_neq. split.
  - intros [Hx Hne]. split; [assumption|]. congruence.
  - intros [Hx Hne]. split; [assumption|]. intros Hid. apply Hne.
    exact (NoDup_map_eq _ _ _ _ (review_pk_unique st Hok) Hx Hr Hid).
Qed.

(** X13: a review is deleted by its author only: the author's DELETE
    removes that row and no other, another authenticated caller gets 403
    and an anonymous one [NotAuthenticated], both without a write. *)
Theorem review_destroy_by_author_only (st : Store) (r : Review.t) :
  store_ok st -> In r (reviews st) ->
  ReviewDetail.destroy (AuthUser (Review.user r)) None (Review.id r) st =
    (inr (mkResponse HTTP_204_NO_CONTENT NoContent),
     without_review (Review.id r) st) /\
  (forall x, In x (reviews (without_review (Review.id r) st)) <->
             In x (reviews st) /\ x <> r) /\
  (forall u, u <> Review.user r ->
     ReviewDetail.destroy (AuthUser u) None (Review.id r) st =
       (inr (mkResponse HTTP_403_FORBIDDEN
               (Detail "You can only delete your own reviews.")), st)) /\
  ReviewDetail.destroy AnonymousUser None (Review.id r) st =
    (inl NotAuthenticated, st).
Proof.
  intros Hok Hr. pose proof (review_get_object_found st r Hok Hr) as Hget.
  split; [|split; [|split]].
  - unfold ReviewDetail.destroy.
    rewrite (bind_value _ _ st st tt) by reflexivity.
    rewrite (bind_value _ _ st st r Hget).
    rewrite is_author. cbv beta iota delta [negb].
    rewrite (bind_value _ _ st st r Hget). reflexivity.
  - now apply without_review_rows.
  - intros u Hne. unfold ReviewDetail.destroy.
    rewrite (bind_value _ _ st st tt) by reflexivity.
    rewrite (bind_value _ _ st st r Hget).
    now rewrite (not_author u r Hne).
  - reflexivity.
Qed.

(** What the update of a review by its author comes to. *)
Lemma review_update_by_author (users : list User) (partial : bool) (st : Store)
    (r : Review.t) (data : ReviewSerializer.Data) :
  store_ok st -> In r (reviews st) ->
  ReviewDetail.update users partial (AuthUser (Review.user r)) None (Review.id r)
    data st =
  bind_exn (ReviewUpdate.is_valid partial data) (fun attrs =>
    obj <- ReviewUpdate.update users r attrs ;;
    ret (mkResponse HTTP_200_OK (ReviewBody obj))) st.
Proof.
  intros Hok Hr. pose proof (review_get_object_found st r Hok Hr) as Hget.
  unfold ReviewDetail.update.
  rewrite (bind_value _ _ st st tt) by (now destruct partial).
  rewrite (bind_value _ _ st st r Hget).
  rewrite is_author. cbv beta iota delta [negb].
  now rewrite (bind_value _ _ st st r Hget).
Qed.

Lemma review_update_rating_rejected (partial : bool) (data : ReviewSerializer.Data)
    (v : Z) :
  ReviewSerializer.rating data = Given v -> v < 1 \/ 5 < v ->
  ReviewUpdate.is_valid partial data = inl ValidationError.
Proof.
  intros Hr Hout. unfold ReviewUpdate.is_valid. rewrite Hr. simpl.
  destruct (run_field false partial (ReviewSerializer.user_id data));
    [reflexivity|].
  destruct (run_field false partial (ReviewSerializer.comment data));
    [reflexivity|].
  unfold ReviewSerializer.MinValueValidator, ReviewSerializer.MaxValueValidator,
    ReviewSerializer.validate_rating.
  destruct (Z.leb_spec 1 v), (Z.leb_spec v 5); simpl; try reflexivity; lia.
Qed.

(** X14: updating a review: a caller who is not the author gets 403, the
    author gets [ValidationError] for a rating outside 1..5, both without a
    write; and no update changes the id or the event of any review,
    whatever the payload says. *)
Theorem review_update_guards (users : list User) (partial : bool) (st : Store)
    (r : Review.t) (data : ReviewSerializer.Data) :
  store_ok st -> In r (reviews st) ->
  (forall u, u <> Review.user r ->
     ReviewDetail.update users partial (AuthUser u) None (Review.id r) data st =
       (inr (mkResponse HTTP_403_FORBIDDEN
               (Detail "You can only edit your own reviews.")), st)) /\
  (forall v, ReviewSerializer.rating data = Given v -> v < 1 \/ 5 < v ->
     ReviewDetail.update users partial (AuthUser (Review.user r)) None (Review.id r)
       data st = (inl ValidationError, st)) /\
  (forall c event_id k,
     map (fun x => (Review.id x, Review.event x))
         (reviews (store_after
            (ReviewDetail.update users partial c event_id k data st))) =
     map (fun x => (Review.id x, Review.event x)) (reviews st)).
Proof.
  intros Hok Hr. pose proof (review_get_object_found st r Hok Hr) as Hget.
  split; [|split].
  - intros u Hne. unfold ReviewDetail.update.
    rewrite (bind_value _ _ st st tt) by (now destruct partial).
    rewrite (bind_value _ _ st st r Hget).
    now rewrite (not_author u r Hne).
  - intros v Hv Hout. rewrite (review_update_by_author users partial st r data Hok Hr).
    now rewrite (review_update_rating_rejected partial data v Hv Hout).
  - intros c event_id k.
    unfold store_after, ReviewDetail.update.
    set (m := if partial then PATCH else PUT).
    unfold bind at 1.
    destruct (check_permissions ReviewViewSet.permission_classes m c st)
      as [[e|[]] st1] eqn:Hperm;
      rewrite (check_permissions_inv _ _ _ _ _ _ Hperm); [reflexivity|].
    unfold bind at 1.
    destruct (ReviewDetail.get_object event_id k st) as [[e|review] st2] eqn:Hg;
      destruct (review_get_object_inv _ _ _ _ _ Hg) as [-> Hobj]; [reflexivity|].
    destruct (Hobj review eq_refl) as (Hin & Hid & _).
    destruct (user_eq (Review.user review) c);
      cbv beta iota delta [negb]; [|reflexivity].
    unfold bind at 1. rewrite Hg.
    destruct (ReviewUpdate.is_valid partial data) as [e|attrs]; [reflexivity|].
    unfold bind_exn, ReviewUpdate.update.
    unfold bind at 1. unfold bind at 1. unfold gets at 1.
    destruct (_ || _); [reflexivity|].
    run_monad. rewrite map_map. apply map_ext_in. intros x Hx.
    destruct (Z.eqb_spec (Review.id x) (Review.id review)) as [Heq|]; [|reflexivity].
    simpl. rewrite <- Heq.
    now rewrite (NoDup_map_eq _ _ _ _ (review_pk_unique st Hok) Hx Hin Heq).
Qed.

Lemma review_destroy_author_run (st : Store) (r : Review.t) :
  store_ok st -> In r (reviews st) ->
  ReviewDetail.destroy (AuthUser (Review.user r)) None (Review.id r) st =
    (inr (mkResponse HTTP_204_NO_CONTENT NoContent),
     without_review (Review.id r) st).
Proof.
  intros Hok Hr. pose proof (review_get_object_found st r Hok Hr) as Hget.
  unfold ReviewDetail.destroy.
  rewrite (bind_value _ _ st st tt) by reflexivity.
  rewrite (bind_value _ _ st st r Hget).
  rewrite is_author. cbv beta iota delta [negb].
  rewrite (bind_value _ _ st st r Hget). reflexivity.
Qed.

Lemma review_destroy_other_run (st : Store) (r : Review.t) (u : User) :
  store_ok st -> In r (reviews st) -> u <> Review.user r ->
  ReviewDetail.destroy (AuthUser u) None (Review.id r) st =
    (inr (mkResponse HTTP_403_FORBIDDEN
            (Detail "You can only delete your own reviews.")), st).
Proof.
  intros Hok Hr Hne. pose proof (review_get_object_found st r Hok Hr) as Hget.
  unfold ReviewDetail.destroy.
  rewrite (bind_value _ _ st st tt) by reflexivity.
  rewrite (bind_value _ _ st st r Hget).
  now rewrite (not_author u r Hne).
Qed.

Lemma review_update_attrs (partial : bool) (data : ReviewSerializer.Data)
    (attrs : ReviewUpdate.Attrs) :
  ReviewUpdate.is_valid partial data = inr attrs ->
  ReviewUpdate.a_user_id attrs =
    match ReviewSerializer.user_id data with
    | Given v => Some v
    | _ => None
    end.
Proof.
  unfold ReviewUpdate.is_valid.
  destruct (run_field false partial (ReviewSerializer.user_id data)) as [|u] eqn:Hu;
    [discriminate|].
  pose proof (run_field_inr _ _ _ _ Hu) as Hu'.
  destruct (run_field true partial (ReviewSerializer.rating data)) as [|[r|]];
    [discriminate| |].
  - destruct (run_field false partial (ReviewSerializer.comment data));
      [discriminate|].
    destruct (_ && _); [|discriminate].
    destruct (ReviewSerializer.validate_rating r); [discriminate|].
    now intros [= <-].
  - destruct (run_field false partial (ReviewSerializer.comment data));
      [discriminate|].
    now intros [= <-].
Qed.

Lemma existsb_false_forall {A} (p : A -> bool) (l : list A) :
  (forall x, In x l -> p x = false) -> existsb p l = false.
Proof.
  induction l as [|a l IH]; simpl; intros H; [reflexivity|].
  rewrite (H a (or_introl eq_refl)). apply IH. intros x Hx. apply H. now right.
Qed.

Lemma reviews_of_none_key (st : Store) (k : pk) (u : User) (x : Review.t) :
  reviews_of k u st = [] -> In x (reviews st) -> review_key x <> (k, u).
Proof.
  intros Hnone Hx Hkey. apply (reviews_of_none st k u Hnone).
  rewrite <- Hkey. now apply in_map.
Qed.

(** X15: the author of a review can hand it to another user: an update
    that sends the [user_id] of an existing user who has not reviewed the
    event makes that user the author.  From then on the former author gets
    403 for the review and the new author can delete it. *)
Theorem review_handover_by_user_id (users : list User) (partial : bool)
    (st : Store) (r : Review.t) (data : ReviewSerializer.Data)
    (attrs : ReviewUpdate.Attrs) (v : User) :
  store_ok st -> In r (reviews st) ->
  ReviewUpdate.is_valid partial data = inr attrs ->
  ReviewSerializer.user_id data = Given v ->
  In v users -> v <> Review.user r ->
  reviews_of (Review.event r) v st = [] ->
  let new := Review.mk (Review.id r) (Review.event r) v
               (from_option (Review.rating r) (ReviewUpdate.a_rating attrs))
               (from_option (Review.comment r) (ReviewUpdate.a_comment attrs)) in
  let st' := write_review new st in
  ReviewDetail.update users partial (AuthUser (Review.user r)) None (Review.id r)
    data st = (inr (mkResponse HTTP_200_OK (ReviewBody new)), st') /\
  In new (reviews st') /\ ~ In r (reviews st') /\
  ReviewDetail.destroy (AuthUser (Review.user r)) None (Review.id r) st' =
    (inr (mkResponse HTTP_403_FORBIDDEN
            (Detail "You can only delete your own reviews.")), st') /\
  ReviewDetail.destroy (AuthUser v) None (Review.id r) st' =
    (inr (mkResponse HTTP_204_NO_CONTENT NoContent),
     without_review (Review.id r) st').
Proof.
  intros Hok Hr Hv Hdata Hv_in Hne Hnone new st'.
  pose proof (review_update_attrs _ _ _ Hv) as Hattrs. rewrite Hdata in Hattrs.
  assert (Huniq : forall x, In x (reviews st) -> Review.id x <> Review.id r ->
                    review_key x <> review_key new).
  { intros x Hx _. exact (reviews_of_none_key st _ _ x Hnone Hx). }
  assert (Hok' : store_ok st')
    by exact (write_review_constraints st r new Hok Hr eq_refl Huniq).
  assert (Hnew : In new (reviews st')).
  { unfold st', write_review. simpl. apply in_map_iff. exists r.
    split; [|assumption]. now rewrite Z.eqb_refl. }
  split; [|split; [assumption|split; [|split]]].
  - rewrite (review_update_by_author users partial st r data Hok Hr), Hv.
    unfold bind_exn, ReviewUpdate.update.
    unfold bind at 1. unfold bind at 1. unfold gets at 1.
    rewrite Hattrs. cbn [from_option]. fold new.
    assert (Hfk : existsb (Z.eqb (Review.user new)) users = true).
    { apply existsb_exists. exists v. split; [assumption|]. apply Z.eqb_refl. }
    rewrite Hfk. cbn [negb orb].
    rewrite existsb_false_forall; [reflexivity|].
    intros x Hx. apply not_true_iff_false. intros Hyes.
    apply andb_true_iff in Hyes. destruct Hyes as [Hyes Hxu].
    apply andb_true_iff in Hyes. destruct Hyes as [_ Hxe].
    apply Z.eqb_eq in Hxu, Hxe.
    apply (reviews_of_none_key st _ _ x Hnone Hx).
    unfold review_key. now rewrite Hxe, Hxu.
  - intros Hold. unfold st', write_review in Hold. simpl in Hold.
    apply in_map_iff in Hold. destruct Hold as (x & Hx & Hxin).
    destruct (Review.id x =? Review.id r) eqn:Hid.
    + apply Hne. now rewrite <- Hx.
    + subst x. now rewrite Z.eqb_refl in Hid.
  - apply (review_destroy_other_run st' new (Review.user r) Hok' Hnew).
    simpl. congruence.
  - exact (review_destroy_author_run st' new Hok' Hnew).
Qed.

(** * Events: the successful writes *)

Lemma is_organizer (E : Event.t) :
  in_scope (AuthUser (Event.organizer E)) E = true.
Proof. unfold in_scope. simpl. rewrite Z.eqb_refl. apply orb_true_r. Qed.

(** X16: the organizer's DELETE of an event answers 204 and removes the
    event together with all its RSVPs and reviews, and nothing else. *)
Theorem event_destroy_cascades (st : Store) (q : Event.t -> bool) (E : Event.t) :
  store_ok st -> In E (events st) -> q E = true ->
  let st' := without_event (Event.id E) st in
  EventViewSet.destroy (AuthUser (Event.organizer E)) q (Event.id E) st =
    (inr (mkResponse HTTP_204_NO_CONTENT NoContent), st') /\
  (forall e, In e (events st') <-> In e (events st) /\ e <> E) /\
  (forall r, In r (rsvps st') <-> In r (rsvps st) /\ RSVP.event r <> Event.id E) /\
  (forall r, In r (reviews st') <->
             In r (reviews st) /\ Review.event r <> Event.id E).
Proof.
  intros Hok HE Hq st'. split; [|split; [|split]].
  - unfold EventViewSet.destroy.
    rewrite (bind_value _ _ st st tt) by reflexivity.
    rewrite (bind_value _ _ st st E); [reflexivity|].
    rewrite (get_object_found _ _ _ _ _ _ (event_pk_unique st Hok) HE
               (is_organizer E) Hq).
    run_monad. now rewrite Z.eqb_refl.
  - intros e. unfold st', without_event. simpl.
    rewrite filter_In, negb_true_iff, Z.eqb_neq. split.
    + intros [He Hne]. split; [assumption|]. congruence.
    + intros [He Hne]. split; [assumption|]. intros Hid. apply Hne.
      exact (NoDup_map_eq _ _ _ _ (event_pk_unique st Hok) He HE Hid).
  - intros r. unfold st', without_event. simpl.
    now rewrite filter_In, negb_true_iff, Z.eqb_neq.
  - intros r. unfold st', without_event. simpl.
    now rewrite filter_In, negb_true_iff, Z.eqb_neq.
Qed.

Lemma retrieve_by_scope (st : Store) (c : Caller) (E : Event.t) :
  store_ok st -> In E (events st) ->
  EventViewSet.retrieve c any_event (Event.id E) st =
    if in_scope c E
    then (inr (mkResponse HTTP_200_OK (EventDetail E)), st)
    else (inl Http404, st).
Proof.
  intros Hok HE. unfold EventViewSet.retrieve.
  rewrite (bind_value _ _ st st tt) by reflexivity.
  destruct (in_scope c E) eqn:Hsc.
  - rewrite (bind_value _ _ st st E); [reflexivity|].
    now rewrite (get_object_found _ _ _ _ _ _ (event_pk_unique st Hok) HE Hsc eq_refl).
  - apply bind_raise.
    exact (get_object_hidden _ _ _ _ _ _ (event_pk_unique st Hok) HE Hsc).
Qed.

(** The run of a create whose fields have read [data]. *)
Lemma created_event_run (st : Store) (u : User)
    (data : EventCreateUpdateSerializer.Data)
    (attrs : EventCreateUpdateSerializer.Attrs) :
  store_ok st ->
  EventCreateUpdateSerializer.is_valid None false data = inr attrs ->
  exists obj st',
    EventViewSet.create (AuthUser u) data st =
      (inr (mkResponse HTTP_201_CREATED (EventDetail obj)), st') /\
    ~ In (Event.id obj) (map Event.id (events st)) /\
    Event.is_public obj =
      from_option true (EventCreateUpdateSerializer.a_is_public attrs) /\
    EventViewSet.retrieve (AuthUser u) any_event (Event.id obj) st' =
      (inr (mkResponse HTTP_200_OK (EventDetail obj)), st') /\
    forall c, c <> AuthUser u ->
      EventViewSet.retrieve c any_event (Event.id obj) st' =
        if Event.is_public obj
        then (inr (mkResponse HTTP_200_OK (EventDetail obj)), st')
        else (inl Http404, st').
Proof.
  intros Hok Hv.
  pose proof (create_event_ok attrs u st Hok) as Hok'.
  unfold store_after, EventCreateUpdateSerializer.create in Hok'.
  revert Hok'. run_monad. intros Hok'.
  eexists. eexists. split; [|split; [|split; [|split]]].
  - unfold EventViewSet.create.
    rewrite (bind_value _ _ st st tt) by reflexivity.
    rewrite Hv. unfold bind_exn, EventViewSet.perform_create,
      EventCreateUpdateSerializer.create. run_monad. reflexivity.
  - simpl. apply next_pk_fresh.
  - reflexivity.
  - rewrite retrieve_by_scope; [|exact Hok'|simpl; apply in_app_iff; right; now left].
    unfold in_scope. simpl. now rewrite Z.eqb_refl, orb_true_r.
  - intros c Hc.
    rewrite retrieve_by_scope; [|exact Hok'|simpl; apply in_app_iff; right; now left].
    unfold in_scope.
    match goal with
    | |- context [user_eq ?o c] =>
        assert (Hno : user_eq o c = false) by (apply user_eq_false_iff; exact Hc)
    end.
    rewrite Hno, orb_false_r. reflexivity.
Qed.

Lemma is_valid_is_public (instance : option Event.t) (partial : bool)
    (data : EventCreateUpdateSerializer.Data)
    (attrs : EventCreateUpdateSerializer.Attrs) :
  EventCreateUpdateSerializer.is_valid instance partial data = inr attrs ->
  EventCreateUpdateSerializer.is_public data <> Malformed.
Proof.
  unfold EventCreateUpdateSerializer.is_valid,
    EventCreateUpdateSerializer.to_internal_value.
  intros Hv Hbad. rewrite Hbad in Hv. cbn [run_field] in Hv.
  repeat match type of Hv with
         | context [match run_field ?r ?p ?f with _ => _ end] =>
             destruct (run_field r p f)
         end; discriminate.
Qed.

(** What a payload the serializer accepts leaves in [validated_data]. *)
Lemma is_valid_attrs (instance : option Event.t) (partial : bool)
    (data : EventCreateUpdateSerializer.Data)
    (attrs : EventCreateUpdateSerializer.Attrs) :
  EventCreateUpdateSerializer.is_valid instance partial data = inr attrs ->
  attrs = EventCreateUpdateSerializer.mkAttrs
            (sent (EventCreateUpdateSerializer.title data))
            (sent (EventCreateUpdateSerializer.description data))
            (sent (EventCreateUpdateSerializer.location data))
            (sent (EventCreateUpdateSerializer.start_time data))
            (sent (EventCreateUpdateSerializer.end_time data))
            (sent (EventCreateUpdateSerializer.is_public data)).
Proof.
  unfold EventCreateUpdateSerializer.is_valid.
  destruct (EventCreateUpdateSerializer.to_internal_value partial data)
    as [x|a0] eqn:Hv; [discriminate|].
  intros Hvalid.
  assert (a0 = attrs) as ->.
  { revert Hvalid. unfold EventCreateUpdateSerializer.validate.
    destruct (or_else _ _) as [s0|]; [|now intros [= <-]].
    destruct (or_else _ _) as [e0|]; [|now intros [= <-]].
    destruct (e0 <=? s0); [discriminate|now intros [= <-]]. }
  clear Hvalid. revert Hv. unfold EventCreateUpdateSerializer.to_internal_value.
  destruct (run_field true partial (EventCreateUpdateSerializer.title data))
    as [|o1] eqn:H1; [discriminate|].
  destruct (run_field true partial (EventCreateUpdateSerializer.description data))
    as [|o2] eqn:H2; [discriminate|].
  destruct (run_field true partial (EventCreateUpdateSerializer.location data))
    as [|o3] eqn:H3; [discriminate|].
  destruct (run_field true partial (EventCreateUpdateSerializer.start_time data))
    as [|o4] eqn:H4; [discriminate|].
  destruct (run_field true partial (EventCreateUpdateSerializer.end_time data))
    as [|o5] eqn:H5; [discriminate|].
  destruct (run_field false partial (EventCreateUpdateSerializer.is_public data))
    as [|o6] eqn:H6; [discriminate|].
  intros [= <-].
  apply run_field_inr in H1, H2, H3, H4, H5, H6. now subst.
Qed.

(** X17: the event a create stores gets an id that no event of the table
    has, and can be retrieved under that id: by its organizer always, by
    any other caller exactly when it is public.  It is public or not as
    the body says; when the body has no [is_public] key, it is public from
    a JSON body and private from a form-encoded one. *)
Theorem created_event_is_retrievable (st : Store) (u : User) (media : MediaType)
    (body : EventCreateUpdateSerializer.Data)
    (attrs : EventCreateUpdateSerializer.Attrs) :
  store_ok st ->
  EventCreateUpdateSerializer.is_valid None false
    (EventRequest.get_value media false body) = inr attrs ->
  exists obj st',
    EventRequest.create media (AuthUser u) body st =
      (inr (mkResponse HTTP_201_CREATED (EventDetail obj)), st') /\
    ~ In (Event.id obj) (map Event.id (events st)) /\
    Event.is_public obj =
      match EventCreateUpdateSerializer.is_public body with
      | Given b => b
      | _ => negb (is_html_input media)
      end /\
    EventViewSet.retrieve (AuthUser u) any_event (Event.id obj) st' =
      (inr (mkResponse HTTP_200_OK (EventDetail obj)), st') /\
    forall c, c <> AuthUser u ->
      EventViewSet.retrieve c any_event (Event.id obj) st' =
        if Event.is_public obj
        then (inr (mkResponse HTTP_200_OK (EventDetail obj)), st')
        else (inl Http404, st').
Proof.
  intros Hok Hv.
  destruct (created_event_run st u _ attrs Hok Hv)
    as (obj & st' & Hrun & Hfresh & Hpub & Hget & Hothers).
  exists obj, st'. split; [exact Hrun|]. split; [exact Hfresh|].
  split; [|split; [exact Hget|exact Hothers]].
  rewrite Hpub, (is_valid_attrs _ _ _ _ Hv).
  cbn [EventCreateUpdateSerializer.a_is_public EventRequest.get_value
       EventCreateUpdateSerializer.is_public].
  pose proof (is_valid_is_public _ _ _ _ Hv) as Hfield.
  cbn [EventRequest.get_value EventCreateUpdateSerializer.is_public] in Hfield.
  unfold BooleanField_get_value in *.
  destruct (EventCreateUpdateSerializer.is_public body); destruct media;
    try reflexivity; contradiction.
Qed.

Lemma write_event_rows (st : Store) (E new : Event.t) :
  store_ok st -> In E (events st) -> Event.id new = Event.id E ->
  forall e, In e (events (write_event new st)) <->
            e = new \/ (In e (events st) /\ Event.id e <> Event.id E).
Proof.
  intros Hok HE Hid e. unfold write_event. simpl. rewrite in_map_iff. split.
  - intros (x & Hx & Hxin). rewrite Hid in Hx.
    destruct (Z.eqb_spec (Event.id x) (Event.id E)); subst; auto.
  - intros [->|[He Hne]].
    + exists E. split; [|assumption]. now rewrite Hid, Z.eqb_refl.
    + exists e. split; [|assumption]. rewrite Hid.
      now destruct (Z.eqb_spec (Event.id e) (Event.id E)).
Qed.

(** The run of the organizer's update whose fields have read [data]. *)
Lemma updated_event_run (st : Store) (partial : bool)
    (q : Event.t -> bool) (E : Event.t)
    (data : EventCreateUpdateSerializer.Data)
    (attrs : EventCreateUpdateSerializer.Attrs) :
  store_ok st -> In E (events st) -> q E = true ->
  EventCreateUpdateSerializer.is_valid (Some E) partial data = inr attrs ->
  let new := Event.mk (Event.id E)
               (from_option (Event.title E) (EventCreateUpdateSerializer.a_title attrs))
               (from_option (Event.description E)
                            (EventCreateUpdateSerializer.a_description attrs))
               (Event.organizer E)
               (from_option (Event.location E)
                            (EventCreateUpdateSerializer.a_location attrs))
               (from_option (Event.start_time E)
                            (EventCreateUpdateSerializer.a_start_time attrs))
               (from_option (Event.end_time E)
                            (EventCreateUpdateSerializer.a_end_time attrs))
               (from_option (Event.is_public E)
                            (EventCreateUpdateSerializer.a_is_public attrs)) in
  let st' := write_event new st in
  EventViewSet.update partial (AuthUser (Event.organizer E)) q (Event.id E) data st =
    (inr (mkResponse HTTP_200_OK (EventDetail new)), st') /\
  (forall e, In e (events st') <->
             e = new \/ (In e (events st) /\ Event.id e <> Event.id E)) /\
  rsvps st' = rsvps st /\ reviews st' = reviews st /\
  EventViewSet.retrieve (AuthUser (Event.organizer E)) any_event (Event.id E) st' =
    (inr (mkResponse HTTP_200_OK (EventDetail new)), st').
Proof.
  intros Hok HE Hq Hv new st'.
  assert (Hrows : forall e, In e (events st') <->
                    e = new \/ (In e (events st) /\ Event.id e <> Event.id E))
    by exact (write_event_rows st E new Hok HE eq_refl).
  split; [|split; [assumption|split; [reflexivity|split; [reflexivity|]]]].
  - rewrite (update_by_organizer _ _ _ _ _ Hok HE Hq), Hv. reflexivity.
  - assert (Hok' : store_ok st').
    { pose proof (update_event_ok E attrs st Hok) as H.
      unfold store_after, EventCreateUpdateSerializer.update in H.
      revert H. run_monad. now intros H. }
    assert (Hnew : In new (events st')) by (apply Hrows; now left).
    pose proof (retrieve_by_scope st' (AuthUser (Event.organizer E)) new Hok' Hnew)
      as Hget.
    change (Event.id new) with (Event.id E) in Hget. rewrite Hget.
    pose proof (is_organizer new) as Hscope.
    change (Event.organizer new) with (Event.organizer E) in Hscope.
    now rewrite Hscope.
Qed.

(** X18: the organizer's update with a body the serializer accepts
    answers 200 with the event in which the fields read from the body are
    replaced, id and organizer being kept: each key that was sent, and
    [is_public] also when a form-encoded PUT does not send it, which makes
    the event private.  The rows of the other events, the RSVPs and the
    reviews are as before, and the event is then retrieved in its new
    state. *)
Theorem event_update_by_organizer (st : Store) (media : MediaType) (partial : bool)
    (q : Event.t -> bool) (E : Event.t)
    (body : EventCreateUpdateSerializer.Data)
    (attrs : EventCreateUpdateSerializer.Attrs) :
  store_ok st -> In E (events st) -> q E = true ->
  EventCreateUpdateSerializer.is_valid (Some E) partial
    (EventRequest.get_value media partial body) = inr attrs ->
  let new := Event.mk (Event.id E)
               (sent_or (EventCreateUpdateSerializer.title body) (Event.title E))
               (sent_or (EventCreateUpdateSerializer.description body)
                        (Event.description E))
               (Event.organizer E)
               (sent_or (EventCreateUpdateSerializer.location body)
                        (Event.location E))
               (sent_or (EventCreateUpdateSerializer.start_time body)
                        (Event.start_time E))
               (sent_or (EventCreateUpdateSerializer.end_time body)
                        (Event.end_time E))
               (sent_or (BooleanField_get_value media partial
                           (EventCreateUpdateSerializer.is_public body))
                        (Event.is_public E)) in
  let st' := write_event new st in
  EventRequest.update media partial (AuthUser (Event.organizer E)) q (Event.id E)
    body st = (inr (mkResponse HTTP_200_OK (EventDetail new)), st') /\
  (forall e, In e (events st') <->
             e = new \/ (In e (events st) /\ Event.id e <> Event.id E)) /\
  rsvps st' = rsvps st /\ reviews st' = reviews st /\
  EventViewSet.retrieve (AuthUser (Event.organizer E)) any_event (Event.id E) st' =
    (inr (mkResponse HTTP_200_OK (EventDetail new)), st') /\
  (EventCreateUpdateSerializer.is_public body = Absent ->
   Event.is_public new =
     if is_html_input media && negb partial then false else Event.is_public E).
Proof.
  intros Hok HE Hq Hv new st'.
  pose proof (updated_event_run st partial q E _ attrs Hok HE Hq Hv) as Hrun.
  rewrite (is_valid_attrs _ _ _ _ Hv) in Hrun.
  cbn [EventCreateUpdateSerializer.a_title EventCreateUpdateSerializer.a_description
       EventCreateUpdateSerializer.a_location EventCreateUpdateSerializer.a_start_time
       EventCreateUpdateSerializer.a_end_time EventCreateUpdateSerializer.a_is_public
       EventRequest.get_value
       EventCreateUpdateSerializer.title EventCreateUpdateSerializer.description
       EventCreateUpdateSerializer.location EventCreateUpdateSerializer.start_time
       EventCreateUpdateSerializer.end_time EventCreateUpdateSerializer.is_public]
    in Hrun.
  destruct Hrun as (H1 & H2 & H3 & H4 & H5).
  split; [exact H1|]. split; [exact H2|]. split; [exact H3|].
  split; [exact H4|]. split; [exact H5|].
  intros Habsent. unfold new. cbn [Event.is_public]. rewrite Habsent.
  unfold BooleanField_get_value, sent_or.
  destruct (is_html_input media && negb partial); reflexivity.
Qed.

(** * Reviews through the event *)




(** X20: the reviews of an event are listed through the event only to
    callers in whose scope the event is: they get exactly the reviews of
    that event, any other caller gets [Http404]. *)
Theorem event_reviews_follow_scope (st : Store) (c : Caller) (q : Event.t -> bool)
    (E : Event.t) :
  store_ok st -> In E (events st) -> q E = true ->
  exists l,
    (forall r, In r l <-> In r (reviews st) /\ Review.event r = Event.id E) /\
    EventViewSet.reviews_get c q (Event.id E) st =
      if in_scope c E
      then (inr (mkResponse HTTP_200_OK (ReviewList l)), st)
      else (inl Http404, st).
Proof.
  intros Hok HE Hq.
  exists (filter (fun r => Review.event r =? Event.id E) (reviews st)). split.
  - intros r. now rewrite filter_In, Z.eqb_eq.
  - unfold EventViewSet.reviews_get.
    rewrite (bind_value _ _ st st tt) by reflexivity.
    destruct (in_scope c E) eqn:Hsc.
    + rewrite (bind_value _ _ st st E); [reflexivity|].
      now rewrite (get_object_found _ _ _ _ _ _ (event_pk_unique st Hok) HE Hsc Hq).
    + apply bind_raise.
      exact (get_object_hidden _ _ _ _ _ _ (event_pk_unique st Hok) HE Hsc).
Qed.

(** * Users and profiles *)

Lemma bindA_value {A B} (c : MA A) (k : A -> MA B) (acc acc' : Accounts) (a : A) :
  c acc = (inr a, acc') -> bindA c k acc = k a acc'.
Proof. intros H. unfold bindA. now rewrite H. Qed.

Lemma bindA_raise {A B} (c : MA A) (k : A -> MA B) (acc acc' : Accounts) (e : Exn) :
  c acc = (inl e, acc') -> bindA c k acc = (inl e, acc').
Proof. intros H. unfold bindA. now rewrite H. Qed.

Ltac run_accounts :=
  unfold check_permissionsA, permission_deniedA, bindA, retA, raiseA, getsA,
    modifyA; simpl.

Lemma map_replace_fresh {A} (key : A -> Z) (new : A) (l : list A) :
  ~ In (key new) (map key l) ->
  map (fun x => if key x =? key new then new else x) (l ++ [new]) = l ++ [new].
Proof.
  intros Hfresh. rewrite map_app. simpl. rewrite Z.eqb_refl. f_equal.
  rewrite <- (map_id l) at 2. apply map_ext_in. intros x Hx.
  destruct (Z.eqb_spec (key x) (key new)) as [Heq|]; [|reflexivity].
  exfalso. apply Hfresh. rewrite <- Heq. now apply in_map.
Qed.

Lemma map_replace_self {A} (key : A -> Z) (p : A) (l : list A) :
  NoDup (map key l) -> In p l ->
  map (fun x => if key x =? key p then p else x) l = l.
Proof.
  intros Hnd Hp. rewrite <- (map_id l) at 2. apply map_ext_in. intros x Hx.
  destruct (Z.eqb_spec (key x) (key p)) as [Heq|]; [|reflexivity].
  symmetry. exact (NoDup_map_eq _ _ _ _ Hnd Hx Hp Heq).
Qed.


(** [profile.save()] of the object a stored row was loaded into writes
    nothing new. *)
Lemma UserProfile_save_stored (acc : Accounts) (p : UserProfile.t) :
  accounts_ok acc -> In p (profiles acc) ->
  UserProfile_save (ProfileObject_of_row p) acc = (inr p, acc).
Proof.
  intros Hok Hp. unfold UserProfile_save. unfold bindA at 1. unfold getsA at 1.
  unfold ProfileObject_of_row.
  cbn [ProfileObject.id ProfileObject.user ProfileObject.full_name ProfileObject.bio
       ProfileObject.location ProfileObject.profile_picture from_option].
  assert (Hrow : UserProfile.mk (UserProfile.id p) (UserProfile.user p)
                   (UserProfile.full_name p) (UserProfile.bio p)
                   (UserProfile.location p) (UserProfile.profile_picture p) = p)
    by now destruct p.
  rewrite Hrow.
  assert (Hfk : existsb (fun u => AccountUser.id u =? UserProfile.user p)
                  (auth_users acc) = true).
  { pose proof (profile_user_exists acc Hok p Hp) as Hu.
    apply in_map_iff in Hu. destruct Hu as (u & Hu & Huin).
    apply existsb_exists. exists u. split; [assumption|]. now apply Z.eqb_eq. }
  rewrite Hfk. cbn [negb orb].
  rewrite existsb_false_forall.
  2:{ intros x Hx. apply not_true_iff_false. intros Hyes.
      apply andb_true_iff in Hyes. destruct Hyes as [Hid Hu].
      apply negb_true_iff, Z.eqb_neq in Hid. apply Z.eqb_eq in Hu. apply Hid.
      f_equal. exact (NoDup_map_eq _ _ _ _ (profile_user_unique acc Hok) Hx Hp Hu). }
  assert (Hex : existsb (fun x => UserProfile.id x =? UserProfile.id p) (profiles acc)
                = true).
  { apply existsb_exists. exists p. split; [assumption|apply Z.eqb_refl]. }
  rewrite Hex. unfold bindA, modifyA, retA, write_profile.
  rewrite (map_replace_self UserProfile.id p _ (profile_pk_unique acc Hok) Hp).
  now destruct acc.
Qed.


Lemma profile_get_object_found (acc : Accounts) (p : UserProfile.t) :
  accounts_ok acc -> In p (profiles acc) ->
  UserProfileViewSet.get_object (UserProfile.id p) acc = (inr p, acc).
Proof.
  intros Hok Hp. unfold UserProfileViewSet.get_object, UserProfileViewSet.get_queryset.
  unfold bindA, getsA.
  now rewrite (filter_unique_key UserProfile.id _ p (profile_pk_unique acc Hok) Hp).
Qed.

Lemma profile_get_object_inv (k : pk) (acc acc' : Accounts)
    (r : Exn + UserProfile.t) :
  UserProfileViewSet.get_object k acc = (r, acc') ->
  acc' = acc /\
  forall obj, r = inr obj -> In obj (profiles acc) /\ UserProfile.id obj = k.
Proof.
  unfold UserProfileViewSet.get_object, UserProfileViewSet.get_queryset.
  unfold bindA, getsA.
  destruct (filter (fun p => UserProfile.id p =? k) (profiles acc))
    as [|obj [|obj' rest]] eqn:Hf; unfold raiseA, retA; intros [= <- <-];
    (split; [reflexivity|]); try discriminate.
  intros o [= <-].
  assert (Ho : In obj (filter (fun p => UserProfile.id p =? k) (profiles acc)))
    by (rewrite Hf; now left).
  apply filter_In in Ho. destruct Ho as [Ho Hk]. apply Z.eqb_eq in Hk. now split.
Qed.

Lemma profile_is_valid_error (partial : bool) (data : UserProfileSerializer.Data)
    (e : Exn) :
  UserProfileSerializer.is_valid partial data = inl e -> e = ValidationError.
Proof.
  unfold UserProfileSerializer.is_valid.
  repeat match goal with
         | |- context [match run_field ?r ?p ?f with _ => _ end] =>
             destruct (run_field r p f) as [[]|]; try discriminate
         end; now intros [= <-].
Qed.

Lemma write_profile_rows (acc : Accounts) (p new : UserProfile.t) :
  accounts_ok acc -> In p (profiles acc) -> UserProfile.id new = UserProfile.id p ->
  forall x, In x (profiles (write_profile new acc)) <->
            x = new \/ (In x (profiles acc) /\ x <> p).
Proof.
  intros Hok Hp Hid x. unfold write_profile. simpl. rewrite in_map_iff. split.
  - intros (y & Hy & Hyin). rewrite Hid in Hy.
    destruct (Z.eqb_spec (UserProfile.id y) (UserProfile.id p)) as [Heq|Hneq];
      subst; [now left|right]. split; [assumption|]. congruence.
  - intros [->|[Hx Hne]].
    + exists p. split; [|assumption]. now rewrite Hid, Z.eqb_refl.
    + exists x. split; [|assumption]. rewrite Hid.
      destruct (Z.eqb_spec (UserProfile.id x) (UserProfile.id p)) as [Heq|];
        [|reflexivity].
      exfalso. apply Hne.
      exact (NoDup_map_eq _ _ _ _ (profile_pk_unique acc Hok) Hx Hp Heq).
Qed.

(** X23: a profile is updated by its own user only.  An anonymous caller
    gets [NotAuthenticated]; another user gets [ValidationError] for a
    payload the serializer refuses and [PermissionDenied] otherwise, and
    nothing is written; the owner's accepted payload replaces exactly the
    sent fields of that profile and leaves its user and the other profiles
    as they are. *)
Theorem profile_update_by_owner_only (acc : Accounts) (partial : bool)
    (p : UserProfile.t) (data : UserProfileSerializer.Data) :
  accounts_ok acc -> In p (profiles acc) ->
  UserProfileViewSet.update partial AnonymousUser (UserProfile.id p) data acc =
    (inl NotAuthenticated, acc) /\
  (forall u, u <> UserProfile.user p ->
     UserProfileViewSet.update partial (AuthUser u) (UserProfile.id p) data acc =
       match UserProfileSerializer.is_valid partial data with
       | inl _ => (inl ValidationError, acc)
       | inr _ => (inl PermissionDenied, acc)
       end) /\
  (forall attrs,
     UserProfileSerializer.is_valid partial data = inr attrs ->
     let new := UserProfile.mk (UserProfile.id p) (UserProfile.user p)
                  (from_option (UserProfile.full_name p)
                               (UserProfileSerializer.a_full_name attrs))
                  (from_option (UserProfile.bio p)
                               (UserProfileSerializer.a_bio attrs))
                  (from_option (UserProfile.location p)
                               (UserProfileSerializer.a_location attrs))
                  (from_option (UserProfile.profile_picture p)
                               (UserProfileSerializer.a_profile_picture attrs)) in
     UserProfileViewSet.update partial (AuthUser (UserProfile.user p))
       (UserProfile.id p) data acc =
       (inr (mkReply HTTP_200_OK new), write_profile new acc) /\
     forall x, In x (profiles (write_profile new acc)) <->
               x = new \/ (In x (profiles acc) /\ x <> p)).
Proof.
  intros Hok Hp. pose proof (profile_get_object_found acc p Hok Hp) as Hget.
  split; [now destruct partial|]. split.
  - intros u Hne. unfold UserProfileViewSet.update.
    rewrite (bindA_value _ _ acc acc tt) by (now destruct partial).
    rewrite (bindA_value _ _ acc acc p Hget).
    destruct (UserProfileSerializer.is_valid partial data) as [e|attrs] eqn:Hv.
    + now rewrite (profile_is_valid_error _ _ _ Hv).
    + apply bindA_raise. unfold UserProfileViewSet.perform_update.
      assert (Hno : user_eq (UserProfile.user p) (AuthUser u) = false)
        by (simpl; apply Z.eqb_neq; congruence).
      now rewrite Hno.
  - intros attrs Hv new. split.
    + unfold UserProfileViewSet.update.
      rewrite (bindA_value _ _ acc acc tt) by (now destruct partial).
      rewrite (bindA_value _ _ acc acc p Hget). rewrite Hv.
      unfold UserProfileViewSet.perform_update.
      assert (Hyes : user_eq (UserProfile.user p) (AuthUser (UserProfile.user p))
                     = true) by (simpl; apply Z.eqb_refl).
      rewrite Hyes. reflexivity.
    + exact (write_profile_rows acc p new Hok Hp eq_refl).
Qed.

(** X24: the viewset gives DELETE no owner check: any authenticated
    caller's DELETE of a profile answers 204 and removes it, so that its
    user is left without a profile; only an anonymous caller is refused. *)
Theorem profile_destroy_has_no_owner_check (acc : Accounts) (p : UserProfile.t)
    (u : User) :
  accounts_ok acc -> In p (profiles acc) ->
  let acc' := mkAccounts (auth_users acc)
                (filter (fun x => negb (UserProfile.id x =? UserProfile.id p))
                        (profiles acc)) in
  UserProfileViewSet.destroy (AuthUser u) (UserProfile.id p) acc =
    (inr (mkReply HTTP_204_NO_CONTENT tt), acc') /\
  profiles_of (UserProfile.user p) acc' = [] /\
  ~ every_user_has_profile acc' /\
  UserProfileViewSet.destroy AnonymousUser (UserProfile.id p) acc =
    (inl NotAuthenticated, acc).
Proof.
  intros Hok Hp acc'. pose proof (profile_get_object_found acc p Hok Hp) as Hget.
  assert (Hnone : profiles_of (UserProfile.user p) acc' = []).
  { unfold profiles_of, acc'. simpl. apply filter_none. intros x Hx.
    apply filter_In in Hx. destruct Hx as [Hx Hne].
    apply negb_true_iff, Z.eqb_neq in Hne. apply Z.eqb_neq. intros Heq.
    apply Hne. f_equal.
    exact (NoDup_map_eq _ _ _ _ (profile_user_unique acc Hok) Hx Hp Heq). }
  split; [|split; [exact Hnone|split; [|reflexivity]]].
  - unfold UserProfileViewSet.destroy.
    rewrite (bindA_value _ _ acc acc tt) by reflexivity.
    rewrite (bindA_value _ _ acc acc p Hget). reflexivity.
  - intros Hall.
    pose proof (profile_user_exists acc Hok p Hp) as Huser.
    apply in_map_iff in Huser. destruct Huser as (x & Hx & Hxin).
    destruct (Hall x Hxin) as [px Hpx]. rewrite Hx, Hnone in Hpx. discriminate.
Qed.

(** * The constraints on users and profiles *)

Lemma NoDup_map_replace {A K} (ident : A -> Z) (key : A -> K) (new : A)
    (l : list A) :
  NoDup (map ident l) -> NoDup (map key l) ->
  (forall x, In x l -> ident x <> ident new -> key x <> key new) ->
  NoDup (map key (map (fun x => if ident x =? ident new then new else x) l)).
Proof.
  induction l as [|a l IH]; simpl; intros Hid Hkey Hother; [constructor|].
  inversion Hid as [|i ids Hifresh Hid']; subst.
  inversion Hkey as [|k ks Hkfresh Hkey']; subst.
  constructor.
  - rewrite map_map, in_map_iff. intros (x & Hx & Hxin).
    destruct (Z.eqb_spec (ident a) (ident new)) as [Ha|Ha];
      destruct (Z.eqb_spec (ident x) (ident new)) as [Hxn|Hxn].
    + apply Hifresh. rewrite Ha, <- Hxn. now apply in_map.
    + apply (Hother x); auto.
    + apply (Hother a); auto.
    + apply Hkfresh. rewrite <- Hx. now apply in_map.
  - apply IH; auto.
Qed.

(** The user table after the row of an existing user is written. *)
Lemma replace_user_ok (acc : Accounts) (instance : AccountUser.t) :
  accounts_ok acc ->
  (forall x, In x (auth_users acc) ->
             AccountUser.id x <> AccountUser.id instance ->
             AccountUser.username x <> AccountUser.username instance) ->
  accounts_ok
    (mkAccounts (map (fun u => if AccountUser.id u =? AccountUser.id instance
                               then instance else u) (auth_users acc))
                (profiles acc)).
Proof.
  intros [H1 H2 H3 H4 H5] Hnames. constructor; cbn [auth_users profiles];
    try assumption.
  - rewrite map_replace_same_key; [assumption|exact AccountUser.id|].
    intros x _ Hx. apply Z.eqb_eq in Hx. now symmetry.
  - now apply NoDup_map_replace.
  - intros p Hp. rewrite map_replace_same_key; [now apply H5|exact AccountUser.id|].
    intros x _ Hx. apply Z.eqb_eq in Hx. now symmetry.
Qed.

Lemma name_clash_false (acc : Accounts) (instance : AccountUser.t) :
  existsb (fun u => negb (AccountUser.id u =? AccountUser.id instance)
                    && String.eqb (AccountUser.username u)
                                  (AccountUser.username instance))
          (auth_users acc) = false ->
  forall x, In x (auth_users acc) ->
            AccountUser.id x <> AccountUser.id instance ->
            AccountUser.username x <> AccountUser.username instance.
Proof.
  intros Hname x Hx Hne Heq.
  assert (Hyes : existsb
            (fun u => negb (AccountUser.id u =? AccountUser.id instance)
                      && String.eqb (AccountUser.username u)
                                    (AccountUser.username instance))
            (auth_users acc) = true).
  { apply existsb_exists. exists x. split; [assumption|].
    apply andb_true_iff. split.
    - now apply negb_true_iff, Z.eqb_neq.
    - now apply String.eqb_eq. }
  congruence.
Qed.

Lemma getattr_profile_inv (instance : AccountUser.t) (cache : ProfileCache)
    (acc acc' : Accounts) (r : Exn + option ProfileObject.t) :
  getattr_profile instance cache acc = (r, acc') -> acc' = acc.
Proof.
  unfold getattr_profile. destruct cache; try (now intros [= _ <-]).
  unfold bindA, getsA.
  destruct (filter _ (profiles acc)) as [|p [|p' rest]]; now intros [= _ <-].
Qed.

(** X22: saving a user who is in the table saves the profile object
    attached to the user object.  When none is attached, or the attached
    object is as it was loaded, the profile table stays as it is: a user
    without a profile is not given one.  When the attached object of a
    stored profile carries changes that were not saved, the save of the
    user writes them to the row of that profile and to no other. *)
Theorem saving_user_saves_attached_profile (acc : Accounts)
    (instance : AccountUser.t) :
  accounts_ok acc ->
  In (AccountUser.id instance) (map AccountUser.id (auth_users acc)) ->
  (forall cache,
      cache = NotFetched \/ cache = FetchedNone \/
      (exists p, In p (profiles acc) /\ cache = Attached (ProfileObject_of_row p)) ->
      profiles (snd (User_save instance cache acc)) = profiles acc) /\
  (forall p full_name bio location profile_picture,
      In p (profiles acc) ->
      (forall x, In x (auth_users acc) ->
                 AccountUser.username x = AccountUser.username instance ->
                 AccountUser.id x = AccountUser.id instance) ->
      let obj := ProfileObject.mk (Some (UserProfile.id p)) (UserProfile.user p)
                   full_name bio location profile_picture in
      let row := UserProfile.mk (UserProfile.id p) (UserProfile.user p)
                   full_name bio location profile_picture in
      fst (User_save instance (Attached obj) acc) = inr tt /\
      profiles (snd (User_save instance (Attached obj) acc))
        = profiles (write_profile row acc) /\
      forall x, In x (profiles (write_profile row acc)) <->
                x = row \/ (In x (profiles acc) /\ x <> p)).
Proof.
  intros Hok Hin.
  assert (Hex : existsb (fun u => AccountUser.id u =? AccountUser.id instance)
                  (auth_users acc) = true).
  { apply in_map_iff in Hin. destruct Hin as (x & Hx & Hxin).
    apply existsb_exists. exists x. split; [assumption|]. now apply Z.eqb_eq. }
  split.
  - intros cache Hcache. unfold User_save. unfold bindA at 1. unfold getsA at 1.
    match goal with
    | |- context [if ?b then raiseA _ else _] => destruct b eqn:Hname
    end; [reflexivity|].
    rewrite Hex. unfold bindA at 1. unfold modifyA at 1.
    set (acc1 := mkAccounts _ (profiles acc)).
    assert (Hok1 : accounts_ok acc1)
      by exact (replace_user_ok acc instance Hok (name_clash_false acc instance Hname)).
    unfold post_save, create_user_profile. unfold bindA at 1. unfold retA at 1.
    unfold save_user_profile. unfold bindA at 1.
    destruct Hcache as [->|[->|(p & Hp & ->)]].
    + unfold getattr_profile. unfold bindA at 1. unfold getsA at 1.
      destruct (filter _ (profiles acc1)) as [|p [|p' rest]] eqn:Hf;
        try reflexivity.
      unfold retA at 1.
      assert (Hp : In p (profiles acc1)).
      { assert (Hp : In p (filter (fun p => UserProfile.user p =? AccountUser.id instance)
                             (profiles acc1))) by (rewrite Hf; now left).
        apply filter_In in Hp. tauto. }
      unfold bindA. now rewrite (UserProfile_save_stored acc1 p Hok1 Hp).
    + reflexivity.
    + unfold getattr_profile, retA at 1.
      unfold bindA. now rewrite (UserProfile_save_stored acc1 p Hok1 Hp).
  - intros p full_name bio location profile_picture Hp Hnames obj row.
    assert (Hname : existsb
              (fun u => negb (AccountUser.id u =? AccountUser.id instance)
                        && String.eqb (AccountUser.username u)
                                      (AccountUser.username instance))
              (auth_users acc) = false).
    { apply existsb_false_forall. intros x Hx. apply not_true_iff_false.
      intros Hyes. apply andb_true_iff in Hyes. destruct Hyes as [Hid Hn].
      apply negb_true_iff, Z.eqb_neq in Hid. apply String.eqb_eq in Hn.
      apply Hid. now apply Hnames. }
    assert (Hrun : User_save instance (Attached obj) acc =
                   (inr tt,
                    write_profile row
                      (mkAccounts
                         (map (fun u => if AccountUser.id u =? AccountUser.id instance
                                        then instance else u) (auth_users acc))
                         (profiles acc)))).
    { unfold User_save. unfold bindA at 1. unfold getsA at 1.
      rewrite Hname, Hex. unfold bindA at 1. unfold modifyA at 1.
      set (acc1 := mkAccounts _ (profiles acc)).
      assert (Hok1 : accounts_ok acc1)
        by exact (replace_user_ok acc instance Hok
                    (name_clash_false acc instance Hname)).
      unfold post_save, create_user_profile. unfold bindA at 1. unfold retA at 1.
      unfold save_user_profile, getattr_profile. unfold bindA at 1. unfold retA at 1.
      unfold UserProfile_save. unfold bindA at 1. unfold bindA at 1.
      unfold getsA at 1.
      cbn [obj ProfileObject.id ProfileObject.user ProfileObject.full_name
           ProfileObject.bio ProfileObject.location ProfileObject.profile_picture
           from_option].
      fold row.
      assert (Hfk : existsb (fun u => AccountUser.id u =? UserProfile.user p)
                      (auth_users acc1) = true).
      { pose proof (profile_user_exists acc1 Hok1 p Hp) as Hu.
        apply in_map_iff in Hu. destruct Hu as (u & Hu & Huin).
        apply existsb_exists. exists u. split; [assumption|]. now apply Z.eqb_eq. }
      rewrite Hfk. cbn [negb orb].
      rewrite existsb_false_forall.
      2:{ intros x Hx. apply not_true_iff_false. intros Hyes.
          apply andb_true_iff in Hyes. destruct Hyes as [Hid Hu].
          apply negb_true_iff, Z.eqb_neq in Hid. apply Z.eqb_eq in Hu. apply Hid.
          f_equal.
          exact (NoDup_map_eq _ _ _ _ (profile_user_unique acc1 Hok1) Hx Hp Hu). }
      assert (Hexp : existsb (fun x => UserProfile.id x =? UserProfile.id p)
                       (profiles acc1) = true).
      { apply existsb_exists. exists p. split; [assumption|apply Z.eqb_refl]. }
      rewrite Hexp. reflexivity. }
    rewrite Hrun. split; [reflexivity|]. split; [reflexivity|].
    exact (write_profile_rows acc p row Hok Hp eq_refl).
Qed.
(** [profile.save()] keeps the constraints, whatever object is saved. *)
Lemma UserProfile_save_ok (acc : Accounts) (obj : ProfileObject.t) :
  accounts_ok acc -> accounts_ok (snd (UserProfile_save obj acc)).
Proof.
  intros Hok. unfold UserProfile_save. unfold bindA at 1. unfold getsA at 1.
  set (k := from_option _ (ProfileObject.id obj)).
  set (row := UserProfile.mk k _ _ _ _ _).
  destruct (negb _ || _) eqn:Hcheck; [exact Hok|].
  apply orb_false_iff in Hcheck. destruct Hcheck as [Hfk Huniq].
  apply negb_false_iff, existsb_exists in Hfk. destruct Hfk as (u & Hu & Hueq).
  apply Z.eqb_eq in Hueq.
  assert (Hother : forall x, In x (profiles acc) -> UserProfile.id x <> k ->
                     UserProfile.user x <> ProfileObject.user obj).
  { intros x Hx Hne Heq.
    assert (Hyes : existsb (fun p => negb (UserProfile.id p =? k)
                                     && (UserProfile.user p =? ProfileObject.user obj))
                     (profiles acc) = true).
    { apply existsb_exists. exists x. split; [assumption|].
      apply andb_true_iff. split.
      - now apply negb_true_iff, Z.eqb_neq.
      - now apply Z.eqb_eq. }
    congruence. }
  destruct Hok as [H1 H2 H3 H4 H5].
  destruct (existsb (fun p => UserProfile.id p =? k) (profiles acc)) eqn:Hrow.
  - unfold bindA, modifyA, retA, write_profile. cbn [snd].
    constructor; cbn [auth_users profiles]; try assumption.
    + rewrite map_replace_same_key; [assumption|exact UserProfile.id|].
      intros x _ Hx. apply Z.eqb_eq in Hx. now symmetry.
    + apply (NoDup_map_replace UserProfile.id UserProfile.user row); assumption.
    + intros p Hp. apply in_map_iff in Hp. destruct Hp as (x & Hx & Hxin).
      destruct (UserProfile.id x =? UserProfile.id row); subst p; auto.
      cbn [row UserProfile.user]. rewrite <- Hueq. now apply in_map.
  - unfold bindA, modifyA, retA. cbn [snd].
    assert (Hfresh : forall x, In x (profiles acc) -> UserProfile.id x <> k).
    { intros x Hx Heq.
      assert (Hyes : existsb (fun p => UserProfile.id p =? k) (profiles acc) = true).
      { apply existsb_exists. exists x. split; [assumption|]. now apply Z.eqb_eq. }
      congruence. }
    constructor; cbn [auth_users profiles]; try assumption.
    + rewrite map_app. apply NoDup_snoc; [assumption|]. simpl.
      intros Hdup. apply in_map_iff in Hdup. destruct Hdup as (x & Hx & Hxin).
      now apply (Hfresh x).
    + rewrite map_app. apply NoDup_snoc; [assumption|]. simpl.
      intros Hdup. apply in_map_iff in Hdup. destruct Hdup as (x & Hx & Hxin).
      apply (Hother x); auto.
    + intros p Hp. apply in_app_iff in Hp. destruct Hp as [Hp|[<-|[]]]; auto.
      cbn [row UserProfile.user]. rewrite <- Hueq. now apply in_map.
Qed.

Lemma save_user_profile_ok (acc : Accounts) (instance : AccountUser.t)
    (cache : ProfileCache) :
  accounts_ok acc -> accounts_ok (snd (save_user_profile instance cache acc)).
Proof.
  intros Hok. unfold save_user_profile. unfold bindA at 1.
  destruct (getattr_profile instance cache acc) as [[e|[obj|]] acc1] eqn:Hget;
    apply getattr_profile_inv in Hget; subst acc1; try exact Hok.
  pose proof (UserProfile_save_ok acc obj Hok) as Hsave.
  unfold bindA. destruct (UserProfile_save obj acc) as [[e|p] acc2]; exact Hsave.
Qed.

Lemma post_save_ok (acc : Accounts) (instance : AccountUser.t)
    (cache : ProfileCache) (created : bool) :
  accounts_ok acc ->
  In (AccountUser.id instance) (map AccountUser.id (auth_users acc)) ->
  accounts_ok (snd (post_save instance cache created acc)).
Proof.
  intros Hok Hin. unfold post_save, create_user_profile.
  destruct created.
  - unfold UserProfile_objects_create. unfold bindA at 1. unfold bindA at 1.
    unfold bindA at 1. unfold getsA at 1.
    destruct (existsb _ (profiles acc)) eqn:Hex; [exact Hok|].
    unfold bindA at 1. unfold modifyA at 1. unfold retA at 1. unfold retA at 1.
    apply save_user_profile_ok.
    destruct Hok as [H1 H2 H3 H4 H5]. constructor; cbn [auth_users profiles];
      try assumption.
    + rewrite map_app. apply NoDup_snoc; [assumption|]. apply next_pk_fresh.
    + rewrite map_app. apply NoDup_snoc; [assumption|]. simpl.
      intros Hdup. apply in_map_iff in Hdup. destruct Hdup as (x & Hx & Hxin).
      assert (Hyes : existsb (fun p => UserProfile.user p =? AccountUser.id instance)
                       (profiles acc) = true).
      { apply existsb_exists. exists x. split; [assumption|]. now apply Z.eqb_eq. }
      congruence.
    + intros x Hx. apply in_app_iff in Hx. destruct Hx as [Hx|[<-|[]]]; auto.
  - unfold bindA at 1. unfold retA at 1. now apply save_user_profile_ok.
Qed.

Lemma User_save_ok (acc : Accounts) (instance : AccountUser.t)
    (cache : ProfileCache) :
  accounts_ok acc -> accounts_ok (snd (User_save instance cache acc)).
Proof.
  intros Hok. unfold User_save. unfold bindA at 1. unfold getsA at 1.
  match goal with
  | |- context [if ?b then raiseA _ else _] => destruct b eqn:Hname
  end; [exact Hok|].
  pose proof (name_clash_false acc instance Hname) as Hnames.
  destruct (existsb (fun u => AccountUser.id u =? AccountUser.id instance)
              (auth_users acc)) eqn:Hid.
  - unfold bindA at 1. unfold modifyA at 1. apply post_save_ok.
    + now apply replace_user_ok.
    + cbn [auth_users]. rewrite map_replace_same_key.
      * apply existsb_exists in Hid. destruct Hid as (x & Hx & Heq).
        apply Z.eqb_eq in Heq. rewrite <- Heq. now apply in_map.
      * exact AccountUser.id.
      * intros x _ Hx. apply Z.eqb_eq in Hx. now symmetry.
  - unfold bindA at 1. unfold modifyA at 1.
    assert (Hfresh : forall x, In x (auth_users acc) ->
              AccountUser.id x <> AccountUser.id instance).
    { intros x Hx Heq.
      assert (Hyes : existsb (fun u => AccountUser.id u =? AccountUser.id instance)
                       (auth_users acc) = true).
      { apply existsb_exists. exists x. split; [assumption|]. now apply Z.eqb_eq. }
      congruence. }
    apply post_save_ok.
    + destruct Hok as [H1 H2 H3 H4 H5]. constructor; cbn [auth_users profiles];
        try assumption.
      * rewrite map_app. apply NoDup_snoc; [assumption|]. simpl.
        intros Hdup. apply in_map_iff in Hdup. destruct Hdup as (x & Hx & Hxin).
        now apply (Hfresh x).
      * rewrite map_app. apply NoDup_snoc; [assumption|]. simpl.
        intros Hdup. apply in_map_iff in Hdup. destruct Hdup as (x & Hx & Hxin).
        apply (Hnames x); auto.
      * intros p Hp. rewrite map_app, in_app_iff. left. now apply H5.
    + cbn [auth_users]. rewrite map_app, in_app_iff. right. now left.
Qed.

Lemma check_permissionsA_inv (perms : list Permission) (m : Method) (c : Caller)
    (acc acc' : Accounts) (r : Exn + unit) :
  check_permissionsA perms m c acc = (r, acc') -> acc' = acc.
Proof.
  unfold check_permissionsA, permission_deniedA.
  destruct (forallb _ perms); [now intros [= _ <-]|].
  destruct (is_authenticated c); now intros [= _ <-].
Qed.

Lemma profile_update_ok (acc : Accounts) (partial : bool) (c : Caller) (k : pk)
    (data : UserProfileSerializer.Data) :
  accounts_ok acc ->
  accounts_ok (snd (UserProfileViewSet.update partial c k data acc)).
Proof.
  intros Hok. unfold UserProfileViewSet.update. unfold bindA at 1.
  destruct (check_permissionsA _ _ c acc) as [[e|[]] acc1] eqn:Hperm;
    apply check_permissionsA_inv in Hperm; subst acc1; [exact Hok|].
  unfold bindA at 1.
  destruct (UserProfileViewSet.get_object k acc) as [[e|obj] acc1] eqn:Hget;
    apply profile_get_object_inv in Hget; destruct Hget as [-> Hobj];
    [exact Hok|].
  destruct (Hobj obj eq_refl) as [Hin _].
  destruct (UserProfileSerializer.is_valid partial data) as [e|attrs];
    [exact Hok|].
  unfold UserProfileViewSet.perform_update.
  destruct (negb (user_eq (UserProfile.user obj) c)); [exact Hok|].
  unfold UserProfileSerializer.update, bindA, modifyA, retA, write_profile.
  cbn [snd fst]. cbn [UserProfile.id].
  destruct Hok as [H1 H2 H3 H4 H5]. constructor; cbn [auth_users profiles];
    try assumption.
  - rewrite map_replace_same_key; [assumption|exact UserProfile.id|].
    intros x _ Hx. apply Z.eqb_eq in Hx. now symmetry.
  - rewrite map_replace_same_key; [assumption|exact UserProfile.id|].
    intros x Hx Heq. apply Z.eqb_eq in Heq. cbn [UserProfile.user].
    f_equal. symmetry. exact (NoDup_map_eq _ _ _ _ H3 Hx Hin Heq).
  - intros p Hp. apply in_map_iff in Hp. destruct Hp as (x & Hx & Hxin).
    destruct (UserProfile.id x =? UserProfile.id obj); subst p; auto.
    cbn [UserProfile.user]. auto.
Qed.

Lemma profile_destroy_ok (acc : Accounts) (c : Caller) (k : pk) :
  accounts_ok acc -> accounts_ok (snd (UserProfileViewSet.destroy c k acc)).
Proof.
  intros Hok. unfold UserProfileViewSet.destroy. unfold bindA at 1.
  destruct (check_permissionsA _ _ c acc) as [[e|[]] acc1] eqn:Hperm;
    apply check_permissionsA_inv in Hperm; subst acc1; [exact Hok|].
  unfold bindA at 1.
  destruct (UserProfileViewSet.get_object k acc) as [[e|obj] acc1] eqn:Hget;
    apply profile_get_object_inv in Hget; destruct Hget as [-> Hobj];
    [exact Hok|].
  unfold bindA, modifyA, retA. cbn [snd].
  destruct Hok as [H1 H2 H3 H4 H5]. constructor; cbn [auth_users profiles];
    try assumption.
  - now apply NoDup_keys_filter.
  - now apply NoDup_keys_filter.
  - intros p Hp. apply filter_In in Hp. now apply H5.
Qed.

Lemma account_step_ok (s : AccountStep) (acc : Accounts) :
  accounts_ok acc -> accounts_ok (account_step s acc).
Proof.
  intros Hok. destruct s as [instance cache|c|c k|c data|partial c k data|c k];
    cbn [account_step].
  - now apply User_save_ok.
  - unfold UserProfileViewSet.list_action. unfold bindA at 1.
    destruct (check_permissionsA _ _ c acc) as [[e|[]] acc1] eqn:Hperm;
      apply check_permissionsA_inv in Hperm; subst acc1; exact Hok.
  - unfold UserProfileViewSet.retrieve. unfold bindA at 1.
    destruct (check_permissionsA _ _ c acc) as [[e|[]] acc1] eqn:Hperm;
      apply check_permissionsA_inv in Hperm; subst acc1; [exact Hok|].
    unfold bindA at 1.
    destruct (UserProfileViewSet.get_object k acc) as [[e|obj] acc1] eqn:Hget;
      apply profile_get_object_inv in Hget; destruct Hget as [-> _]; exact Hok.
  - unfold UserProfileViewSet.create. unfold bindA at 1.
    destruct (check_permissionsA _ _ c acc) as [[e|[]] acc1] eqn:Hperm;
      apply check_permissionsA_inv in Hperm; subst acc1; [exact Hok|].
    destruct (UserProfileSerializer.is_valid false data); exact Hok.
  - now apply profile_update_ok.
  - now apply profile_destroy_ok.
Qed.

(** X25: the constraints on users and profiles (unique primary keys and
    user names, at most one profile per user, every profile on a user of
    the table) are kept by every sequence of user saves, whatever profile
    object is attached to the saved user, and requests to the profile
    viewset. *)
Theorem account_steps_keep_constraints (steps : list AccountStep) (acc : Accounts) :
  accounts_ok acc -> accounts_ok (account_steps steps acc).
Proof.
  revert acc. induction steps as [|s steps IH]; simpl; intros acc Hok;
    [exact Hok|].
  apply IH. now apply account_step_ok.
Qed.

(** * The further properties on the sample data *)

Lemma sample_times_ok : times_ok sample_store.
Proof. intros e [<-|[<-|[]]]; simpl; lia. Qed.

Lemma sample_ratings_ok : ratings_ok sample_store.
Proof. intros r [<-|[<-|[<-|[]]]]; simpl; lia. Qed.

Lemma sample_refs_ok : refs_ok sample_store.
Proof.
  split.
  - intros r [<-|[]]; simpl; auto.
  - intros r [<-|[<-|[<-|[]]]]; simpl; auto.
Qed.

Lemma sample_accounts_ok : accounts_ok sample_accounts.
Proof.
  constructor; try solve_nodup.
  intros p [<-|[<-|[]]]; simpl; auto.
Qed.

Lemma requests_keep_constraints_witness :
  store_ok (serve_routes [3; 4; 7] sample_requests sample_store).
Proof.
  exact (requests_keep_constraints [3; 4; 7] sample_requests sample_store
           sample_store_ok).
Defined.

Lemma requests_keep_times_witness :
  times_ok (serve_routes [3; 4; 7] sample_requests sample_store).
Proof.
  exact (requests_keep_times [3; 4; 7] sample_requests sample_store
           sample_times_ok).
Defined.

Lemma requests_keep_ratings_witness :
  ratings_ok (serve_routes [3; 4; 7] sample_requests sample_store).
Proof.
  exact (requests_keep_ratings [3; 4; 7] sample_requests sample_store
           sample_ratings_ok).
Defined.

Lemma requests_keep_references_witness :
  refs_ok (serve_routes [3; 4; 7] sample_requests sample_store).
Proof.
  exact (requests_keep_references [3; 4; 7] sample_requests sample_store
           sample_refs_ok).
Defined.

Lemma anonymous_requests_write_nothing_witness :
  serve_routes [3; 4; 7]
    [ (AnonymousUser, CoreRoute (DestroyEvent any_event 1));
      (AnonymousUser, CoreRoute (CreateEvent meetup_payload));
      (AnonymousUser, DestroyReview None 1) ] sample_store = sample_store.
Proof.
  refine (anonymous_requests_write_nothing [3; 4; 7] _ sample_store _).
  simpl. intros c r [H|[H|[H|[]]]]; now inversion H.
Defined.

Lemma events_written_by_organizer_only_witness :
  In public_event
     (events (serve_routes [3; 4; 7]
        [ (AuthUser 3, CoreRoute (DestroyEvent any_event 1));
          (AuthUser 4, CoreRoute (UpdateEvent true any_event 1 meetup_payload));
          (AnonymousUser, CoreRoute (DestroyEvent any_event 1)) ] sample_store)).
Proof.
  refine (events_written_by_organizer_only [3; 4; 7] _ sample_store public_event
            sample_store_ok _ _).
  - simpl. auto.
  - simpl. intros c r [H|[H|[H|[]]]]; inversion H; discriminate.
Defined.

Lemma rsvps_written_by_owner_only_witness :
  let r := CoreRoute (Rsvp POST any_event 1
                        (RSVPSerializer.mkData (Some "Going"%string))) in
  In (RSVP.mk 1 1 4 "Maybe") (rsvps (route_store [3; 4; 7] (AuthUser 3) r sample_store))
  \/ ~ In 1 (map Event.id (events (route_store [3; 4; 7] (AuthUser 3) r sample_store))).
Proof.
  refine (rsvps_written_by_owner_only [3; 4; 7] (AuthUser 3) _ sample_store
            (RSVP.mk 1 1 4 "Maybe") sample_store_ok _ _).
  - simpl. auto.
  - simpl. discriminate.
Defined.

Lemma reviews_written_by_author_only_witness :
  let r := UpdateReview true None 1
             (ReviewSerializer.mkData Absent Absent (Given 1) Absent) in
  In (Review.mk 1 1 3 4 "Good")
     (reviews (route_store [3; 4; 7] (AuthUser 4) r sample_store))
  \/ ~ In 1 (map Event.id (events (route_store [3; 4; 7] (AuthUser 4) r sample_store))).
Proof.
  refine (reviews_written_by_author_only [3; 4; 7] (AuthUser 4) _ sample_store
            (Review.mk 1 1 3 4 "Good") sample_store_ok _ _).
  - simpl. auto.
  - simpl. discriminate.
Defined.

Lemma rsvp_views_show_own_rows_only_witness :
  RSVPViewSet.retrieve (AuthUser 3) 1 sample_store = (inl Http404, sample_store) /\
  RSVPViewSet.retrieve (AuthUser 4) 9 sample_store = (inl Http404, sample_store).
Proof.
  split.
  - refine (proj1 (proj2 (proj2 (proj2
              (rsvp_views_show_own_rows_only sample_store 3))))
              (RSVP.mk 1 1 4 "Maybe") sample_store_ok _).
    simpl. auto.
  - refine (proj2 (proj2 (proj2 (proj2
              (rsvp_views_show_own_rows_only sample_store 4)))) 9 _).
    simpl. intros [H|[]]. discriminate H.
Defined.

Lemma rsvp_status_round_trip_witness :
  let st' := store_after (EventViewSet.rsvp POST (AuthUser 3) any_event 1
                            (RSVPSerializer.mkData (Some "Going"%string))
                            sample_store) in
  get_user_rsvp_status (AuthUser 3) public_event st' = (inr (Some "Going"%string), st').
Proof.
  refine (proj1 (rsvp_status_round_trip sample_store POST 3 any_event public_event
                   "Going" sample_store_ok _ _ _ _)).
  - simpl. auto.
  - reflexivity.
  - reflexivity.
  - simpl. auto.
Defined.

Lemma rsvp_update_keeps_status_valid_witness :
  exists r',
    rsvps_of 1 4
      (store_after (EventViewSet.rsvp PATCH (AuthUser 4) any_event 1
                      (RSVPSerializer.mkData (Some "Banana"%string)) sample_store))
      = [r'] /\
    RSVP.id r' = 1 /\
    In (RSVP.status r') RSVPSerializer.valid_statuses.
Proof.
  refine (rsvp_update_keeps_status_valid sample_store PATCH 4 any_event public_event
            (RSVP.mk 1 1 4 "Maybe") (RSVPSerializer.mkData (Some "Banana"%string))
            sample_store_ok _ _ _ _ _ _ _).
  - simpl. auto.
  - reflexivity.
  - reflexivity.
  - simpl. auto.
  - reflexivity.
  - reflexivity.
  - simpl. auto.
Defined.

Lemma review_collection_post_never_creates_witness :
  let data := ReviewSerializer.mkData (Given 1) Absent (Given 5) Absent in
  ReviewViewSet.create (AuthUser 7) data sample_store =
    (inl (Unhandled "KeyError"), sample_store) /\
  http_status true (outcome (ReviewViewSet.create (AuthUser 7) data sample_store))
    = HTTP_500_INTERNAL_SERVER_ERROR.
Proof.
  refine (proj2 (review_collection_post_never_creates (AuthUser 7)
                   (ReviewSerializer.mkData (Given 1) Absent (Given 5) Absent)
                   sample_store)
            7 public_event (ReviewSerializer.mkAttrs None 5 None)
            eq_refl sample_store_ok _ _ _ _).
  - simpl. auto.
  - reflexivity.
  - reflexivity.
  - reflexivity.
Defined.

Lemma review_destroy_by_author_only_witness :
  ReviewDetail.destroy (AuthUser 4) None 1 sample_store =
    (inr (mkResponse HTTP_403_FORBIDDEN
            (Detail "You can only delete your own reviews.")), sample_store).
Proof.
  refine (proj1 (proj2 (proj2
            (review_destroy_by_author_only sample_store (Review.mk 1 1 3 4 "Good")
               sample_store_ok _))) 4 _).
  - simpl. auto.
  - simpl. discriminate.
Defined.

Lemma review_update_guards_witness :
  let data := ReviewSerializer.mkData Absent Absent (Given 9) Absent in
  ReviewDetail.update [3; 4; 7] true (AuthUser 3) None 1 data sample_store =
    (inl ValidationError, sample_store).
Proof.
  assert (H : 9 < 1 \/ 5 < 9) by (right; lia).
  refine (proj1 (proj2
            (review_update_guards [3; 4; 7] true sample_store
               (Review.mk 1 1 3 4 "Good")
               (ReviewSerializer.mkData Absent Absent (Given 9) Absent)
               sample_store_ok _)) 9 eq_refl H).
  simpl. auto.
Defined.

Lemma review_handover_by_user_id_witness :
  let data := ReviewSerializer.mkData Absent (Given 3) Absent Absent in
  let new := Review.mk 3 2 3 3 "" in
  let st' := write_review new sample_store in
  ReviewDetail.update [3; 4; 7] true (AuthUser 7) None 3 data sample_store =
    (inr (mkResponse HTTP_200_OK (ReviewBody new)), st') /\
  In new (reviews st') /\ ~ In (Review.mk 3 2 7 3 "") (reviews st') /\
  ReviewDetail.destroy (AuthUser 7) None 3 st' =
    (inr (mkResponse HTTP_403_FORBIDDEN
            (Detail "You can only delete your own reviews.")), st') /\
  ReviewDetail.destroy (AuthUser 3) None 3 st' =
    (inr (mkResponse HTTP_204_NO_CONTENT NoContent), without_review 3 st').
Proof.
  refine (review_handover_by_user_id [3; 4; 7] true sample_store
            (Review.mk 3 2 7 3 "")
            (ReviewSerializer.mkData Absent (Given 3) Absent Absent)
            (ReviewUpdate.mkAttrs (Some 3) None None) 3
            sample_store_ok _ _ _ _ _ _).
  - simpl. auto.
  - reflexivity.
  - reflexivity.
  - simpl. auto.
  - simpl. discriminate.
  - reflexivity.
Defined.

Lemma event_destroy_cascades_witness :
  EventViewSet.destroy (AuthUser 7) any_event 1 sample_store =
    (inr (mkResponse HTTP_204_NO_CONTENT NoContent), without_event 1 sample_store).
Proof.
  refine (proj1 (event_destroy_cascades sample_store any_event public_event
                   sample_store_ok _ _)).
  - simpl. auto.
  - reflexivity.
Defined.

Lemma created_event_is_retrievable_witness :
  (exists obj st',
      EventRequest.create JSON (AuthUser 3) meetup_payload sample_store =
        (inr (mkResponse HTTP_201_CREATED (EventDetail obj)), st') /\
      ~ In (Event.id obj) (map Event.id (events sample_store)) /\
      Event.is_public obj = true /\
      EventViewSet.retrieve (AuthUser 3) any_event (Event.id obj) st' =
        (inr (mkResponse HTTP_200_OK (EventDetail obj)), st') /\
      forall c, c <> AuthUser 3 ->
        EventViewSet.retrieve c any_event (Event.id obj) st' =
          if Event.is_public obj
          then (inr (mkResponse HTTP_200_OK (EventDetail obj)), st')
          else (inl Http404, st')) /\
  (exists obj st',
      EventRequest.create HTMLForm (AuthUser 3) meetup_payload sample_store =
        (inr (mkResponse HTTP_201_CREATED (EventDetail obj)), st') /\
      ~ In (Event.id obj) (map Event.id (events sample_store)) /\
      Event.is_public obj = false /\
      EventViewSet.retrieve (AuthUser 3) any_event (Event.id obj) st' =
        (inr (mkResponse HTTP_200_OK (EventDetail obj)), st') /\
      forall c, c <> AuthUser 3 ->
        EventViewSet.retrieve c any_event (Event.id obj) st' =
          if Event.is_public obj
          then (inr (mkResponse HTTP_200_OK (EventDetail obj)), st')
          else (inl Http404, st')).
Proof.
  split.
  - refine (created_event_is_retrievable sample_store 3 JSON meetup_payload
              (EventCreateUpdateSerializer.mkAttrs
                 (Some "Meetup"%string) (Some "Monthly meetup"%string)
                 (Some "Paris"%string) (Some 1000) (Some 2000) None)
              sample_store_ok _).
    reflexivity.
  - refine (created_event_is_retrievable sample_store 3 HTMLForm meetup_payload
              (EventCreateUpdateSerializer.mkAttrs
                 (Some "Meetup"%string) (Some "Monthly meetup"%string)
                 (Some "Paris"%string) (Some 1000) (Some 2000) (Some false))
              sample_store_ok _).
    reflexivity.
Defined.

Lemma event_update_by_organizer_witness :
  let body := EventCreateUpdateSerializer.mkData
                (Given "Summer meetup"%string) (Given "Monthly meetup"%string)
                (Given "Paris"%string) (Given 1000) (Given 2000) Absent Absent in
  let kept := Event.mk 1 "Summer meetup" "Monthly meetup" 7 "Paris" 1000 2000 true in
  let hidden := Event.mk 1 "Summer meetup" "Monthly meetup" 7 "Paris" 1000 2000 false in
  EventRequest.update JSON false (AuthUser 7) any_event 1 body sample_store =
    (inr (mkResponse HTTP_200_OK (EventDetail kept)), write_event kept sample_store) /\
  EventRequest.update HTMLForm false (AuthUser 7) any_event 1 body sample_store =
    (inr (mkResponse HTTP_200_OK (EventDetail hidden)),
     write_event hidden sample_store).
Proof.
  split.
  - refine (proj1 (event_update_by_organizer sample_store JSON false any_event
                     public_event
                     (EventCreateUpdateSerializer.mkData
                        (Given "Summer meetup"%string) (Given "Monthly meetup"%string)
                        (Given "Paris"%string) (Given 1000) (Given 2000) Absent Absent)
                     (EventCreateUpdateSerializer.mkAttrs
                        (Some "Summer meetup"%string) (Some "Monthly meetup"%string)
                        (Some "Paris"%string) (Some 1000) (Some 2000) None)
                     sample_store_ok _ _ _)).
    + simpl. auto.
    + reflexivity.
    + reflexivity.
  - refine (proj1 (event_update_by_organizer sample_store HTMLForm false any_event
                     public_event
                     (EventCreateUpdateSerializer.mkData
                        (Given "Summer meetup"%string) (Given "Monthly meetup"%string)
                        (Given "Paris"%string) (Given 1000) (Given 2000) Absent Absent)
                     (EventCreateUpdateSerializer.mkAttrs
                        (Some "Summer meetup"%string) (Some "Monthly meetup"%string)
                        (Some "Paris"%string) (Some 1000) (Some 2000) (Some false))
                     sample_store_ok _ _ _)).
    + simpl. auto.
    + reflexivity.
    + reflexivity.
Defined.


Lemma event_reviews_follow_scope_witness :
  exists l,
    (forall r, In r l <-> In r (reviews sample_store) /\ Review.event r = 2) /\
    EventViewSet.reviews_get (AuthUser 3) any_event 2 sample_store =
      (inl Http404, sample_store).
Proof.
  refine (event_reviews_follow_scope sample_store (AuthUser 3) any_event
            private_event sample_store_ok _ _).
  - simpl. auto.
  - reflexivity.
Defined.


Lemma saving_user_saves_attached_profile_witness :
  let instance := AccountUser.mk 3 "ann" "ann@example.com" in
  let obj := ProfileObject.mk (Some 1) 3 "Ann B." "Runner" "Paris" "" in
  profiles (snd (User_save instance NotFetched sample_accounts))
    = profiles sample_accounts /\
  profiles (snd (User_save instance (Attached obj) sample_accounts))
    = [UserProfile.mk 1 3 "Ann B." "Runner" "Paris" "";
       UserProfile.mk 2 7 "" "" "" ""].
Proof.
  pose proof (saving_user_saves_attached_profile sample_accounts
                (AccountUser.mk 3 "ann" "ann@example.com")
                sample_accounts_ok (or_introl eq_refl)) as [Hkeep Hsave].
  split.
  - apply Hkeep. now left.
  - refine (proj1 (proj2 (Hsave (UserProfile.mk 1 3 "Ann" "" "Paris" "")
                            "Ann B."%string "Runner"%string "Paris"%string
                            ""%string (or_introl eq_refl) _))).
    simpl. intros x [<-|[<-|[]]]; [reflexivity|discriminate].
Defined.

Lemma profile_update_by_owner_only_witness :
  let data := UserProfileSerializer.mkData (Given "Bob"%string) Absent Absent Absent in
  UserProfileViewSet.update true (AuthUser 7) 1 data sample_accounts =
    (inl PermissionDenied, sample_accounts).
Proof.
  refine (proj1 (proj2
            (profile_update_by_owner_only sample_accounts true
               (UserProfile.mk 1 3 "Ann" "" "Paris" "")
               (UserProfileSerializer.mkData (Given "Bob"%string) Absent Absent Absent)
               sample_accounts_ok _)) 7 _).
  - simpl. auto.
  - simpl. discriminate.
Defined.

Lemma profile_destroy_has_no_owner_check_witness :
  let acc' := mkAccounts (auth_users sample_accounts)
                         [UserProfile.mk 2 7 "" "" "" ""] in
  UserProfileViewSet.destroy (AuthUser 7) 1 sample_accounts =
    (inr (mkReply HTTP_204_NO_CONTENT tt), acc') /\
  profiles_of 3 acc' = [].
Proof.
  pose proof (profile_destroy_has_no_owner_check sample_accounts
                (UserProfile.mk 1 3 "Ann" "" "Paris" "") 7
                sample_accounts_ok (or_introl eq_refl)) as H.
  split; [exact (proj1 H)|exact (proj1 (proj2 H))].
Defined.

Lemma account_steps_keep_constraints_witness :
  accounts_ok
    (account_steps
       [ SaveUser (AccountUser.mk 8 "cat" "cat@example.org") NotFetched;
         DestroyProfile (AuthUser 8) 1;
         SaveUser (AccountUser.mk 3 "cat" "ann@example.org")
                  (Attached (ProfileObject.mk None 7 "Ann" "" "" ""));
         UpdateProfile true (AuthUser 7) 2
           (UserProfileSerializer.mkData (Given "Bob"%string) Absent Absent Absent) ]
       sample_accounts).
Proof.
  exact (account_steps_keep_constraints _ sample_accounts sample_accounts_ok).
Defined.
